(** * nfl-stat-compiler: stat ingestion and accumulation pipeline

    A shallow embedding of [src/database_connector.py] and of the parts of
    [src/espn_schedule_scraper.py] that feed it, followed by the properties
    of the accumulation pipeline.

    Conventions of the embedding
    - Python [int] is [Z] (arbitrary precision); CPython's optional limit on
      the number of digits of an int/str conversion is a runtime setting and
      is not part of the model.
    - Python [str] is [string]; only ASCII text is considered.
    - [Optional[T]] is [option T].
    - An exception is a value of [exn]; code that may raise returns a
      [result].
    - What the two modules do when they are imported (opening the database
      connection, fetching one schedule page) happens before any of the
      functions below is called and is not part of the model. *)

From Stdlib Require Import ZArith List String Ascii Bool Lia.
Import ListNotations.

Local Open Scope Z_scope.

(* ================================================================= *)
(** ** Python values, exceptions *)

Inductive exn : Type :=
| ValueError (msg : string)
| OverflowError
| IndexError
| DbError (msg : string)          (* mariadb.Error *)
| HTTPError (msg : string).       (* requests.HTTPError and friends *)

Inductive result (A : Type) : Type :=
| Ok (a : A)
| Raise (e : exn).
Arguments Ok {A} a.
Arguments Raise {A} e.

(** The values that occur as stat tokens and as arguments of the integer
    coercions: [None], an [int], or a [str].  The stat arrays of the feed
    hold display strings; a JSON float, for which [_parse_int] has a branch
    of its own, a boolean or a nested container is outside this model. *)
Inductive pyval : Type :=
| PyNone
| PyInt (n : Z)
| PyStr (s : string).

Definition int_val (v : option Z) : pyval :=
  match v with Some n => PyInt n | None => PyNone end.

Definition str_val (v : option string) : pyval :=
  match v with Some s => PyStr s | None => PyNone end.

(** [x or d] for an [Optional[int]] [x]: [None] and [0] are falsy. *)
Definition py_or (x : option Z) (d : Z) : Z :=
  match x with
  | Some n => if n =? 0 then d else n
  | None => d
  end.

(* ================================================================= *)
(** ** Python string primitives *)

Module PyStr.

Definition code (c : ascii) : N := N_of_ascii c.

Definition is_digit (c : ascii) : bool :=
  ((48 <=? code c) && (code c <=? 57))%N.

Definition digit_val (c : ascii) : Z := Z.of_N (code c) - 48.

Definition digit_char (d : Z) : ascii := ascii_of_N (Z.to_N (d + 48)).

(** [Py_ISSPACE]: the whitespace skipped by [int(str)] and [float(str)]. *)
Definition Py_ISSPACE (c : ascii) : bool :=
  (((9 <=? code c) && (code c <=? 13)) || (code c =? 32))%N.

(** [str.isspace] on ASCII: [Py_ISSPACE] plus the separators 0x1C..0x1F. *)
Definition isspace (c : ascii) : bool :=
  (Py_ISSPACE c || ((28 <=? code c) && (code c <=? 31)))%N.

Fixpoint lstrip (sp : ascii -> bool) (s : string) : string :=
  match s with
  | EmptyString => EmptyString
  | String c r => if sp c then lstrip sp r else s
  end.

Fixpoint rstrip (sp : ascii -> bool) (s : string) : string :=
  match s with
  | EmptyString => EmptyString
  | String c r =>
      match rstrip sp r with
      | EmptyString => if sp c then EmptyString else String c EmptyString
      | r' => String c r'
      end
  end.

(** [s.strip()] *)
Definition strip (s : string) : string := rstrip isspace (lstrip isspace s).

(** [c in s] for a one-character needle. *)
Fixpoint contains (c : ascii) (s : string) : bool :=
  match s with
  | EmptyString => false
  | String d r => if Ascii.eqb d c then true else contains c r
  end.

(** [s.split(c, 1)] when [c] occurs in [s]: the text before the first
    occurrence and the text after it.  (Without an occurrence the whole
    string is the first component.) *)
Fixpoint split_once (c : ascii) (s : string) : string * string :=
  match s with
  | EmptyString => (EmptyString, EmptyString)
  | String d r =>
      if Ascii.eqb d c then (EmptyString, r)
      else let (a, b) := split_once c r in (String d a, b)
  end.

(** [s.replace(c, "")] *)
Fixpoint remove_char (c : ascii) (s : string) : string :=
  match s with
  | EmptyString => EmptyString
  | String d r =>
      if Ascii.eqb d c then remove_char c r else String d (remove_char c r)
  end.

(** *** [int(s)], base 10

    Leading whitespace, an optional sign, decimal digits in which single
    underscores may separate digits, trailing whitespace. *)

Fixpoint digits_value (s : string) (prev_digit : bool) (acc : Z) : option Z :=
  match s with
  | EmptyString => if prev_digit then Some acc else None
  | String c r =>
      if is_digit c then digits_value r true (acc * 10 + digit_val c)
      else if Ascii.eqb c "_"%char then
             if prev_digit then digits_value r false acc else None
           else None
  end.

Definition split_sign (s : string) : bool * string :=
  match s with
  | String "+"%char r => (false, r)
  | String "-"%char r => (true, r)
  | _ => (false, s)
  end.

Definition int (s : string) : option Z :=
  let (neg, body) := split_sign (lstrip Py_ISSPACE s) in
  match digits_value (rstrip Py_ISSPACE body) false 0 with
  | Some n => Some (if neg then - n else n)
  | None => None
  end.

(** *** [str(n)] for an int *)

Fixpoint to_digits (fuel : nat) (n : Z) : string :=
  match fuel with
  | O => EmptyString
  | S f =>
      if n <? 10 then String (digit_char n) EmptyString
      else (to_digits f (n / 10) ++ String (digit_char (n mod 10)) EmptyString)%string
  end.

Definition str_nonneg (n : Z) : string :=
  to_digits (S (Z.to_nat (Z.log2 n))) n.

Definition str (n : Z) : string :=
  if n <? 0 then String "-"%char (str_nonneg (- n)) else str_nonneg n.

(** *** [float(s)] and [int(x)] for a float [x]

    A float is an IEEE binary64 value.  A finite one is kept as the exact
    integer pair [(m, e)] standing for [m * 2^e]; the conversion from a
    decimal literal rounds to nearest, ties to even, as CPython's
    [_Py_dg_strtod] does. *)

Inductive pyfloat : Type :=
| FFinite (neg : bool) (m e : Z)
| FInf
| FNan.

(** [_Py_string_to_number_with_underscores]: an underscore must stand
    between two digits; the underscores are then dropped. *)
Fixpoint drop_underscores (prev : ascii) (s : string) : option string :=
  match s with
  | EmptyString => if Ascii.eqb prev "_"%char then None else Some EmptyString
  | String c r =>
      if Ascii.eqb c "_"%char then
        if is_digit prev then drop_underscores c r else None
      else if Ascii.eqb prev "_"%char && negb (is_digit c) then None
      else option_map (String c) (drop_underscores c r)
  end.

Definition lower (c : ascii) : ascii :=
  if ((65 <=? code c) && (code c <=? 90))%N then ascii_of_N (code c + 32) else c.

Fixpoint lower_str (s : string) : string :=
  match s with
  | EmptyString => EmptyString
  | String c r => String (lower c) (lower_str r)
  end.

(** The longest prefix of digits, and what follows it. *)
Fixpoint span_digits (s : string) : string * string :=
  match s with
  | EmptyString => (EmptyString, EmptyString)
  | String c r =>
      if is_digit c then let (a, b) := span_digits r in (String c a, b)
      else (EmptyString, s)
  end.

(** The number written by a string of digits. *)
Fixpoint digits_nat (s : string) (acc : Z) : Z :=
  match s with
  | EmptyString => acc
  | String c r => digits_nat r (acc * 10 + digit_val c)
  end.

(** [digits [. digits] [(e|E) [sign] digits]] with at least one digit before
    the exponent: the pair [(m, e10)] standing for [m * 10^e10]. *)
Definition parse_decimal (s : string) : option (Z * Z) :=
  let (ip, r1) := span_digits s in
  let (fp, r2) :=
    match r1 with
    | String "."%char r => span_digits r
    | _ => (EmptyString, r1)
    end in
  if (String.length ip + String.length fp =? 0)%nat then None
  else
    let m := digits_nat (ip ++ fp) 0 in
    let fe := - Z.of_nat (String.length fp) in
    match r2 with
    | EmptyString => Some (m, fe)
    | String c r3 =>
        if Ascii.eqb (lower c) "e"%char then
          let (eneg, r4) := split_sign r3 in
          let (ep, r5) := span_digits r4 in
          match ep, r5 with
          | String _ _, EmptyString =>
              let x := digits_nat ep 0 in
              Some (m, fe + (if eneg then - x else x))
          | _, _ => None
          end
        else None
    end.

(** The double nearest to the positive rational [n / d] (ties to even),
    or infinity when that is beyond the largest finite double. *)
Definition round_double (neg : bool) (n d : Z) : pyfloat :=
  let k0 := Z.log2 n - Z.log2 d - 52 in
  let scaled k := if 0 <=? k then n / (d * 2 ^ k) else (n * 2 ^ (- k)) / d in
  let k1 := if scaled k0 <? 2 ^ 52 then k0 - 1 else k0 in
  let k := Z.max k1 (-1074) in
  let num := if 0 <=? k then n else n * 2 ^ (- k) in
  let den := if 0 <=? k then d * 2 ^ k else d in
  let q := num / den in
  let r := num mod den in
  let m := if (den <? 2 * r) || ((2 * r =? den) && Z.odd q) then q + 1 else q in
  if (971 <? k) || ((k =? 971) && (2 ^ 53 <=? m)) then FInf
  else FFinite neg m k.

Definition decimal_to_double (neg : bool) (m e10 : Z) : pyfloat :=
  if m =? 0 then FFinite neg 0 0
  else if 0 <=? e10 then round_double neg (m * 10 ^ e10) 1
  else round_double neg m (10 ^ (- e10)).

Definition float (s : string) : option pyfloat :=
  match drop_underscores zero s with
  | None => None
  | Some s1 =>
      let (neg, body) := split_sign (rstrip Py_ISSPACE (lstrip Py_ISSPACE s1)) in
      let lb := lower_str body in
      if String.eqb lb "inf" || String.eqb lb "infinity" then Some FInf
      else if String.eqb lb "nan" then Some FNan
      else match parse_decimal body with
           | Some (m, e10) => Some (decimal_to_double neg m e10)
           | None => None
           end
  end.

(** [int(x)] for a float: truncation toward zero; infinities raise
    [OverflowError], NaN raises [ValueError]. *)
Definition int_of_float (x : pyfloat) : result Z :=
  match x with
  | FFinite neg m e =>
      let a := if 0 <=? e then m * 2 ^ e else m / 2 ^ (- e) in
      Ok (if neg then - a else a)
  | FInf => Raise OverflowError
  | FNan => Raise (ValueError "cannot convert float NaN to integer")
  end.

End PyStr.

(* ================================================================= *)
(** ** database_connector: value coercions *)

(** [_to_int]: [int(v)], and when that raises,
    [int(float(str(v).replace(",", "")))]; [None] when both raise. *)
Definition _to_int (v : pyval) : option Z :=
  match v with
  | PyNone => None
  | PyInt n => Some n
  | PyStr s =>
      match PyStr.int s with
      | Some n => Some n
      | None =>
          match PyStr.float (PyStr.remove_char ","%char s) with
          | Some x =>
              match PyStr.int_of_float x with
              | Ok n => Some n
              | Raise _ => None
              end
          | None => None
          end
      end
  end.

Definition _int_or_zero (v : pyval) : Z :=
  match _to_int v with
  | None => 0
  | Some n => n
  end.

(** The local function [to_pair] of [_merge_completions]. *)
Definition to_pair (s : option string) : option Z * option Z :=
  match s with
  | None => (None, None)
  | Some s =>
      let s := PyStr.strip s in
      if PyStr.contains "/"%char s then
        let parts := PyStr.split_once "/"%char s in
        let left := _to_int (PyStr (fst parts)) in
        let right := _to_int (PyStr (snd parts)) in
        (left, right)
      else
        let n := _to_int (PyStr s) in
        (n, None)
  end.

Definition is_None {A : Type} (x : option A) : bool :=
  match x with None => true | Some _ => false end.

Definition _merge_completions (existing incoming : option string) : option string :=
  let (e_left, e_right) := to_pair existing in
  let (i_left, i_right) := to_pair incoming in
  if is_None e_left && is_None e_right && is_None i_left && is_None i_right then None
  else
    let left_sum := py_or e_left 0 + py_or i_left 0 in
    if negb (is_None e_right) || negb (is_None i_right) then
      let right_sum := py_or e_right 0 + py_or i_right 0 in
      Some (PyStr.str left_sum ++ "/" ++ PyStr.str right_sum)%string
    else
      Some (PyStr.str left_sum).

(* ================================================================= *)
(** ** The dataclasses of espn_schedule_scraper

    One record per statistical category.  The rows of the six tables carry
    the same columns (the surrogate [id] and the two timestamps, which no
    code path reads back, are left out), so a table is a list of these
    records. *)

Module Passing.
Record PassingStats : Type := mk {
  team_id : option Z;
  team_name : option string;
  player_id : option Z;
  player_name : option string;
  player_headshot_url : option string;
  completions_attempts : option string;
  passing_yards : option Z;
  passing_touchdowns : option Z;
  interceptions : option Z;
  sacks : option Z }.
End Passing.

Module Rushing.
Record RushingStats : Type := mk {
  team_id : option Z;
  team_name : option string;
  player_id : option Z;
  player_name : option string;
  player_headshot_url : option string;
  rushing_attempts : option Z;
  rushing_yards : option Z;
  rushing_touchdowns : option Z;
  longest_run : option Z }.
End Rushing.

Module Receiving.
Record ReceivingStats : Type := mk {
  team_id : option Z;
  team_name : option string;
  player_id : option Z;
  player_name : option string;
  player_headshot_url : option string;
  receptions : option Z;
  receiving_yards : option Z;
  receiving_touchdowns : option Z;
  longest_reception : option Z;
  targets : option Z }.
End Receiving.

Module Fumbles.
Record FumblesStats : Type := mk {
  team_id : option Z;
  team_name : option string;
  player_id : option Z;
  player_name : option string;
  player_headshot_url : option string;
  fumbles : option Z;
  fumbles_lost : option Z;
  fumbles_recovered : option Z }.
End Fumbles.

Module Defensive.
Record DefensiveStats : Type := mk {
  team_id : option Z;
  team_name : option string;
  player_id : option Z;
  player_name : option string;
  player_headshot_url : option string;
  total_tackles : option Z;
  solo_tackles : option Z;
  sacks : option Z;
  tackles_for_loss : option Z;
  passes_defended : option Z;
  qb_hits : option Z;
  defensive_touchdowns : option Z }.
End Defensive.

Module Interceptions.
Record InterceptionsStats : Type := mk {
  team_id : option Z;
  team_name : option string;
  player_id : option Z;
  player_name : option string;
  player_headshot_url : option string;
  interceptions : option Z;
  interception_yards : option Z;
  interception_touchdowns : option Z }.
End Interceptions.

Import Passing Rushing Receiving Fumbles Defensive Interceptions.

(* ================================================================= *)
(** ** The storage: six tables behind one connection

    [database_connection] is opened with [autocommit=False]: statements act
    on the open transaction ([pending]); [commit] makes it durable
    ([committed]); [rollback] discards it.  A statement or a commit may fail:
    [faults] is the schedule of such failures, one entry consumed per
    statement ([true] = this statement raises [mariadb.Error]); past the end
    of the schedule every statement succeeds.  [trace] lists, oldest first,
    everything the program did to the outside world. *)

Record Tables : Type := mkTables {
  passing_stats : list PassingStats;
  rushing_stats : list RushingStats;
  receiving_stats : list ReceivingStats;
  fumbles_stats : list FumblesStats;
  defensive_stats : list DefensiveStats;
  interceptions_stats : list InterceptionsStats }.

Definition empty_tables : Tables := mkTables [] [] [] [] [] [].

Inductive TableName : Type :=
| passing_stats_tbl | rushing_stats_tbl | receiving_stats_tbl
| fumbles_stats_tbl | defensive_stats_tbl | interceptions_stats_tbl.

Inductive Stmt : Type :=
| SELECT (t : TableName) (pid : Z)
| UPDATE (t : TableName) (pid : Z)
| INSERT (t : TableName) (pid : Z)
| DELETE (t : TableName)
| COMMIT
| ROLLBACK.

(** The results dict of [insert_all_player_stats]. *)
Record Counts : Type := mkCounts {
  n_passing : Z; n_rushing : Z; n_receiving : Z;
  n_fumbles : Z; n_defensive : Z; n_interceptions : Z }.

Inductive Request : Type :=
| GetSchedule (season week season_type : Z)
| GetSummary (game_id : string).

Inductive Msg : Type :=
| MsgCompiling (season end_week : Z) (season_type_str : string)
| MsgWeek (week end_week : Z)
| MsgFound (n : nat) (season week : Z) (season_type_str : string)
| MsgGame (game_id : string) (week : Z)
| MsgInserted (inserted : Counts)
| MsgWarning (game_id : string) (week : Z) (e : exn)
| MsgCompleted (season end_week : Z) (season_type_str : string).

Inductive Event : Type :=
| Sql (s : Stmt)
| Http (r : Request)
| Print (m : Msg).

Record World : Type := mkWorld {
  committed : Tables;
  pending : Tables;
  faults : list bool;
  trace : list Event }.

(** *** The monad of effectful code: state and exceptions *)

Definition M (A : Type) : Type := World -> result A * World.

Definition ret {A} (a : A) : M A := fun w => (Ok a, w).

Definition bind {A B} (m : M A) (k : A -> M B) : M B :=
  fun w =>
    match m w with
    | (Ok a, w') => k a w'
    | (Raise e, w') => (Raise e, w')
    end.

Definition raise {A} (e : exn) : M A := fun w => (Raise e, w).

(** [try: m  except Exception as e: h e] *)
Definition try_except {A} (m : M A) (h : exn -> M A) : M A :=
  fun w =>
    match m w with
    | (Ok a, w') => (Ok a, w')
    | (Raise e, w') => h e w'
    end.

Declare Scope monad_scope.
Delimit Scope monad_scope with monad.
Notation "x <- m ;; k" := (bind m (fun x => k))
  (at level 61, m at next level, right associativity) : monad_scope.
Notation "m ;; k" := (bind m (fun _ => k))
  (at level 61, right associativity) : monad_scope.
Local Open Scope monad_scope.

(** [for x in xs: acc = body acc x] *)
Fixpoint for_each {A S} (xs : list A) (acc : S) (body : S -> A -> M S) : M S :=
  match xs with
  | [] => ret acc
  | x :: r => acc' <- body acc x ;; for_each r acc' body
  end.

Definition emit (ev : Event) : M unit :=
  fun w => (Ok tt, mkWorld (committed w) (pending w) (faults w) (trace w ++ [ev])).

Definition print (m : Msg) : M unit := emit (Print m).

(** One round trip to the server: logged, and failing when the fault
    schedule says so. *)
Definition statement (s : Stmt) : M unit :=
  fun w =>
    let tr := trace w ++ [Sql s] in
    match faults w with
    | true :: fs => (Raise (DbError "statement failed"), mkWorld (committed w) (pending w) fs tr)
    | false :: fs => (Ok tt, mkWorld (committed w) (pending w) fs tr)
    | [] => (Ok tt, mkWorld (committed w) (pending w) [] tr)
    end.

Definition get_pending : M Tables := fun w => (Ok (pending w), w).

Definition set_pending (t : Tables) : M unit :=
  fun w => (Ok tt, mkWorld (committed w) t (faults w) (trace w)).

(** [database_connection.commit()] *)
Definition commit : M unit :=
  statement COMMIT ;;
  fun w => (Ok tt, mkWorld (pending w) (pending w) (faults w) (trace w)).

(** [database_connection.rollback()] *)
Definition rollback : M unit :=
  emit (Sql ROLLBACK) ;;
  fun w => (Ok tt, mkWorld (committed w) (committed w) (faults w) (trace w)).

(** *** Tables and the four statements the program issues *)

Record Table (R : Type) : Type := mkTable {
  tname : TableName;
  rows : Tables -> list R;
  set_rows : list R -> Tables -> Tables;
  row_player_id : R -> option Z }.
Arguments tname {R} _.
Arguments rows {R} _ _.
Arguments set_rows {R} _ _ _.
Arguments row_player_id {R} _ _.

(** [WHERE player_id = pid]; a NULL [player_id] matches nothing. *)
Definition has_player_id {R} (T : Table R) (pid : Z) (r : R) : bool :=
  match row_player_id T r with
  | Some q => q =? pid
  | None => false
  end.

(** [cur.execute("SELECT ... WHERE player_id = %s", (pid,)); cur.fetchone()] *)
Definition select_one {R} (T : Table R) (pid : Z) : M (option R) :=
  statement (SELECT (tname T) pid) ;;
  t <- get_pending ;;
  ret (find (has_player_id T pid) (rows T t)).

(** [cur.execute("UPDATE ... SET ... WHERE player_id = %s", ...)]: every
    matching row takes the new column values [set]. *)
Definition update_where {R} (T : Table R) (pid : Z) (set : R -> R) : M unit :=
  statement (UPDATE (tname T) pid) ;;
  t <- get_pending ;;
  set_pending
    (set_rows T (map (fun r => if has_player_id T pid r then set r else r) (rows T t)) t).

(** [cur.execute("INSERT INTO ... VALUES ...", ...)] *)
Definition insert_into {R} (T : Table R) (pid : Z) (row : R) : M unit :=
  statement (INSERT (tname T) pid) ;;
  t <- get_pending ;;
  set_pending (set_rows T (rows T t ++ [row]) t).

Definition passing_stats_T : Table PassingStats :=
  mkTable PassingStats passing_stats_tbl passing_stats
    (fun l t => mkTables l (rushing_stats t) (receiving_stats t)
                  (fumbles_stats t) (defensive_stats t) (interceptions_stats t))
    Passing.player_id.

Definition rushing_stats_T : Table RushingStats :=
  mkTable RushingStats rushing_stats_tbl rushing_stats
    (fun l t => mkTables (passing_stats t) l (receiving_stats t)
                  (fumbles_stats t) (defensive_stats t) (interceptions_stats t))
    Rushing.player_id.

Definition receiving_stats_T : Table ReceivingStats :=
  mkTable ReceivingStats receiving_stats_tbl receiving_stats
    (fun l t => mkTables (passing_stats t) (rushing_stats t) l
                  (fumbles_stats t) (defensive_stats t) (interceptions_stats t))
    Receiving.player_id.

Definition fumbles_stats_T : Table FumblesStats :=
  mkTable FumblesStats fumbles_stats_tbl fumbles_stats
    (fun l t => mkTables (passing_stats t) (rushing_stats t) (receiving_stats t)
                  l (defensive_stats t) (interceptions_stats t))
    Fumbles.player_id.

Definition defensive_stats_T : Table DefensiveStats :=
  mkTable DefensiveStats defensive_stats_tbl defensive_stats
    (fun l t => mkTables (passing_stats t) (rushing_stats t) (receiving_stats t)
                  (fumbles_stats t) l (interceptions_stats t))
    Defensive.player_id.

Definition interceptions_stats_T : Table InterceptionsStats :=
  mkTable InterceptionsStats interceptions_stats_tbl interceptions_stats
    (fun l t => mkTables (passing_stats t) (rushing_stats t) (receiving_stats t)
                  (fumbles_stats t) (defensive_stats t) l)
    Interceptions.player_id.

(** [DELETE FROM table] *)
Definition clear_table (n : TableName) (t : Tables) : Tables :=
  match n with
  | passing_stats_tbl => set_rows passing_stats_T [] t
  | rushing_stats_tbl => set_rows rushing_stats_T [] t
  | receiving_stats_tbl => set_rows receiving_stats_T [] t
  | fumbles_stats_tbl => set_rows fumbles_stats_T [] t
  | defensive_stats_tbl => set_rows defensive_stats_T [] t
  | interceptions_stats_tbl => set_rows interceptions_stats_T [] t
  end.

Definition delete_from (n : TableName) : M unit :=
  statement (DELETE n) ;;
  t <- get_pending ;;
  set_pending (clear_table n t).

(** [not xs] for a list *)
Definition is_empty {A} (xs : list A) : bool :=
  match xs with [] => true | _ => false end.

(* ================================================================= *)
(** ** database_connector: the six insert functions

    [_field(s, name)] is the record projection; the numeric fields of a
    dataclass instance are [Optional[int]], those of a fetched row are
    [int] or NULL.  Opening and closing the cursor leave no trace in the
    model. *)

Definition insert_passing_stats (passing_stats : list PassingStats) : M Z :=
  if is_empty passing_stats then ret 0
  else
    try_except
      (processed <-
         for_each passing_stats 0 (fun processed s =>
           match Passing.player_id s with
           | None => ret processed
           | Some pid =>
               let team_id := Passing.team_id s in
               let team_name := Passing.team_name s in
               let player_name := Passing.player_name s in
               let headshot := Passing.player_headshot_url s in
               let completions_attempts := Passing.completions_attempts s in
               let p_yards := _int_or_zero (int_val (Passing.passing_yards s)) in
               let p_tds := _int_or_zero (int_val (Passing.passing_touchdowns s)) in
               let ints := _int_or_zero (int_val (Passing.interceptions s)) in
               let sacks := _int_or_zero (int_val (Passing.sacks s)) in
               row <- select_one passing_stats_T pid ;;
               match row with
               | Some row =>
                   let existing_p_yards := _int_or_zero (int_val (Passing.passing_yards row)) in
                   let existing_p_tds := _int_or_zero (int_val (Passing.passing_touchdowns row)) in
                   let existing_ints := _int_or_zero (int_val (Passing.interceptions row)) in
                   let existing_sacks := _int_or_zero (int_val (Passing.sacks row)) in
                   let existing_comps := Passing.completions_attempts row in
                   let new_p_yards := existing_p_yards + p_yards in
                   let new_p_tds := existing_p_tds + p_tds in
                   let new_ints := existing_ints + ints in
                   let new_sacks := existing_sacks + sacks in
                   let comps_to_set := _merge_completions existing_comps completions_attempts in
                   update_where passing_stats_T pid (fun old =>
                     Passing.mk team_id team_name (Passing.player_id old) player_name headshot
                       comps_to_set (Some new_p_yards) (Some new_p_tds)
                       (Some new_ints) (Some new_sacks))
               | None =>
                   insert_into passing_stats_T pid
                     (Passing.mk team_id team_name (Some pid) player_name headshot
                        completions_attempts (Some p_yards) (Some p_tds)
                        (Some ints) (Some sacks))
               end ;;
               ret (processed + 1)
           end) ;;
       commit ;;
       ret processed)
      (fun e => rollback ;; raise e).

Definition insert_rushing_stats (rushing_stats : list RushingStats) : M Z :=
  if is_empty rushing_stats then ret 0
  else
    try_except
      (processed <-
         for_each rushing_stats 0 (fun processed s =>
           match Rushing.player_id s with
           | None => ret processed
           | Some pid =>
               let team_id := Rushing.team_id s in
               let team_name := Rushing.team_name s in
               let player_name := Rushing.player_name s in
               let headshot := Rushing.player_headshot_url s in
               let attempts := _int_or_zero (int_val (Rushing.rushing_attempts s)) in
               let yards := _int_or_zero (int_val (Rushing.rushing_yards s)) in
               let tds := _int_or_zero (int_val (Rushing.rushing_touchdowns s)) in
               let longest := _to_int (int_val (Rushing.longest_run s)) in
               row <- select_one rushing_stats_T pid ;;
               match row with
               | Some row =>
                   let existing_attempts := _int_or_zero (int_val (Rushing.rushing_attempts row)) in
                   let existing_yards := _int_or_zero (int_val (Rushing.rushing_yards row)) in
                   let existing_tds := _int_or_zero (int_val (Rushing.rushing_touchdowns row)) in
                   let existing_longest := py_or (_to_int (int_val (Rushing.longest_run row))) 0 in
                   let new_attempts := existing_attempts + attempts in
                   let new_yards := existing_yards + yards in
                   let new_tds := existing_tds + tds in
                   let new_longest := Z.max existing_longest (py_or longest 0) in
                   update_where rushing_stats_T pid (fun old =>
                     Rushing.mk team_id team_name (Rushing.player_id old) player_name headshot
                       (Some new_attempts) (Some new_yards) (Some new_tds) (Some new_longest))
               | None =>
                   insert_into rushing_stats_T pid
                     (Rushing.mk team_id team_name (Some pid) player_name headshot
                        (Some attempts) (Some yards) (Some tds) longest)
               end ;;
               ret (processed + 1)
           end) ;;
       commit ;;
       ret processed)
      (fun e => rollback ;; raise e).

Definition insert_receiving_stats (receiving_stats : list ReceivingStats) : M Z :=
  if is_empty receiving_stats then ret 0
  else
    try_except
      (processed <-
         for_each receiving_stats 0 (fun processed s =>
           match Receiving.player_id s with
           | None => ret processed
           | Some pid =>
               let team_id := Receiving.team_id s in
               let team_name := Receiving.team_name s in
               let player_name := Receiving.player_name s in
               let headshot := Receiving.player_headshot_url s in
               let receptions := _int_or_zero (int_val (Receiving.receptions s)) in
               let yards := _int_or_zero (int_val (Receiving.receiving_yards s)) in
               let tds := _int_or_zero (int_val (Receiving.receiving_touchdowns s)) in
               let longest := _to_int (int_val (Receiving.longest_reception s)) in
               let targets := _int_or_zero (int_val (Receiving.targets s)) in
               row <- select_one receiving_stats_T pid ;;
               match row with
               | Some row =>
                   let existing_recs := _int_or_zero (int_val (Receiving.receptions row)) in
                   let existing_yards := _int_or_zero (int_val (Receiving.receiving_yards row)) in
                   let existing_tds := _int_or_zero (int_val (Receiving.receiving_touchdowns row)) in
                   let existing_longest := py_or (_to_int (int_val (Receiving.longest_reception row))) 0 in
                   let existing_targets := _int_or_zero (int_val (Receiving.targets row)) in
                   let new_recs := existing_recs + receptions in
                   let new_yards := existing_yards + yards in
                   let new_tds := existing_tds + tds in
                   let new_longest := Z.max existing_longest (py_or longest 0) in
                   let new_targets := existing_targets + targets in
                   update_where receiving_stats_T pid (fun old =>
                     Receiving.mk team_id team_name (Receiving.player_id old) player_name headshot
                       (Some new_recs) (Some new_yards) (Some new_tds)
                       (Some new_longest) (Some new_targets))
               | None =>
                   insert_into receiving_stats_T pid
                     (Receiving.mk team_id team_name (Some pid) player_name headshot
                        (Some receptions) (Some yards) (Some tds) longest (Some targets))
               end ;;
               ret (processed + 1)
           end) ;;
       commit ;;
       ret processed)
      (fun e => rollback ;; raise e).

Definition insert_fumbles_stats (fumbles_stats : list FumblesStats) : M Z :=
  if is_empty fumbles_stats then ret 0
  else
    try_except
      (processed <-
         for_each fumbles_stats 0 (fun processed s =>
           match Fumbles.player_id s with
           | None => ret processed
           | Some pid =>
               let team_id := Fumbles.team_id s in
               let team_name := Fumbles.team_name s in
               let player_name := Fumbles.player_name s in
               let headshot := Fumbles.player_headshot_url s in
               let fumbles := _int_or_zero (int_val (Fumbles.fumbles s)) in
               let lost := _int_or_zero (int_val (Fumbles.fumbles_lost s)) in
               let recovered := _int_or_zero (int_val (Fumbles.fumbles_recovered s)) in
               row <- select_one fumbles_stats_T pid ;;
               match row with
               | Some row =>
                   let existing_fumbles := _int_or_zero (int_val (Fumbles.fumbles row)) in
                   let existing_lost := _int_or_zero (int_val (Fumbles.fumbles_lost row)) in
                   let existing_recovered := _int_or_zero (int_val (Fumbles.fumbles_recovered row)) in
                   let new_fumbles := existing_fumbles + fumbles in
                   let new_lost := existing_lost + lost in
                   let new_recovered := existing_recovered + recovered in
                   update_where fumbles_stats_T pid (fun old =>
                     Fumbles.mk team_id team_name (Fumbles.player_id old) player_name headshot
                       (Some new_fumbles) (Some new_lost) (Some new_recovered))
               | None =>
                   insert_into fumbles_stats_T pid
                     (Fumbles.mk team_id team_name (Some pid) player_name headshot
                        (Some fumbles) (Some lost) (Some recovered))
               end ;;
               ret (processed + 1)
           end) ;;
       commit ;;
       ret processed)
      (fun e => rollback ;; raise e).

Definition insert_defensive_stats (defensive_stats : list DefensiveStats) : M Z :=
  if is_empty defensive_stats then ret 0
  else
    try_except
      (processed <-
         for_each defensive_stats 0 (fun processed s =>
           match Defensive.player_id s with
           | None => ret processed
           | Some pid =>
               let team_id := Defensive.team_id s in
               let team_name := Defensive.team_name s in
               let player_name := Defensive.player_name s in
               let headshot := Defensive.player_headshot_url s in
               let total_tackles := _int_or_zero (int_val (Defensive.total_tackles s)) in
               let solo_tackles := _int_or_zero (int_val (Defensive.solo_tackles s)) in
               let sacks := _int_or_zero (int_val (Defensive.sacks s)) in
               let tfl := _int_or_zero (int_val (Defensive.tackles_for_loss s)) in
               let passes_def := _int_or_zero (int_val (Defensive.passes_defended s)) in
               let qb_hits := _int_or_zero (int_val (Defensive.qb_hits s)) in
               let def_tds := _int_or_zero (int_val (Defensive.defensive_touchdowns s)) in
               row <- select_one defensive_stats_T pid ;;
               match row with
               | Some row =>
                   let existing_total := _int_or_zero (int_val (Defensive.total_tackles row)) in
                   let existing_solo := _int_or_zero (int_val (Defensive.solo_tackles row)) in
                   let existing_sacks := _int_or_zero (int_val (Defensive.sacks row)) in
                   let existing_tfl := _int_or_zero (int_val (Defensive.tackles_for_loss row)) in
                   let existing_passes := _int_or_zero (int_val (Defensive.passes_defended row)) in
                   let existing_qb_hits := _int_or_zero (int_val (Defensive.qb_hits row)) in
                   let existing_def_tds := _int_or_zero (int_val (Defensive.defensive_touchdowns row)) in
                   let new_total := existing_total + total_tackles in
                   let new_solo := existing_solo + solo_tackles in
                   let new_sacks := existing_sacks + sacks in
                   let new_tfl := existing_tfl + tfl in
                   let new_passes := existing_passes + passes_def in
                   let new_qb_hits := existing_qb_hits + qb_hits in
                   let new_def_tds := existing_def_tds + def_tds in
                   update_where defensive_stats_T pid (fun old =>
                     Defensive.mk team_id team_name (Defensive.player_id old) player_name headshot
                       (Some new_total) (Some new_solo) (Some new_sacks) (Some new_tfl)
                       (Some new_passes) (Some new_qb_hits) (Some new_def_tds))
               | None =>
                   insert_into defensive_stats_T pid
                     (Defensive.mk team_id team_name (Some pid) player_name headshot
                        (Some total_tackles) (Some solo_tackles) (Some sacks) (Some tfl)
                        (Some passes_def) (Some qb_hits) (Some def_tds))
               end ;;
               ret (processed + 1)
           end) ;;
       commit ;;
       ret processed)
      (fun e => rollback ;; raise e).

Definition insert_interceptions_stats (interceptions_stats : list InterceptionsStats) : M Z :=
  if is_empty interceptions_stats then ret 0
  else
    try_except
      (processed <-
         for_each interceptions_stats 0 (fun processed s =>
           match Interceptions.player_id s with
           | None => ret processed
           | Some pid =>
               let team_id := Interceptions.team_id s in
               let team_name := Interceptions.team_name s in
               let player_name := Interceptions.player_name s in
               let headshot := Interceptions.player_headshot_url s in
               let ints := _int_or_zero (int_val (Interceptions.interceptions s)) in
               let yards := _int_or_zero (int_val (Interceptions.interception_yards s)) in
               let tds := _int_or_zero (int_val (Interceptions.interception_touchdowns s)) in
               row <- select_one interceptions_stats_T pid ;;
               match row with
               | Some row =>
                   let existing_ints := _int_or_zero (int_val (Interceptions.interceptions row)) in
                   let existing_yards := _int_or_zero (int_val (Interceptions.interception_yards row)) in
                   let existing_tds := _int_or_zero (int_val (Interceptions.interception_touchdowns row)) in
                   let new_ints := existing_ints + ints in
                   let new_yards := existing_yards + yards in
                   let new_tds := existing_tds + tds in
                   update_where interceptions_stats_T pid (fun old =>
                     Interceptions.mk team_id team_name (Interceptions.player_id old) player_name headshot
                       (Some new_ints) (Some new_yards) (Some new_tds))
               | None =>
                   insert_into interceptions_stats_T pid
                     (Interceptions.mk team_id team_name (Some pid) player_name headshot
                        (Some ints) (Some yards) (Some tds))
               end ;;
               ret (processed + 1)
           end) ;;
       commit ;;
       ret processed)
      (fun e => rollback ;; raise e).

(** The list of six lists returned by [get_player_stats]. *)
Record PlayerStats : Type := mkPlayerStats {
  passing_stats_list : list PassingStats;
  rushing_stats_list : list RushingStats;
  receiving_stats_list : list ReceivingStats;
  fumbles_stats_list : list FumblesStats;
  defensive_stats_list : list DefensiveStats;
  interceptions_stats_list : list InterceptionsStats }.

(** [player_stats] is a list of six lists, hence truthy and a [list]: the
    early return of the source is never taken.  [player_stats[i] or []] is
    the i-th list. *)
Definition insert_all_player_stats (player_stats : PlayerStats) : M Counts :=
  try_except
    (r_passing <- insert_passing_stats (passing_stats_list player_stats) ;;
     r_rushing <- insert_rushing_stats (rushing_stats_list player_stats) ;;
     r_receiving <- insert_receiving_stats (receiving_stats_list player_stats) ;;
     r_fumbles <- insert_fumbles_stats (fumbles_stats_list player_stats) ;;
     r_defensive <- insert_defensive_stats (defensive_stats_list player_stats) ;;
     r_interceptions <- insert_interceptions_stats (interceptions_stats_list player_stats) ;;
     ret (mkCounts r_passing r_rushing r_receiving r_fumbles r_defensive r_interceptions))
    (fun e => rollback ;; raise e).

Definition wipe_all_stats_tables : M unit :=
  try_except
    (let tables := [passing_stats_tbl; rushing_stats_tbl; receiving_stats_tbl;
                    fumbles_stats_tbl; defensive_stats_tbl; interceptions_stats_tbl] in
     for_each tables tt (fun _ table => delete_from table) ;;
     commit)
    (fun e => rollback ;; raise e).

(* ================================================================= *)
(** ** espn_schedule_scraper: normalisation and extraction *)

(** Pure code that may raise. *)
Definition rbind {A B} (m : result A) (k : A -> result B) : result B :=
  match m with
  | Ok a => k a
  | Raise e => Raise e
  end.

Declare Scope result_scope.
Delimit Scope result_scope with res.
Notation "x <- m ;; k" := (rbind m (fun x => k))
  (at level 61, m at next level, right associativity) : result_scope.

Fixpoint rfold {A S} (xs : list A) (acc : S) (body : S -> A -> result S) : result S :=
  match xs with
  | [] => Ok acc
  | x :: r => (acc' <- body acc x ;; rfold r acc' body)%res
  end.

(** [_parse_int].  Only [ValueError] is caught around [int(float(v))]: the
    [OverflowError] of an infinite float escapes. *)
Definition _parse_int (value : pyval) : result (option Z) :=
  match value with
  | PyNone => Ok None
  | PyInt n => Ok (Some n)
  | PyStr value =>
      let v := PyStr.strip value in
      if PyStr.contains "-"%char v || PyStr.contains "/"%char v then Ok None
      else
        let v := PyStr.remove_char ","%char v in
        match PyStr.float v with
        | None => Ok None
        | Some x =>
            match PyStr.int_of_float x with
            | Ok n => Ok (Some n)
            | Raise (ValueError _) => Ok None
            | Raise e => Raise e
            end
        end
  end.

Definition _safe_stat (stats : list pyval) (idx : nat) : result (option Z) :=
  match nth_error stats idx with
  | None => Ok None
  | Some raw => _parse_int raw
  end.

(** The part of a game summary document that [get_player_stats] reads:
    [boxscore.players[*].team], [.statistics[*].name] and [.athletes[*]]
    with [athlete.id], [athlete.displayName], [athlete.headshot.href] and
    the positional [stats] array ([None] when the key is missing). *)
Module Payload.
Record Athlete : Type := mkAthlete {
  id : option Z;
  displayName : option string;
  headshot_href : option string;
  stats : option (list pyval) }.
Record StatGroup : Type := mkStatGroup {
  name : option string;
  athletes : list Athlete }.
Record Player : Type := mkPlayer {
  team_id : option Z;
  team_displayName : option string;
  statistics : list StatGroup }.
Record GameJson : Type := mkGameJson {
  boxscore_players : list Player }.
End Payload.

(** [athlete.get("stats", [])] *)
Definition stats_or_empty (a : Payload.Athlete) : list pyval :=
  match Payload.stats a with Some l => l | None => [] end.

(** [athlete.get("stats", [None])[0]] *)
Definition first_stat (a : Payload.Athlete) : result pyval :=
  match Payload.stats a with
  | None => Ok PyNone
  | Some [] => Raise IndexError
  | Some (x :: _) => Ok x
  end.

Definition passing_of_athlete (team_id : option Z) (team_name : option string)
    (athlete : Payload.Athlete) : result PassingStats :=
  (let athlete_id := Payload.id athlete in
   let athlete_name := Payload.displayName athlete in
   let headshot_url := Payload.headshot_href athlete in
   let stats := stats_or_empty athlete in
   completions_attempts_raw <- _safe_stat stats 0 ;;
   completions_attempts <- first_stat athlete ;;
   let completions_attempts_str :=
     match completions_attempts with
     | PyStr s =>
         if PyStr.contains "-"%char s then Some s
         else Some s                          (* str(s) of a str *)
     | PyNone => None
     | PyInt n => Some (PyStr.str n)
     end in
   passing_yards <- _safe_stat stats 1 ;;
   passing_touchdowns <- _safe_stat stats 3 ;;
   interceptions <- _safe_stat stats 4 ;;
   sacks <- _safe_stat stats 5 ;;
   Ok (Passing.mk team_id team_name athlete_id athlete_name headshot_url
         completions_attempts_str passing_yards passing_touchdowns interceptions sacks))%res.

Definition rushing_of_athlete (team_id : option Z) (team_name : option string)
    (athlete : Payload.Athlete) : result RushingStats :=
  (let stats := stats_or_empty athlete in
   rushing_attempts <- _safe_stat stats 0 ;;
   rushing_yards <- _safe_stat stats 1 ;;
   rushing_touchdowns <- _safe_stat stats 3 ;;
   longest_run <- _safe_stat stats 4 ;;
   Ok (Rushing.mk team_id team_name (Payload.id athlete) (Payload.displayName athlete)
         (Payload.headshot_href athlete)
         rushing_attempts rushing_yards rushing_touchdowns longest_run))%res.

Definition receiving_of_athlete (team_id : option Z) (team_name : option string)
    (athlete : Payload.Athlete) : result ReceivingStats :=
  (let stats := stats_or_empty athlete in
   receptions <- _safe_stat stats 0 ;;
   receiving_yards <- _safe_stat stats 1 ;;
   receiving_touchdowns <- _safe_stat stats 3 ;;
   longest_reception <- _safe_stat stats 4 ;;
   targets <- _safe_stat stats 5 ;;
   Ok (Receiving.mk team_id team_name (Payload.id athlete) (Payload.displayName athlete)
         (Payload.headshot_href athlete)
         receptions receiving_yards receiving_touchdowns longest_reception targets))%res.

Definition fumbles_of_athlete (team_id : option Z) (team_name : option string)
    (athlete : Payload.Athlete) : result FumblesStats :=
  (let stats := stats_or_empty athlete in
   fumbles <- _safe_stat stats 0 ;;
   fumbles_lost <- _safe_stat stats 1 ;;
   fumbles_recovered <- _safe_stat stats 2 ;;
   Ok (Fumbles.mk team_id team_name (Payload.id athlete) (Payload.displayName athlete)
         (Payload.headshot_href athlete)
         fumbles fumbles_lost fumbles_recovered))%res.

Definition defensive_of_athlete (team_id : option Z) (team_name : option string)
    (athlete : Payload.Athlete) : result DefensiveStats :=
  (let stats := stats_or_empty athlete in
   total_tackles <- _safe_stat stats 0 ;;
   solo_tackles <- _safe_stat stats 1 ;;
   sacks <- _safe_stat stats 2 ;;
   tackles_for_loss <- _safe_stat stats 3 ;;
   passes_defended <- _safe_stat stats 4 ;;
   qb_hits <- _safe_stat stats 5 ;;
   defensive_touchdowns <- _safe_stat stats 6 ;;
   Ok (Defensive.mk team_id team_name (Payload.id athlete) (Payload.displayName athlete)
         (Payload.headshot_href athlete)
         total_tackles solo_tackles sacks tackles_for_loss passes_defended qb_hits
         defensive_touchdowns))%res.

Definition interceptions_of_athlete (team_id : option Z) (team_name : option string)
    (athlete : Payload.Athlete) : result InterceptionsStats :=
  (let stats := stats_or_empty athlete in
   interceptions <- _safe_stat stats 0 ;;
   interception_yards <- _safe_stat stats 1 ;;
   interception_touchdowns <- _safe_stat stats 2 ;;
   Ok (Interceptions.mk team_id team_name (Payload.id athlete) (Payload.displayName athlete)
         (Payload.headshot_href athlete)
         interceptions interception_yards interception_touchdowns))%res.

Definition name_is (g : Payload.StatGroup) (n : string) : bool :=
  match Payload.name g with
  | Some m => String.eqb m n
  | None => false
  end.

(** The body of [get_player_stats] after the fetch: the three nested loops
    appending to the six lists. *)
Definition extract_player_stats (data : Payload.GameJson) : result PlayerStats :=
  rfold (Payload.boxscore_players data) (mkPlayerStats [] [] [] [] [] [])
    (fun acc player =>
       let team_id := Payload.team_id player in
       let team_name := Payload.team_displayName player in
       rfold (Payload.statistics player) acc (fun acc stat_group =>
         if name_is stat_group "passing" then
           rfold (Payload.athletes stat_group) acc (fun acc athlete =>
             (r <- passing_of_athlete team_id team_name athlete ;;
              Ok (mkPlayerStats (passing_stats_list acc ++ [r]) (rushing_stats_list acc)
                    (receiving_stats_list acc) (fumbles_stats_list acc)
                    (defensive_stats_list acc) (interceptions_stats_list acc)))%res)
         else if name_is stat_group "rushing" then
           rfold (Payload.athletes stat_group) acc (fun acc athlete =>
             (r <- rushing_of_athlete team_id team_name athlete ;;
              Ok (mkPlayerStats (passing_stats_list acc) (rushing_stats_list acc ++ [r])
                    (receiving_stats_list acc) (fumbles_stats_list acc)
                    (defensive_stats_list acc) (interceptions_stats_list acc)))%res)
         else if name_is stat_group "receiving" then
           rfold (Payload.athletes stat_group) acc (fun acc athlete =>
             (r <- receiving_of_athlete team_id team_name athlete ;;
              Ok (mkPlayerStats (passing_stats_list acc) (rushing_stats_list acc)
                    (receiving_stats_list acc ++ [r]) (fumbles_stats_list acc)
                    (defensive_stats_list acc) (interceptions_stats_list acc)))%res)
         else if name_is stat_group "fumbles" then
           rfold (Payload.athletes stat_group) acc (fun acc athlete =>
             (r <- fumbles_of_athlete team_id team_name athlete ;;
              Ok (mkPlayerStats (passing_stats_list acc) (rushing_stats_list acc)
                    (receiving_stats_list acc) (fumbles_stats_list acc ++ [r])
                    (defensive_stats_list acc) (interceptions_stats_list acc)))%res)
         else if name_is stat_group "defensive" then
           rfold (Payload.athletes stat_group) acc (fun acc athlete =>
             (r <- defensive_of_athlete team_id team_name athlete ;;
              Ok (mkPlayerStats (passing_stats_list acc) (rushing_stats_list acc)
                    (receiving_stats_list acc) (fumbles_stats_list acc)
                    (defensive_stats_list acc ++ [r]) (interceptions_stats_list acc)))%res)
         else if name_is stat_group "interceptions" then
           rfold (Payload.athletes stat_group) acc (fun acc athlete =>
             (r <- interceptions_of_athlete team_id team_name athlete ;;
              Ok (mkPlayerStats (passing_stats_list acc) (rushing_stats_list acc)
                    (receiving_stats_list acc) (fumbles_stats_list acc)
                    (defensive_stats_list acc) (interceptions_stats_list acc ++ [r])))%res)
         else Ok acc)).

(* ================================================================= *)
(** ** espn_schedule_scraper: the season compiler

    The remote source is a collaborator: what the schedule page lists for a
    week and what the summary endpoint answers for a game are given by a
    [Feed].  Each request is logged in the trace. *)

Record Feed : Type := mkFeed {
  schedule_page : Z -> Z -> Z -> result (list string);
  summary_json : string -> result Payload.GameJson }.

Definition lift {A} (r : result A) : M A := fun w => (r, w).

(** [range(lo, hi)] *)
Definition py_range (lo hi : Z) : list Z :=
  map (fun i => lo + Z.of_nat i) (seq 0 (Z.to_nat (hi - lo))).

(** [x in xs] for ints *)
Definition py_in (x : Z) (xs : list Z) : bool := existsb (Z.eqb x) xs.

(** [int(s)] as a statement: raises [ValueError] on a malformed literal. *)
Definition int_of_str (s : string) : M Z :=
  match PyStr.int s with
  | Some n => ret n
  | None => raise (ValueError ("invalid literal for int() with base 10: '" ++ s ++ "'"))
  end.

Section Compiler.

Variable feed : Feed.

Definition get_game_ids (season week season_type : Z) : M (list string) :=
  emit (Http (GetSchedule season week season_type)) ;;
  lift (schedule_page feed season week season_type).

Definition get_game_json (game_id : string) : M Payload.GameJson :=
  emit (Http (GetSummary game_id)) ;;
  lift (summary_json feed game_id).

Definition get_player_stats (game_id : Z) : M PlayerStats :=
  data <- get_game_json (PyStr.str game_id) ;;
  lift (extract_player_stats data).

Definition compile_season_stats (season end_week season_type : Z) : M unit :=
  if end_week <? 1 then
    raise (ValueError "end_week must be an integer >= 1")
  else if negb (py_in season_type [1; 2; 3]) then
    raise (ValueError "season_type must be 1 (preseason), 2 (regular season), or 3 (playoffs)")
  else if (season_type =? 1) && (4 <? end_week) then
    raise (ValueError "Preseason (season_type=1) only has weeks 1-4")
  else if (season_type =? 2) && (18 <? end_week) then
    raise (ValueError "Regular Season (season_type=2) only has weeks 1-18")
  else if (season_type =? 3) && (4 <? end_week) then
    raise (ValueError "Playoffs (season_type=3) only has weeks 1-4")
  else
    let season_type_str :=
      if season_type =? 1 then "Preseason"%string
      else if season_type =? 2 then "Regular Season"%string
      else "Playoffs"%string in
    print (MsgCompiling season end_week season_type_str) ;;
    wipe_all_stats_tables ;;
    for_each (py_range 1 (end_week + 1)) tt (fun _ week =>
      print (MsgWeek week end_week) ;;
      game_ids <- get_game_ids season week season_type ;;
      print (MsgFound (List.length game_ids) season week season_type_str) ;;
      for_each game_ids tt (fun _ game_id =>
        print (MsgGame game_id week) ;;
        try_except
          (n <- int_of_str game_id ;;
           stats <- get_player_stats n ;;
           inserted <- insert_all_player_stats stats ;;
           print (MsgInserted inserted))
          (fun e => print (MsgWarning game_id week e)))) ;;
    print (MsgCompleted season end_week season_type_str).

End Compiler.

(** The bodies of the two loops of [compile_season_stats] and the guarded
    part of the inner one, named so that statements about one game or one
    week can be made. *)
Definition attempt_game (feed : Feed) (game_id : string) : M unit :=
  n <- int_of_str game_id ;;
  stats <- get_player_stats feed n ;;
  inserted <- insert_all_player_stats stats ;;
  print (MsgInserted inserted).

Definition process_game (feed : Feed) (week : Z) (game_id : string) : M unit :=
  print (MsgGame game_id week) ;;
  try_except
    (attempt_game feed game_id)
    (fun e => print (MsgWarning game_id week e)).

Definition process_week (feed : Feed) (season end_week season_type : Z)
    (season_type_str : string) (week : Z) : M unit :=
  print (MsgWeek week end_week) ;;
  game_ids <- get_game_ids feed season week season_type ;;
  print (MsgFound (List.length game_ids) season week season_type_str) ;;
  for_each game_ids tt (fun _ game_id => process_game feed week game_id).

(* ================================================================= *)
(** ** The common shape of the six insert functions

    The six functions differ only in the table they address and in the
    column values they write: [merged row s old] are the values an UPDATE
    gives to the row [old] when the SELECT returned [row] and the incoming
    record is [s]; [fresh pid s] is the row an INSERT creates. *)

Section Upsert.

Context {R : Type}.
Variable T : Table R.
Variable merged : R -> R -> R -> R.
Variable fresh : Z -> R -> R.

Definition upsert_one (processed : Z) (s : R) : M Z :=
  match row_player_id T s with
  | None => ret processed
  | Some pid =>
      row <- select_one T pid ;;
      match row with
      | Some row => update_where T pid (merged row s)
      | None => insert_into T pid (fresh pid s)
      end ;;
      ret (processed + 1)
  end.

Definition upsert_nonempty (rs : list R) : M Z :=
  try_except
    (processed <- for_each rs 0 upsert_one ;;
     commit ;;
     ret processed)
    (fun e => rollback ;; raise e).

Definition upsert (rs : list R) : M Z :=
  if is_empty rs then ret 0 else upsert_nonempty rs.

(** What one record does to the rows of the table when no statement fails. *)
Definition merge_into (t : list R) (s : R) : list R :=
  match row_player_id T s with
  | None => t
  | Some pid =>
      match find (has_player_id T pid) t with
      | Some row => map (fun r => if has_player_id T pid r then merged row s r else r) t
      | None => t ++ [fresh pid s]
      end
  end.

Definition merge_all (t : list R) (rs : list R) : list R :=
  fold_left merge_into rs t.

(** The same, seen from one player's aggregate. *)
Definition merge_opt (pid : Z) (cur : option R) (s : R) : option R :=
  match cur with
  | Some row => Some (merged row s row)
  | None => Some (fresh pid s)
  end.

(** The records of a batch that carry a player id. *)
Definition with_player_id (rs : list R) : list R :=
  filter (fun s => negb (is_None (row_player_id T s))) rs.

(** The records of a batch that are for player [pid]. *)
Definition records_for (pid : Z) (rs : list R) : list R :=
  filter (has_player_id T pid) rs.

(** The stored aggregate of player [pid]. *)
Definition stored (pid : Z) (w : World) : option R :=
  find (has_player_id T pid) (rows T (committed w)).

Definition apply_batch (rs : list R) (t : Tables) : Tables :=
  set_rows T (merge_all (rows T t) rs) t.

End Upsert.

Definition passing_merged (row s old : PassingStats) : PassingStats :=
  Passing.mk (Passing.team_id s) (Passing.team_name s) (Passing.player_id old)
    (Passing.player_name s) (Passing.player_headshot_url s)
    (_merge_completions (Passing.completions_attempts row) (Passing.completions_attempts s))
    (Some (_int_or_zero (int_val (Passing.passing_yards row))
           + _int_or_zero (int_val (Passing.passing_yards s))))
    (Some (_int_or_zero (int_val (Passing.passing_touchdowns row))
           + _int_or_zero (int_val (Passing.passing_touchdowns s))))
    (Some (_int_or_zero (int_val (Passing.interceptions row))
           + _int_or_zero (int_val (Passing.interceptions s))))
    (Some (_int_or_zero (int_val (Passing.sacks row))
           + _int_or_zero (int_val (Passing.sacks s)))).

Definition passing_fresh (pid : Z) (s : PassingStats) : PassingStats :=
  Passing.mk (Passing.team_id s) (Passing.team_name s) (Some pid)
    (Passing.player_name s) (Passing.player_headshot_url s)
    (Passing.completions_attempts s)
    (Some (_int_or_zero (int_val (Passing.passing_yards s))))
    (Some (_int_or_zero (int_val (Passing.passing_touchdowns s))))
    (Some (_int_or_zero (int_val (Passing.interceptions s))))
    (Some (_int_or_zero (int_val (Passing.sacks s)))).

Definition rushing_merged (row s old : RushingStats) : RushingStats :=
  Rushing.mk (Rushing.team_id s) (Rushing.team_name s) (Rushing.player_id old)
    (Rushing.player_name s) (Rushing.player_headshot_url s)
    (Some (_int_or_zero (int_val (Rushing.rushing_attempts row))
           + _int_or_zero (int_val (Rushing.rushing_attempts s))))
    (Some (_int_or_zero (int_val (Rushing.rushing_yards row))
           + _int_or_zero (int_val (Rushing.rushing_yards s))))
    (Some (_int_or_zero (int_val (Rushing.rushing_touchdowns row))
           + _int_or_zero (int_val (Rushing.rushing_touchdowns s))))
    (Some (Z.max (py_or (_to_int (int_val (Rushing.longest_run row))) 0)
                 (py_or (_to_int (int_val (Rushing.longest_run s))) 0))).

Definition rushing_fresh (pid : Z) (s : RushingStats) : RushingStats :=
  Rushing.mk (Rushing.team_id s) (Rushing.team_name s) (Some pid)
    (Rushing.player_name s) (Rushing.player_headshot_url s)
    (Some (_int_or_zero (int_val (Rushing.rushing_attempts s))))
    (Some (_int_or_zero (int_val (Rushing.rushing_yards s))))
    (Some (_int_or_zero (int_val (Rushing.rushing_touchdowns s))))
    (_to_int (int_val (Rushing.longest_run s))).

Definition receiving_merged (row s old : ReceivingStats) : ReceivingStats :=
  Receiving.mk (Receiving.team_id s) (Receiving.team_name s) (Receiving.player_id old)
    (Receiving.player_name s) (Receiving.player_headshot_url s)
    (Some (_int_or_zero (int_val (Receiving.receptions row))
           + _int_or_zero (int_val (Receiving.receptions s))))
    (Some (_int_or_zero (int_val (Receiving.receiving_yards row))
           + _int_or_zero (int_val (Receiving.receiving_yards s))))
    (Some (_int_or_zero (int_val (Receiving.receiving_touchdowns row))
           + _int_or_zero (int_val (Receiving.receiving_touchdowns s))))
    (Some (Z.max (py_or (_to_int (int_val (Receiving.longest_reception row))) 0)
                 (py_or (_to_int (int_val (Receiving.longest_reception s))) 0)))
    (Some (_int_or_zero (int_val (Receiving.targets row))
           + _int_or_zero (int_val (Receiving.targets s)))).

Definition receiving_fresh (pid : Z) (s : ReceivingStats) : ReceivingStats :=
  Receiving.mk (Receiving.team_id s) (Receiving.team_name s) (Some pid)
    (Receiving.player_name s) (Receiving.player_headshot_url s)
    (Some (_int_or_zero (int_val (Receiving.receptions s))))
    (Some (_int_or_zero (int_val (Receiving.receiving_yards s))))
    (Some (_int_or_zero (int_val (Receiving.receiving_touchdowns s))))
    (_to_int (int_val (Receiving.longest_reception s)))
    (Some (_int_or_zero (int_val (Receiving.targets s)))).

Definition fumbles_merged (row s old : FumblesStats) : FumblesStats :=
  Fumbles.mk (Fumbles.team_id s) (Fumbles.team_name s) (Fumbles.player_id old)
    (Fumbles.player_name s) (Fumbles.player_headshot_url s)
    (Some (_int_or_zero (int_val (Fumbles.fumbles row))
           + _int_or_zero (int_val (Fumbles.fumbles s))))
    (Some (_int_or_zero (int_val (Fumbles.fumbles_lost row))
           + _int_or_zero (int_val (Fumbles.fumbles_lost s))))
    (Some (_int_or_zero (int_val (Fumbles.fumbles_recovered row))
           + _int_or_zero (int_val (Fumbles.fumbles_recovered s)))).

Definition fumbles_fresh (pid : Z) (s : FumblesStats) : FumblesStats :=
  Fumbles.mk (Fumbles.team_id s) (Fumbles.team_name s) (Some pid)
    (Fumbles.player_name s) (Fumbles.player_headshot_url s)
    (Some (_int_or_zero (int_val (Fumbles.fumbles s))))
    (Some (_int_or_zero (int_val (Fumbles.fumbles_lost s))))
    (Some (_int_or_zero (int_val (Fumbles.fumbles_recovered s)))).

Definition defensive_merged (row s old : DefensiveStats) : DefensiveStats :=
  Defensive.mk (Defensive.team_id s) (Defensive.team_name s) (Defensive.player_id old)
    (Defensive.player_name s) (Defensive.player_headshot_url s)
    (Some (_int_or_zero (int_val (Defensive.total_tackles row))
           + _int_or_zero (int_val (Defensive.total_tackles s))))
    (Some (_int_or_zero (int_val (Defensive.solo_tackles row))
           + _int_or_zero (int_val (Defensive.solo_tackles s))))
    (Some (_int_or_zero (int_val (Defensive.sacks row))
           + _int_or_zero (int_val (Defensive.sacks s))))
    (Some (_int_or_zero (int_val (Defensive.tackles_for_loss row))
           + _int_or_zero (int_val (Defensive.tackles_for_loss s))))
    (Some (_int_or_zero (int_val (Defensive.passes_defended row))
           + _int_or_zero (int_val (Defensive.passes_defended s))))
    (Some (_int_or_zero (int_val (Defensive.qb_hits row))
           + _int_or_zero (int_val (Defensive.qb_hits s))))
    (Some (_int_or_zero (int_val (Defensive.defensive_touchdowns row))
           + _int_or_zero (int_val (Defensive.defensive_touchdowns s)))).

Definition defensive_fresh (pid : Z) (s : DefensiveStats) : DefensiveStats :=
  Defensive.mk (Defensive.team_id s) (Defensive.team_name s) (Some pid)
    (Defensive.player_name s) (Defensive.player_headshot_url s)
    (Some (_int_or_zero (int_val (Defensive.total_tackles s))))
    (Some (_int_or_zero (int_val (Defensive.solo_tackles s))))
    (Some (_int_or_zero (int_val (Defensive.sacks s))))
    (Some (_int_or_zero (int_val (Defensive.tackles_for_loss s))))
    (Some (_int_or_zero (int_val (Defensive.passes_defended s))))
    (Some (_int_or_zero (int_val (Defensive.qb_hits s))))
    (Some (_int_or_zero (int_val (Defensive.defensive_touchdowns s)))).

Definition interceptions_merged (row s old : InterceptionsStats) : InterceptionsStats :=
  Interceptions.mk (Interceptions.team_id s) (Interceptions.team_name s)
    (Interceptions.player_id old)
    (Interceptions.player_name s) (Interceptions.player_headshot_url s)
    (Some (_int_or_zero (int_val (Interceptions.interceptions row))
           + _int_or_zero (int_val (Interceptions.interceptions s))))
    (Some (_int_or_zero (int_val (Interceptions.interception_yards row))
           + _int_or_zero (int_val (Interceptions.interception_yards s))))
    (Some (_int_or_zero (int_val (Interceptions.interception_touchdowns row))
           + _int_or_zero (int_val (Interceptions.interception_touchdowns s)))).

Definition interceptions_fresh (pid : Z) (s : InterceptionsStats) : InterceptionsStats :=
  Interceptions.mk (Interceptions.team_id s) (Interceptions.team_name s) (Some pid)
    (Interceptions.player_name s) (Interceptions.player_headshot_url s)
    (Some (_int_or_zero (int_val (Interceptions.interceptions s))))
    (Some (_int_or_zero (int_val (Interceptions.interception_yards s))))
    (Some (_int_or_zero (int_val (Interceptions.interception_touchdowns s)))).

(* ================================================================= *)
(** ** Vocabulary of the specification *)

(** A null value counted as zero. *)
Definition null_as_zero (v : option Z) : Z :=
  match v with Some n => n | None => 0 end.

(** [mergeFraction] as the specification words it, on decomposed sides. *)
Definition mergeFraction (existing incoming : option Z * option Z) : option string :=
  let (existingLeft, existingRight) := existing in
  let (incomingLeft, incomingRight) := incoming in
  match existingLeft, existingRight, incomingLeft, incomingRight with
  | None, None, None, None => None
  | _, _, _, _ =>
      let leftSum := null_as_zero existingLeft + null_as_zero incomingLeft in
      match existingRight, incomingRight with
      | None, None => Some (PyStr.str leftSum)
      | _, _ =>
          let rightSum := null_as_zero existingRight + null_as_zero incomingRight in
          Some (PyStr.str leftSum ++ "/" ++ PyStr.str rightSum)%string
      end
  end.

(** The sum of a field over records, nulls counted as zero. *)
Definition total {R} (f : R -> option Z) (rs : list R) : Z :=
  fold_right (fun r acc => null_as_zero (f r) + acc) 0 rs.

(** The maximum of the non-null values; null when there is none. *)
Definition max_excluding_nulls (vs : list (option Z)) : option Z :=
  fold_right
    (fun v acc =>
       match v, acc with
       | Some a, Some b => Some (Z.max a b)
       | Some a, None => Some a
       | None, _ => acc
       end)
    None vs.

(** What the store holds in a [longest_*] column after the values [vs] came
    in, in this order: the value itself after one record, and from the
    second record on the maximum with every null counted as zero. *)
Definition longest_stored (vs : list (option Z)) : option Z :=
  match vs with
  | [] => None
  | [v] => v
  | v :: rest => Some (fold_left Z.max (map null_as_zero rest) (null_as_zero v))
  end.

(** The parameter combinations the entry point rejects. *)
Definition invalid_parameters (seasonType endWeek : Z) : bool :=
  negb (py_in seasonType [1; 2; 3])
  || (endWeek <? 1)
  || ((seasonType =? 1) && (4 <? endWeek))
  || ((seasonType =? 2) && (18 <? endWeek))
  || ((seasonType =? 3) && (4 <? endWeek)).

(** Identity and display fields: team id, team name, player name, headshot. *)
Definition identity_fields : Type :=
  (option Z * option string * option string * option string)%type.

Definition passing_identity (r : PassingStats) : identity_fields :=
  (Passing.team_id r, Passing.team_name r, Passing.player_name r,
   Passing.player_headshot_url r).
Definition rushing_identity (r : RushingStats) : identity_fields :=
  (Rushing.team_id r, Rushing.team_name r, Rushing.player_name r,
   Rushing.player_headshot_url r).
Definition receiving_identity (r : ReceivingStats) : identity_fields :=
  (Receiving.team_id r, Receiving.team_name r, Receiving.player_name r,
   Receiving.player_headshot_url r).
Definition fumbles_identity (r : FumblesStats) : identity_fields :=
  (Fumbles.team_id r, Fumbles.team_name r, Fumbles.player_name r,
   Fumbles.player_headshot_url r).
Definition defensive_identity (r : DefensiveStats) : identity_fields :=
  (Defensive.team_id r, Defensive.team_name r, Defensive.player_name r,
   Defensive.player_headshot_url r).
Definition interceptions_identity (r : InterceptionsStats) : identity_fields :=
  (Interceptions.team_id r, Interceptions.team_name r, Interceptions.player_name r,
   Interceptions.player_headshot_url r).

(** The warnings printed in a trace: game id, week, error. *)
Definition warnings (tr : list Event) : list (string * Z * exn) :=
  flat_map
    (fun ev =>
       match ev with
       | Print (MsgWarning g w e) => [(g, w, e)]
       | _ => []
       end)
    tr.

(** A store right after a successful reset, with no storage failure ahead. *)
Definition reset_world (tr : list Event) : World :=
  mkWorld empty_tables empty_tables [] tr.

(** Successive calls of one insert function, one per batch (one batch per
    game); the state is what matters, results are dropped. *)
Definition run_batches {R} (ins : list R -> M Z) (batches : list (list R)) : M unit :=
  for_each batches tt (fun _ b => ins b ;; ret tt).

(** No uncommitted change is pending. *)
Definition clean (w : World) : Prop := pending w = committed w.

(** The effect of one game's six lists when nothing fails, and of the
    first [k] of them. *)
Definition apply_categories (k : nat) (ps : PlayerStats) (t : Tables) : Tables :=
  let t1 := if (1 <=? k)%nat
            then apply_batch passing_stats_T passing_merged passing_fresh (passing_stats_list ps) t
            else t in
  let t2 := if (2 <=? k)%nat
            then apply_batch rushing_stats_T rushing_merged rushing_fresh (rushing_stats_list ps) t1
            else t1 in
  let t3 := if (3 <=? k)%nat
            then apply_batch receiving_stats_T receiving_merged receiving_fresh (receiving_stats_list ps) t2
            else t2 in
  let t4 := if (4 <=? k)%nat
            then apply_batch fumbles_stats_T fumbles_merged fumbles_fresh (fumbles_stats_list ps) t3
            else t3 in
  let t5 := if (5 <=? k)%nat
            then apply_batch defensive_stats_T defensive_merged defensive_fresh (defensive_stats_list ps) t4
            else t4 in
  if (6 <=? k)%nat
  then apply_batch interceptions_stats_T interceptions_merged interceptions_fresh (interceptions_stats_list ps) t5
  else t5.

(* ================================================================= *)
(** ** Auxiliary notions used in the proofs *)

(** Every character of a string satisfies [P]. *)
Fixpoint all_chars (P : ascii -> bool) (s : string) : bool :=
  match s with
  | EmptyString => true
  | String c r => P c && all_chars P r
  end.

(** The characters [str] writes for an int: digits and the minus sign. *)
Definition is_numeral_char (c : ascii) : bool :=
  PyStr.is_digit c || Ascii.eqb c "-".

(** The world a statement leaves behind, whether it fails or not. *)
Definition after_statement (s : Stmt) (w : World) : World :=
  mkWorld (committed w) (pending w) (tl (faults w)) (trace w ++ [Sql s]).

(** The outcome of one record in the loop of an insert function: nothing
    is committed; a success leaves the pending rows merged and counts the
    record unless its id is null; a failure needs a fault. *)
Definition step_post {R} (T : Table R) (merged : R -> R -> R -> R) (fresh : Z -> R -> R)
    (acc : Z) (rs : list R) (w : World) (out : result Z * World) : Prop :=
  committed (snd out) = committed w /\
  match fst out with
  | Ok n =>
      n = acc + Z.of_nat (List.length (with_player_id T rs))
      /\ pending (snd out) = apply_batch T merged fresh rs (pending w)
      /\ (faults w = [] -> faults (snd out) = [])
  | Raise _ => faults w <> []
  end.

(** The outcome of a whole insert function called on a clean store. *)
Definition batch_post {R} (T : Table R) (merged : R -> R -> R -> R) (fresh : Z -> R -> R)
    (rs : list R) (w : World) (out : result Z * World) : Prop :=
  clean (snd out) /\
  match fst out with
  | Ok n =>
      n = Z.of_nat (List.length (with_player_id T rs))
      /\ committed (snd out) = apply_batch T merged fresh rs (committed w)
      /\ (faults w = [] -> faults (snd out) = [])
  | Raise _ => committed (snd out) = committed w /\ faults w <> []
  end.

(** What the proofs need to know of a table and of the column values an
    insert function writes to it. *)
Record TableLaws {R} (T : Table R) (merged : R -> R -> R -> R) (fresh : Z -> R -> R)
  : Prop := mkTableLaws {
  law_rows_set : forall l t, rows T (set_rows T l t) = l;
  law_set_rows_rows : forall t, set_rows T (rows T t) t = t;
  law_set_set : forall l l' t, set_rows T l (set_rows T l' t) = set_rows T l t;
  law_rows_empty : rows T empty_tables = [];
  law_merged_pid :
    forall row s old, row_player_id T (merged row s old) = row_player_id T old;
  law_fresh_pid : forall pid s, row_player_id T (fresh pid s) = Some pid }.

(** The outcome of [insert_all_player_stats] called on a clean store. *)
Definition all_post (ps : PlayerStats) (w : World) (out : result Counts * World) : Prop :=
  clean (snd out) /\
  match fst out with
  | Ok c =>
      committed (snd out) = apply_categories 6 ps (committed w)
      /\ (faults w = [] -> faults (snd out) = [])
  | Raise _ =>
      (exists k, (k < 6)%nat /\ committed (snd out) = apply_categories k ps (committed w))
      /\ faults w <> []
  end.

(** A counting column: written as the incoming value on INSERT and as the
    sum of stored and incoming value on UPDATE, nulls counted as zero. *)
Definition counting {R} (merged : R -> R -> R -> R) (fresh : Z -> R -> R)
    (f : R -> option Z) : Prop :=
  (forall row s old,
      f (merged row s old) = Some (null_as_zero (f row) + null_as_zero (f s)))
  /\ (forall pid s, f (fresh pid s) = Some (null_as_zero (f s))).

(** A running-maximum column as the code keeps it. *)
Definition running_max {R} (merged : R -> R -> R -> R) (fresh : Z -> R -> R)
    (h : R -> option Z) : Prop :=
  (forall row s old,
      h (merged row s old) = Some (Z.max (null_as_zero (h row)) (null_as_zero (h s))))
  /\ (forall pid s, h (fresh pid s) = h s).

(** Columns overwritten by every write. *)
Definition overwritten {R A} (merged : R -> R -> R -> R) (fresh : Z -> R -> R)
    (g : R -> A) : Prop :=
  (forall row s old, g (merged row s old) = g s)
  /\ (forall pid s, g (fresh pid s) = g s).

(* ================================================================= *)
(** ** The invariants of the accumulation, stated per insert function *)

(** Additive invariant: after any sequence of batches put into a freshly
    reset store, the run has not raised, a player without records has no
    row, and a player with records has a row whose counting [fields] each
    hold the sum of that field over the player's records. *)
Definition additive_invariant {R} (T : Table R) (ins : list R -> M Z)
    (fields : list (R -> option Z)) : Prop :=
  forall (pid : Z) (batches : list (list R)) (tr : list Event),
    let out := run_batches ins batches (reset_world tr) in
    let rs := records_for T pid (List.concat batches) in
    fst out = Ok tt /\
    match rs with
    | [] => stored T pid (snd out) = None
    | _ :: _ =>
        exists row,
          stored T pid (snd out) = Some row
          /\ Forall (fun f => f row = Some (total f rs)) fields
    end.

(** The same for a [longest_*] column [h], with the value the code keeps. *)
Definition longest_invariant {R} (T : Table R) (ins : list R -> M Z)
    (h : R -> option Z) : Prop :=
  forall (pid : Z) (batches : list (list R)) (tr : list Event),
    let out := run_batches ins batches (reset_world tr) in
    let rs := records_for T pid (List.concat batches) in
    fst out = Ok tt /\
    match rs with
    | [] => stored T pid (snd out) = None
    | _ :: _ =>
        exists row,
          stored T pid (snd out) = Some row
          /\ h row = longest_stored (map h rs)
    end.

(** Last write wins: whatever the store held, after batches whose last
    record for player [pid] is [last], the row of [pid] carries the
    identity fields of [last]. *)
Definition last_write_wins {R} (T : Table R) (ins : list R -> M Z)
    (ident : R -> identity_fields) : Prop :=
  forall (w : World) (batches : list (list R)) (pid : Z) (rs : list R) (last : R),
    clean w -> faults w = [] ->
    records_for T pid (List.concat batches) = rs ++ [last] ->
    exists row,
      stored T pid (snd (run_batches ins batches w)) = Some row
      /\ ident row = ident last.

(** Atomicity of one category's batch. *)
Definition atomic_batch {R} (T : Table R) (merged : R -> R -> R -> R)
    (fresh : Z -> R -> R) (ins : list R -> M Z) : Prop :=
  forall (rs : list R) (w : World),
    clean w -> batch_post T merged fresh rs w (ins rs w).

(** Records without a player id are skipped. *)
Definition skips_null_ids {R} (T : Table R) (ins : list R -> M Z) : Prop :=
  (forall l1 s l2 w,
      row_player_id T s = None -> l1 ++ l2 <> [] ->
      ins (l1 ++ s :: l2) w = ins (l1 ++ l2) w)
  /\ (forall rs w,
        rs <> [] -> Forall (fun s => row_player_id T s = None) rs ->
        ins rs w = try_except (commit ;; ret 0) (fun e => rollback ;; raise e) w)
  /\ (forall rs w,
        clean w -> Forall (fun s => row_player_id T s = None) rs ->
        committed (snd (ins rs w)) = committed w
        /\ pending (snd (ins rs w)) = pending w
        /\ forall n, fst (ins rs w) = Ok n -> n = 0)
  /\ (forall rs w n,
        fst (ins rs w) = Ok n -> n = Z.of_nat (List.length (with_player_id T rs))).

(** A computation that prints no warning. *)
Definition silent {A} (m : M A) : Prop :=
  forall w, warnings (trace (snd (m w))) = warnings (trace w).

(** The world after the games [gs] of week [week] were processed. *)
Definition after_games (feed : Feed) (week : Z) (gs : list string) (w : World) : World :=
  snd (for_each gs tt (fun _ game_id => process_game feed week game_id) w).

(** What [compile_season_stats] does once its parameters are accepted. *)
Definition run_season (feed : Feed) (season end_week season_type : Z) : M unit :=
  let season_type_str :=
    if season_type =? 1 then "Preseason"%string
    else if season_type =? 2 then "Regular Season"%string
    else "Playoffs"%string in
  print (MsgCompiling season end_week season_type_str) ;;
  wipe_all_stats_tables ;;
  for_each (py_range 1 (end_week + 1)) tt (fun _ week =>
    process_week feed season end_week season_type season_type_str week) ;;
  print (MsgCompleted season end_week season_type_str).

(** An event that is not a printed warning. *)
Definition not_warning (ev : Event) : Prop :=
  match ev with
  | Print (MsgWarning _ _ _) => False
  | _ => True
  end.

(** The requests sent in a trace. *)
Definition requests (tr : list Event) : list Request :=
  flat_map (fun ev => match ev with Http r => [r] | _ => [] end) tr.

(* ================================================================= *)
(** ** Sample data *)

Module Sample.

Local Open Scope string_scope.

(** A rusher's line whose longest run is missing. *)
Definition rusher_no_longest : RushingStats :=
  Rushing.mk (Some 34) (Some "Houston Texans") (Some 7) (Some "A. Back") None
    (Some 3) (Some 12) (Some 0) None.

(** The same player before and after a trade. *)
Definition rusher_week1 : RushingStats :=
  Rushing.mk (Some 34) (Some "Houston Texans") (Some 7) (Some "A. Back")
    (Some "https://img.example/7.png") (Some 10) (Some 41) (Some 1) (Some 9).

Definition rusher_week2 : RushingStats :=
  Rushing.mk (Some 12) (Some "Kansas City Chiefs") (Some 7) (Some "Al Back")
    (Some "https://img.example/7b.png") (Some 4) (Some 30) (Some 0) (Some 22).

(** A line that lost its athlete id. *)
Definition rusher_no_id : RushingStats :=
  Rushing.mk (Some 34) (Some "Houston Texans") None (Some "Unknown") None
    (Some 1) (Some 2) (Some 0) (Some 2).

Definition other_rusher : RushingStats :=
  Rushing.mk (Some 12) (Some "Kansas City Chiefs") (Some 8) (Some "B. Runner") None
    (Some 2) (Some 5) (Some 0) (Some 4).

(** A store holding the first week of the rusher, about to fail on its
    fourth statement. *)
Definition store_failing_fourth : World :=
  let t := mkTables [] [rushing_fresh 7 rusher_week1] [] [] [] [] in
  mkWorld t t [false; false; false; true] [].

(** Three games in week 1; the summary of the second cannot be fetched. *)
Definition passer (pid : Z) (name token yards : string) : Payload.Athlete :=
  Payload.mkAthlete (Some pid) (Some name) None
    (Some [PyStr token; PyStr yards; PyStr "7.1"; PyStr "2"; PyStr "1"; PyStr "2-14";
           PyStr "88.0"; PyStr "101.3"]).

Definition runner (pid : Z) (name car yds long : string) : Payload.Athlete :=
  Payload.mkAthlete (Some pid) (Some name) None
    (Some [PyStr car; PyStr yds; PyStr "4.1"; PyStr "1"; PyStr long]).

Definition game_401 : Payload.GameJson :=
  Payload.mkGameJson
    [Payload.mkPlayer (Some 34) (Some "Houston Texans")
       [Payload.mkStatGroup (Some "passing") [passer 1 "Q. Back" "20/30" "250"];
        Payload.mkStatGroup (Some "rushing") [runner 7 "A. Back" "10" "41" "9"]]].

Definition game_403 : Payload.GameJson :=
  Payload.mkGameJson
    [Payload.mkPlayer (Some 34) (Some "Houston Texans")
       [Payload.mkStatGroup (Some "passing") [passer 1 "Q. Back" "15/25" "1,180"];
        Payload.mkStatGroup (Some "rushing") [runner 7 "A. Back" "4" "30" "22"];
        Payload.mkStatGroup (Some "kicking") []]].

(** What the extractor makes of the two games. *)
Definition stats_of (d : Payload.GameJson) : PlayerStats :=
  match extract_player_stats d with
  | Ok s => s
  | Raise _ => mkPlayerStats [] [] [] [] [] []
  end.

Definition stats_401 : PlayerStats := Eval vm_compute in stats_of game_401.
Definition stats_403 : PlayerStats := Eval vm_compute in stats_of game_403.

Definition feed : Feed :=
  mkFeed
    (fun season week season_type =>
       if (week =? 1)%Z then Ok ["401"; "402"; "403"] else Ok [])
    (fun game_id =>
       if String.eqb game_id "401" then Ok game_401
       else if String.eqb game_id "403" then Ok game_403
       else Raise (HTTPError "503 Server Error")).

(** The same source with the schedule page of week 2 unavailable. *)
Definition feed_week2_down : Feed :=
  mkFeed
    (fun season week season_type =>
       if (week =? 2)%Z then Raise (HTTPError "502 Bad Gateway")
       else schedule_page feed season week season_type)
    (summary_json feed).

(** A store with old rows, whose ninth statement will fail: the six
    DELETEs and the COMMIT of the reset pass, then the first SELECT, then
    the first INSERT fails. *)
Definition store_failing_ninth : World :=
  let t := mkTables [] [rushing_fresh 7 rusher_week1] [] [] [] [] in
  mkWorld t t [false; false; false; false; false; false; false; false; true] [].

(** A store with old rows and no failure ahead. *)
Definition store_with_old_rows : World :=
  let t := mkTables [] [rushing_fresh 7 rusher_week1] [] [] [] [] in
  mkWorld t t [] [].

(** A reset store whose second statement will fail. *)
Definition store_failing_second : World :=
  mkWorld empty_tables empty_tables [false; true] [].

(** Completions/attempts tokens written with a dash. *)
Definition passer_dash_1 : Payload.Athlete := passer 1 "Q. Back" "20-30" "250".
Definition passer_dash_2 : Payload.Athlete := passer 1 "Q. Back" "15-25" "180".

(** A game whose only passing line has an empty [stats] array. *)
Definition benched : Payload.Athlete :=
  Payload.mkAthlete (Some 3) (Some "B. Warmer") None (Some []).

Definition passing_404 : Payload.StatGroup :=
  Payload.mkStatGroup (Some "passing") [benched].

Definition texans_404 : Payload.Player :=
  Payload.mkPlayer (Some 34) (Some "Houston Texans")
    [Payload.mkStatGroup (Some "rushing") [runner 7 "A. Back" "10" "41" "9"];
     passing_404].

Definition game_404 : Payload.GameJson := Payload.mkGameJson [texans_404].

(** The sample feed with a summary of game 402 that is delivered but
    cannot be extracted. *)
Definition feed_bad_line : Feed :=
  mkFeed
    (schedule_page feed)
    (fun game_id =>
       if String.eqb game_id "402" then Ok game_404 else summary_json feed game_id).

End Sample.

(* ================================================================= *)
(** ** Further notions used by the properties beyond the claims *)

(** An event that is a statement sent to the database. *)
Definition is_sql (ev : Event) : Prop :=
  match ev with Sql _ => True | _ => False end.

(** One of the next [n] statements is scheduled to fail. *)
Definition fails_within (n : nat) (w : World) : bool :=
  existsb (fun b => b) (firstn n (faults w)).

(** Two worlds that differ at most in their traces. *)
Definition sim (w w' : World) : Prop :=
  committed w = committed w' /\ pending w = pending w' /\ faults w = faults w'.

(** A computation whose result and effect on the store do not depend on
    the trace, and which schedules no failure of its own. *)
Definition tame {A} (m : M A) : Prop :=
  (forall w w', sim w w' -> fst (m w) = fst (m w') /\ sim (snd (m w)) (snd (m w')))
  /\ (forall w, faults w = [] -> faults (snd (m w)) = []).

(** The tables other than [n] are the same in [t] and [t']. *)
Definition same_elsewhere (n : TableName) (t t' : Tables) : Prop :=
  (n = passing_stats_tbl \/ passing_stats t = passing_stats t')
  /\ (n = rushing_stats_tbl \/ rushing_stats t = rushing_stats t')
  /\ (n = receiving_stats_tbl \/ receiving_stats t = receiving_stats t')
  /\ (n = fumbles_stats_tbl \/ fumbles_stats t = fumbles_stats t')
  /\ (n = defensive_stats_tbl \/ defensive_stats t = defensive_stats t')
  /\ (n = interceptions_stats_tbl \/ interceptions_stats t = interceptions_stats t').

(** The player ids present in a table, row by row. *)
Definition player_ids {R} (T : Table R) (t : Tables) : list Z :=
  flat_map
    (fun r => match row_player_id T r with Some p => [p] | None => [] end)
    (rows T t).

(** A batch touches its own table only, and there only the rows of the
    players it has a record for. *)
Definition touches_only_its_players {R} (T : Table R) (ins : list R -> M Z) : Prop :=
  forall (rs : list R) (w : World),
    clean w ->
    let w' := snd (ins rs w) in
    same_elsewhere (tname T) (committed w) (committed w')
    /\ forall pid, records_for T pid rs = [] -> stored T pid w' = stored T pid w.

(** A batch keeps the player ids of its table free of duplicates. *)
Definition keeps_ids_unique {R} (T : Table R) (ins : list R -> M Z) : Prop :=
  forall (rs : list R) (w : World),
    clean w ->
    NoDup (player_ids T (committed w)) ->
    NoDup (player_ids T (committed (snd (ins rs w)))).

(** A batch never removes a row and never lowers its column [h]. *)
Definition never_lowers {R} (T : Table R) (ins : list R -> M Z)
    (h : R -> option Z) : Prop :=
  forall (rs : list R) (w : World) (pid : Z) (row : R) (v : Z),
    clean w ->
    stored T pid w = Some row -> h row = Some v ->
    exists row' v',
      stored T pid (snd (ins rs w)) = Some row' /\ h row' = Some v' /\ v <= v'.

(** The sum of two decomposed completions/attempts values. *)
Definition pair_sum (x y : option Z * option Z) : option Z * option Z :=
  match x, y with
  | (None, None), (None, None) => (None, None)
  | (xl, xr), (yl, yr) =>
      (Some (null_as_zero xl + null_as_zero yl),
       match xr, yr with
       | None, None => None
       | _, _ => Some (null_as_zero xr + null_as_zero yr)
       end)
  end.

(** The law of the passing table's composite column. *)
Definition composite_column {R} (merged : R -> R -> R -> R) (fresh : Z -> R -> R)
    (g : R -> option string) : Prop :=
  (forall row s old, g (merged row s old) = _merge_completions (g row) (g s))
  /\ (forall pid s, g (fresh pid s) = g s).

(** ["a/b"] for integers [a], [b]. *)
Definition composite (ab : Z * Z) : string :=
  (PyStr.str (fst ab) ++ "/" ++ PyStr.str (snd ab))%string.

Definition sum_fst (abs : list (Z * Z)) : Z := fold_right (fun ab acc => fst ab + acc) 0 abs.
Definition sum_snd (abs : list (Z * Z)) : Z := fold_right (fun ab acc => snd ab + acc) 0 abs.

(** The stat group name that feeds each table. *)
Definition group_name (c : TableName) : string :=
  match c with
  | passing_stats_tbl => "passing"
  | rushing_stats_tbl => "rushing"
  | receiving_stats_tbl => "receiving"
  | fumbles_stats_tbl => "fumbles"
  | defensive_stats_tbl => "defensive"
  | interceptions_stats_tbl => "interceptions"
  end.

(** The (team id, athlete id) pairs listed in a game summary under the
    stat groups named [n], in document order. *)
Definition listed (n : string) (data : Payload.GameJson) : list (option Z * option Z) :=
  flat_map
    (fun player =>
       flat_map
         (fun g =>
            if name_is g n
            then map (fun a => (Payload.team_id player, Payload.id a)) (Payload.athletes g)
            else [])
         (Payload.statistics player))
    (Payload.boxscore_players data).

(** The (team id, player id) pairs of the records extracted for a table. *)
Definition extracted (c : TableName) (ps : PlayerStats) : list (option Z * option Z) :=
  match c with
  | passing_stats_tbl =>
      map (fun r => (Passing.team_id r, Passing.player_id r)) (passing_stats_list ps)
  | rushing_stats_tbl =>
      map (fun r => (Rushing.team_id r, Rushing.player_id r)) (rushing_stats_list ps)
  | receiving_stats_tbl =>
      map (fun r => (Receiving.team_id r, Receiving.player_id r)) (receiving_stats_list ps)
  | fumbles_stats_tbl =>
      map (fun r => (Fumbles.team_id r, Fumbles.player_id r)) (fumbles_stats_list ps)
  | defensive_stats_tbl =>
      map (fun r => (Defensive.team_id r, Defensive.player_id r)) (defensive_stats_list ps)
  | interceptions_stats_tbl =>
      map (fun r => (Interceptions.team_id r, Interceptions.player_id r))
        (interceptions_stats_list ps)
  end.

(** A passing entry of a game summary whose [stats] array is present but
    empty. *)
Definition has_empty_passing_line (data : Payload.GameJson) : Prop :=
  exists player g a,
    In player (Payload.boxscore_players data)
    /\ In g (Payload.statistics player)
    /\ name_is g "passing" = true
    /\ In a (Payload.athletes g)
    /\ Payload.stats a = Some [].

(* ================================================================= *)
(** ** espn_schedule_scraper: the links of a schedule page

    [get_game_ids] walks the [td] cells of the schedule table and, in each,
    the links that carry an [href].  What it does with one [href], and the
    two loops around it, are modelled here on the hrefs themselves: a page
    is the list of its cells, a cell the list of its hrefs. *)

Module Href.

(** [s.startswith(p)] *)
Fixpoint startswith (p s : string) : bool :=
  match p, s with
  | EmptyString, _ => true
  | String a p', String b s' => Ascii.eqb a b && startswith p' s'
  | String _ _, EmptyString => false
  end.

(** [needle in s] *)
Fixpoint has_sub (needle s : string) : bool :=
  startswith needle s
  || match s with
     | EmptyString => false
     | String _ r => has_sub needle r
     end.

(** [s.split(sep)] for a non-empty [sep]: the text is scanned from the left
    and cut at each occurrence of [sep] that does not overlap the previous
    one.  [skip] counts the characters of a matched separator still to be
    passed over, [cur] is the piece read so far. *)
Fixpoint split_scan (sep : string) (skip : nat) (cur s : string) : list string :=
  match s with
  | EmptyString => [cur]
  | String c r =>
      match skip with
      | S k => split_scan sep k cur r
      | O =>
          if startswith sep s
          then cur :: split_scan sep (String.length sep - 1) EmptyString r
          else split_scan sep O (cur ++ String c EmptyString) r
      end
  end.

Definition split (sep s : string) : list string := split_scan sep 0 EmptyString s.

End Href.

(** The body of the inner loop of [get_game_ids]:
    [href.split("gameId/")[1].split("/")[0]] when ["gameId" in href]. *)
Definition href_game_id (href : string) : result (option string) :=
  if Href.has_sub "gameId" href then
    match nth_error (Href.split "gameId/" href) 1 with
    | None => Raise IndexError
    | Some t =>
        match nth_error (Href.split "/" t) 0 with
        | None => Raise IndexError
        | Some game_id => Ok (Some game_id)
        end
    end
  else Ok None.

(** The two loops of [get_game_ids] over the cells and their links. *)
Definition page_game_ids (cells : list (list string)) : result (list string) :=
  rfold cells []
    (fun game_ids links =>
       rfold links game_ids
         (fun game_ids href =>
            (g <- href_game_id href ;;
             Ok (match g with
                 | Some game_id => game_ids ++ [game_id]
                 | None => game_ids
                 end))%res)).

(* ================================================================= *)
(** ** The requests of a run *)

(** A computation that sends no request. *)
Definition offline {A} (m : M A) : Prop :=
  forall w, requests (trace (snd (m w))) = requests (trace w).

(** What one game costs: one summary request, for the id as [int] reads
    and [str] writes it; none when the id is not an integer literal. *)
Definition game_requests (game_id : string) : list Request :=
  match PyStr.int game_id with
  | Some n => [GetSummary (PyStr.str n)]
  | None => []
  end.

(** The requests of the weeks [weeks] in order: the schedule page of the
    week, then its games; nothing after a schedule page that fails. *)
Fixpoint traffic (feed : Feed) (season season_type : Z) (weeks : list Z) : list Request :=
  match weeks with
  | [] => []
  | week :: rest =>
      GetSchedule season week season_type ::
      match schedule_page feed season week season_type with
      | Ok game_ids =>
          flat_map game_requests game_ids ++ traffic feed season season_type rest
      | Raise _ => []
      end
  end.

(* ================================================================= *)
(** ** A run as a function of the feed and of the fault schedule

    What a run with accepted parameters and a reset that passed prints as
    warnings, commits, and leaves of the fault schedule, written without
    statements, transactions or handlers: game by game, the six batches
    of a game in order, each batch whole or not at all. *)

(** One of the next [n] statements is scheduled to fail. *)
Definition fails_in (n : nat) (fs : list bool) : bool :=
  existsb (fun b => b) (firstn n fs).

(** The fault schedule once its first failing statement has been sent. *)
Fixpoint after_fault (fs : list bool) : list bool :=
  match fs with
  | [] => []
  | true :: r => r
  | false :: r => after_fault r
  end.

(** The statements a batch sends when none of them fails: a SELECT and an
    UPDATE or INSERT for each record with a player id, and the COMMIT; an
    empty batch sends nothing. *)
Definition batch_cost {R} (T : Table R) (rs : list R) : nat :=
  if is_empty rs then 0%nat
  else (2 * List.length (with_player_id T rs) + 1)%nat.

(** The same for the six batches of a game, in the order they are sent. *)
Definition costs (ps : PlayerStats) : list nat :=
  [batch_cost passing_stats_T (passing_stats_list ps);
   batch_cost rushing_stats_T (rushing_stats_list ps);
   batch_cost receiving_stats_T (receiving_stats_list ps);
   batch_cost fumbles_stats_T (fumbles_stats_list ps);
   batch_cost defensive_stats_T (defensive_stats_list ps);
   batch_cost interceptions_stats_T (interceptions_stats_list ps)].

(** How many of the batches pass before one is hit by a fault. *)
Fixpoint completed (cs : list nat) (fs : list bool) : nat :=
  match cs with
  | [] => 0%nat
  | c :: r => if fails_in c fs then 0%nat else S (completed r (skipn c fs))
  end.

(** The fault schedule they leave. *)
Fixpoint remaining (cs : list nat) (fs : list bool) : list bool :=
  match cs with
  | [] => fs
  | c :: r => if fails_in c fs then after_fault fs else remaining r (skipn c fs)
  end.

(** What reading the id, fetching the summary and extracting the records
    of one game gives. *)
Definition game_stats (feed : Feed) (game_id : string) : result PlayerStats :=
  match PyStr.int game_id with
  | None =>
      Raise (ValueError ("invalid literal for int() with base 10: '" ++ game_id ++ "'"))
  | Some n =>
      match summary_json feed (PyStr.str n) with
      | Ok d => extract_player_stats d
      | Raise e => Raise e
      end
  end.

(** The games of the weeks [weeks], each with its week, in the order the
    schedule pages list them. *)
Definition games_in (feed : Feed) (season season_type : Z) (weeks : list Z)
  : list (string * Z) :=
  flat_map
    (fun week =>
       match schedule_page feed season week season_type with
       | Ok game_ids => map (fun g => (g, week)) game_ids
       | Raise _ => []
       end)
    weeks.

(** The warnings, the committed tables and the fault schedule after the
    games [games], from the committed tables [t] and the schedule [fs]. *)
Fixpoint run_outcome (feed : Feed) (games : list (string * Z)) (t : Tables)
    (fs : list bool) : list (string * Z * exn) * Tables * list bool :=
  match games with
  | [] => ([], t, fs)
  | (g, week) :: rest =>
      match game_stats feed g with
      | Raise e =>
          let '(ws, t', fs') := run_outcome feed rest t fs in
          ((g, week, e) :: ws, t', fs')
      | Ok ps =>
          let k := completed (costs ps) fs in
          let '(ws, t', fs') :=
            run_outcome feed rest (apply_categories k ps t) (remaining (costs ps) fs) in
          (if (k =? 6)%nat then ws else (g, week, DbError "statement failed") :: ws,
           t', fs')
      end
  end.

(** Without storage failures: the games that fail, and the others merged. *)
Definition failed_games (feed : Feed) (games : list (string * Z))
  : list (string * Z * exn) :=
  flat_map
    (fun gw =>
       match game_stats feed (fst gw) with
       | Raise e => [(fst gw, snd gw, e)]
       | Ok _ => []
       end)
    games.

Definition merged_games (feed : Feed) (games : list (string * Z)) (t : Tables) : Tables :=
  fold_left
    (fun t gw =>
       match game_stats feed (fst gw) with
       | Ok ps => apply_categories 6 ps t
       | Raise _ => t
       end)
    games t.

(** An insert function passes a storage failure on: called with nothing
    pending and a fault among the statements of its batch, it raises the
    error of the failing statement, and what was committed is still
    committed, with nothing pending. *)
Definition reraises {R} (T : Table R) (ins : list R -> M Z) : Prop :=
  forall (rs : list R) (w : World),
    clean w ->
    fails_in (batch_cost T rs) (faults w) = true ->
    let out := ins rs w in
    fst out = Raise (DbError "statement failed")
    /\ committed (snd out) = committed w
    /\ pending (snd out) = committed w
    /\ faults (snd out) = after_fault (faults w).

(* ================================================================= *)
(** * Properties *)

(** ** Decimal printing and parsing *)

Module PyStrFacts.
Import PyStr.

Lemma append_assoc (a b c : string) : ((a ++ b) ++ c = a ++ (b ++ c))%string.
Proof. induction a as [|x a IH]; cbn; [reflexivity|now rewrite IH]. Qed.

Lemma append_nil_r (a : string) : (a ++ EmptyString = a)%string.
Proof. induction a as [|x a IH]; cbn; [reflexivity|now rewrite IH]. Qed.

Lemma all_chars_app P a b :
  all_chars P (a ++ b) = all_chars P a && all_chars P b.
Proof.
  induction a as [|c a IH]; simpl; [reflexivity|].
  now rewrite IH, andb_assoc.
Qed.

Lemma all_chars_impl (P Q : ascii -> bool) s :
  (forall c, P c = true -> Q c = true) ->
  all_chars P s = true -> all_chars Q s = true.
Proof.
  intros HPQ. induction s as [|c s IH]; simpl; [reflexivity|].
  intros H. apply andb_true_iff in H as [Hc Hs].
  now rewrite (HPQ _ Hc), IH.
Qed.

Lemma digit_char_spec d :
  0 <= d < 10 -> is_digit (digit_char d) = true /\ digit_val (digit_char d) = d.
Proof.
  intros H.
  assert (d = 0 \/ d = 1 \/ d = 2 \/ d = 3 \/ d = 4 \/ d = 5 \/ d = 6
          \/ d = 7 \/ d = 8 \/ d = 9) as Hd by lia.
  repeat (destruct Hd as [-> | Hd]; [split; reflexivity|]).
  subst d; split; reflexivity.
Qed.

(** A digit is neither whitespace, nor a sign, nor a separator. *)
Lemma digit_is_plain c :
  is_digit c = true ->
  isspace c = false /\ Py_ISSPACE c = false
  /\ Ascii.eqb c "/" = false /\ Ascii.eqb c "_" = false
  /\ Ascii.eqb c "+" = false /\ Ascii.eqb c "-" = false.
Proof.
  destruct c as [[] [] [] [] [] [] [] []]; cbv; intros H;
    try discriminate H; repeat split.
Qed.

Lemma to_digits_S f n :
  to_digits (S f) n =
  if n <? 10 then String (digit_char n) EmptyString
  else (to_digits f (n / 10) ++ String (digit_char (n mod 10)) EmptyString)%string.
Proof. reflexivity. Qed.

Lemma to_digits_digits fuel : forall n,
  0 <= n < 2 ^ Z.of_nat (S fuel) ->
  all_chars is_digit (to_digits (S fuel) n) = true
  /\ to_digits (S fuel) n <> EmptyString.
Proof.
  induction fuel as [|f IH]; intros n Hn; rewrite to_digits_S;
    destruct (n <? 10) eqn:E.
  - apply Z.ltb_lt in E. cbn [all_chars].
    destruct (digit_char_spec n) as [-> _]; [lia|]. split; [reflexivity|discriminate].
  - apply Z.ltb_ge in E. change (2 ^ Z.of_nat 1) with 2 in Hn. lia.
  - apply Z.ltb_lt in E. cbn [all_chars].
    destruct (digit_char_spec n) as [-> _]; [lia|]. split; [reflexivity|discriminate].
  - apply Z.ltb_ge in E.
    assert (Hq : 0 <= n / 10 < 2 ^ Z.of_nat (S f)).
    { rewrite (Nat2Z.inj_succ (S f)), Z.pow_succ_r in Hn by lia.
      split; [apply Z.div_pos; lia|].
      apply Z.div_lt_upper_bound; lia. }
    destruct (IH _ Hq) as [Hd Hne]. split.
    + rewrite all_chars_app, Hd. cbn [all_chars].
      destruct (digit_char_spec (n mod 10)) as [-> _]; [|reflexivity].
      apply Z.mod_pos_bound; lia.
    + destruct (to_digits (S f) (n / 10)); [congruence|discriminate].
Qed.

Lemma digits_value_to_digits fuel : forall n s2 p,
  0 <= n < 2 ^ Z.of_nat (S fuel) ->
  digits_value (to_digits (S fuel) n ++ s2) p 0 = digits_value s2 true n.
Proof.
  induction fuel as [|f IH]; intros n s2 p Hn; rewrite to_digits_S;
    destruct (n <? 10) eqn:E.
  - apply Z.ltb_lt in E. cbn [append digits_value].
    destruct (digit_char_spec n) as [-> ->]; [lia|reflexivity].
  - apply Z.ltb_ge in E. change (2 ^ Z.of_nat 1) with 2 in Hn. lia.
  - apply Z.ltb_lt in E. cbn [append digits_value].
    destruct (digit_char_spec n) as [-> ->]; [lia|reflexivity].
  - apply Z.ltb_ge in E.
    assert (Hq : 0 <= n / 10 < 2 ^ Z.of_nat (S f)).
    { rewrite (Nat2Z.inj_succ (S f)), Z.pow_succ_r in Hn by lia.
      split; [apply Z.div_pos; lia|].
      apply Z.div_lt_upper_bound; lia. }
    rewrite append_assoc, IH by exact Hq.
    cbn [append digits_value].
    destruct (digit_char_spec (n mod 10)) as [-> ->];
      [apply Z.mod_pos_bound; lia|].
    f_equal. pose proof (Z.div_mod n 10). lia.
Qed.

Lemma str_nonneg_fuel n :
  0 <= n -> 0 <= n < 2 ^ Z.of_nat (S (Z.to_nat (Z.log2 n))).
Proof.
  intros Hn. split; [assumption|].
  rewrite Nat2Z.inj_succ, Z2Nat.id by apply Z.log2_nonneg.
  destruct (Z.eq_dec n 0) as [->|Hz]; [reflexivity|].
  apply Z.log2_spec. lia.
Qed.

Lemma str_nonneg_digits n :
  0 <= n ->
  all_chars is_digit (str_nonneg n) = true /\ str_nonneg n <> EmptyString.
Proof. intros Hn. apply to_digits_digits, str_nonneg_fuel, Hn. Qed.

Lemma lstrip_head sp c r : sp c = false -> lstrip sp (String c r) = String c r.
Proof. intros H. cbn. now rewrite H. Qed.

Lemma rstrip_no_space sp s :
  all_chars (fun c => negb (sp c)) s = true -> rstrip sp s = s.
Proof.
  induction s as [|c s IH]; cbn [all_chars rstrip]; [reflexivity|].
  intros H. apply andb_true_iff in H as [Hc Hs].
  rewrite (IH Hs). apply negb_true_iff in Hc. rewrite Hc.
  now destruct s.
Qed.

Lemma lstrip_no_space sp s :
  all_chars (fun c => negb (sp c)) s = true -> lstrip sp s = s.
Proof.
  destruct s as [|c s]; cbn [all_chars]; [reflexivity|].
  intros H. apply andb_true_iff in H as [Hc _].
  apply lstrip_head. now apply negb_true_iff.
Qed.

Lemma digits_value_all_digits s n :
  0 <= n -> str_nonneg n = s -> digits_value s false 0 = Some n.
Proof.
  intros Hn <-.
  rewrite <- (append_nil_r (str_nonneg n)) at 1.
  unfold str_nonneg. rewrite digits_value_to_digits by now apply str_nonneg_fuel.
  reflexivity.
Qed.

Lemma int_str_nonneg n : 0 <= n -> int (str_nonneg n) = Some n.
Proof.
  intros Hn. destruct (str_nonneg_digits n Hn) as [Hd Hne].
  unfold int.
  rewrite lstrip_no_space
    by (revert Hd; apply all_chars_impl; intros c Hc;
        destruct (digit_is_plain c Hc) as (_ & -> & _); reflexivity).
  assert (Hs : split_sign (str_nonneg n) = (false, str_nonneg n)).
  { destruct (str_nonneg n) as [|c r]; [reflexivity|].
    cbn [all_chars] in Hd. apply andb_true_iff in Hd as [Hc _].
    destruct (digit_is_plain c Hc) as (_ & _ & _ & _ & Hp & Hm).
    unfold split_sign.
    destruct c as [[] [] [] [] [] [] [] []]; try reflexivity; discriminate. }
  rewrite Hs.
  rewrite rstrip_no_space
    by (revert Hd; apply all_chars_impl; intros c Hc;
        destruct (digit_is_plain c Hc) as (_ & -> & _); reflexivity).
  now rewrite (digits_value_all_digits _ n Hn eq_refl).
Qed.

(** [int(str(n)) == n] *)
Lemma int_str n : int (str n) = Some n.
Proof.
  unfold str. destruct (n <? 0) eqn:E.
  - apply Z.ltb_lt in E.
    assert (Hn : 0 <= - n) by lia.
    destruct (str_nonneg_digits _ Hn) as [Hd Hne].
    unfold int. rewrite lstrip_head by reflexivity.
    cbn [split_sign].
    rewrite rstrip_no_space
      by (revert Hd; apply all_chars_impl; intros c Hc;
          destruct (digit_is_plain c Hc) as (_ & -> & _); reflexivity).
    rewrite (digits_value_all_digits _ _ Hn eq_refl). f_equal. lia.
  - apply Z.ltb_ge in E. now apply int_str_nonneg.
Qed.

Lemma str_numeral n : all_chars is_numeral_char (str n) = true.
Proof.
  assert (H : forall m, 0 <= m -> all_chars is_numeral_char (str_nonneg m) = true).
  { intros m Hm. destruct (str_nonneg_digits m Hm) as [Hd _].
    revert Hd. apply all_chars_impl. intros c Hc.
    unfold is_numeral_char. now rewrite Hc. }
  unfold str. destruct (n <? 0) eqn:E.
  - apply Z.ltb_lt in E. cbn [all_chars]. rewrite H by lia. reflexivity.
  - apply Z.ltb_ge in E. now apply H.
Qed.

Lemma numeral_is_plain c :
  is_numeral_char c = true -> isspace c = false /\ Ascii.eqb c "/" = false.
Proof.
  destruct c as [[] [] [] [] [] [] [] []]; cbv; intros H;
    try discriminate H; repeat split.
Qed.

Lemma contains_app_sep c a b : contains c (a ++ String c b) = true.
Proof.
  induction a as [|d a IH]; cbn [append contains].
  - now rewrite Ascii.eqb_refl.
  - rewrite IH. now destruct (Ascii.eqb d c).
Qed.

Lemma contains_absent c s :
  all_chars (fun d => negb (Ascii.eqb d c)) s = true -> contains c s = false.
Proof.
  induction s as [|d s IH]; cbn [all_chars contains]; [reflexivity|].
  intros H. apply andb_true_iff in H as [Hd Hs].
  apply negb_true_iff in Hd. now rewrite Hd, IH.
Qed.

Lemma split_once_app_sep c a b :
  all_chars (fun d => negb (Ascii.eqb d c)) a = true ->
  split_once c (a ++ String c b) = (a, b).
Proof.
  induction a as [|d a IH]; cbn [append all_chars split_once].
  - now rewrite Ascii.eqb_refl.
  - intros H. apply andb_true_iff in H as [Hd Ha].
    apply negb_true_iff in Hd. now rewrite Hd, IH.
Qed.

Lemma strip_no_space s :
  all_chars (fun c => negb (isspace c)) s = true -> strip s = s.
Proof.
  intros H. unfold strip. now rewrite lstrip_no_space, rstrip_no_space.
Qed.

Lemma str_no_space n : all_chars (fun c => negb (isspace c)) (str n) = true.
Proof.
  generalize (str_numeral n). apply all_chars_impl. intros c Hc.
  destruct (numeral_is_plain c Hc) as [-> _]. reflexivity.
Qed.

Lemma str_no_slash n : all_chars (fun c => negb (Ascii.eqb c "/")) (str n) = true.
Proof.
  generalize (str_numeral n). apply all_chars_impl. intros c Hc.
  destruct (numeral_is_plain c Hc) as [_ ->]. reflexivity.
Qed.

End PyStrFacts.

(* ================================================================= *)
(** ** The completions/attempts merge *)

Lemma py_or_zero x : py_or x 0 = null_as_zero x.
Proof.
  destruct x as [n|]; cbn; [|reflexivity].
  destruct (n =? 0) eqn:E; [apply Z.eqb_eq in E; now subst|reflexivity].
Qed.

Lemma to_int_str n : _to_int (PyStr (PyStr.str n)) = Some n.
Proof. cbn [_to_int]. now rewrite PyStrFacts.int_str. Qed.

Lemma to_pair_slash a b :
  to_pair (Some (PyStr.str a ++ "/" ++ PyStr.str b)%string) = (Some a, Some b).
Proof.
  unfold to_pair. change ("/" ++ PyStr.str b)%string with (String "/" (PyStr.str b)).
  rewrite PyStrFacts.strip_no_space.
  - rewrite PyStrFacts.contains_app_sep.
    rewrite PyStrFacts.split_once_app_sep by apply PyStrFacts.str_no_slash.
    cbn [fst snd]. now rewrite !to_int_str.
  - rewrite PyStrFacts.all_chars_app. cbn [all_chars].
    now rewrite !PyStrFacts.str_no_space.
Qed.

Lemma to_pair_bare n : to_pair (Some (PyStr.str n)) = (Some n, None).
Proof.
  unfold to_pair.
  rewrite PyStrFacts.strip_no_space by apply PyStrFacts.str_no_space.
  rewrite PyStrFacts.contains_absent by apply PyStrFacts.str_no_slash.
  now rewrite to_int_str.
Qed.

Lemma merge_completions_rule existing incoming :
  _merge_completions existing incoming
  = mergeFraction (to_pair existing) (to_pair incoming).
Proof.
  unfold _merge_completions, mergeFraction.
  destruct (to_pair existing) as [el er], (to_pair incoming) as [il ir].
  rewrite !py_or_zero.
  destruct el, er, il, ir; reflexivity.
Qed.

(** C2.  The merge of two completions/attempts values follows the rule of
    the specification on the decomposed sides; null decomposes to
    (null, null), a string with a slash to the integers parsed from the text
    before and after the first slash (so ["a/b"] written from integers [a],
    [b] gives [(a, b)]), a bare number [n] to [(n, null)]; and the five
    entries of the truth table hold. *)
Theorem merge_completions_correct :
  (forall existing incoming,
      _merge_completions existing incoming
      = mergeFraction (to_pair existing) (to_pair incoming))
  /\ to_pair None = (None, None)
  /\ (forall s,
        let s' := PyStr.strip s in
        to_pair (Some s) =
        if PyStr.contains "/" s'
        then (_to_int (PyStr (fst (PyStr.split_once "/" s'))),
              _to_int (PyStr (snd (PyStr.split_once "/" s'))))
        else (_to_int (PyStr s'), None))
  /\ (forall a b, to_pair (Some (PyStr.str a ++ "/" ++ PyStr.str b)%string) = (Some a, Some b))
  /\ (forall n, to_pair (Some (PyStr.str n)) = (Some n, None))
  /\ _merge_completions None (Some "7/9"%string) = Some "7/9"%string
  /\ _merge_completions (Some "7"%string) (Some "3"%string) = Some "10"%string
  /\ _merge_completions (Some "10/15"%string) (Some "5/8"%string) = Some "15/23"%string
  /\ _merge_completions (Some "10/15"%string) (Some "7"%string) = Some "17/15"%string
  /\ _merge_completions None None = None.
Proof.
  split; [exact merge_completions_rule|].
  split; [reflexivity|].
  split; [intros s; reflexivity|].
  split; [exact to_pair_slash|].
  split; [exact to_pair_bare|].
  repeat split; vm_compute; reflexivity.
Qed.

(* ================================================================= *)
(** ** The storage layer *)

Lemma int_or_zero_int_val x : _int_or_zero (int_val x) = null_as_zero x.
Proof. now destruct x. Qed.

Lemma to_int_int_val x : _to_int (int_val x) = x.
Proof. now destruct x. Qed.

Lemma statement_eq s w :
  statement s w =
  (if hd false (faults w) then Raise (DbError "statement failed") else Ok tt,
   after_statement s w).
Proof.
  unfold statement, after_statement.
  destruct (faults w) as [|[] fs]; reflexivity.
Qed.

Lemma hd_true_faults (w : World) : hd false (faults w) = true -> faults w <> [].
Proof. destruct (faults w); discriminate. Qed.

Lemma commit_eq w :
  commit w =
  if hd false (faults w)
  then (Raise (DbError "statement failed"), after_statement COMMIT w)
  else (Ok tt, mkWorld (pending w) (pending w) (tl (faults w)) (trace w ++ [Sql COMMIT])).
Proof.
  unfold commit, bind. rewrite statement_eq.
  destruct (hd false (faults w)); reflexivity.
Qed.

Lemma rollback_eq w :
  rollback w =
  (Ok tt, mkWorld (committed w) (committed w) (faults w) (trace w ++ [Sql ROLLBACK])).
Proof. reflexivity. Qed.

Section UpsertFacts.

Context {R : Type}.
Variable T : Table R.
Variable merged : R -> R -> R -> R.
Variable fresh : Z -> R -> R.

Hypothesis L : TableLaws T merged fresh.

Local Abbreviation rows_set := (law_rows_set _ _ _ L).
Local Abbreviation set_rows_rows := (law_set_rows_rows _ _ _ L).
Local Abbreviation set_set := (law_set_set _ _ _ L).
Local Abbreviation merged_pid := (law_merged_pid _ _ _ L).
Local Abbreviation fresh_pid := (law_fresh_pid _ _ _ L).
Local Abbreviation step := (upsert_one T merged fresh).
Local Abbreviation post := (step_post T merged fresh).

Lemma apply_batch_nil t : apply_batch T merged fresh [] t = t.
Proof. unfold apply_batch. cbn. apply set_rows_rows. Qed.

Lemma apply_batch_cons s rs t :
  apply_batch T merged fresh (s :: rs) t
  = apply_batch T merged fresh rs (apply_batch T merged fresh [s] t).
Proof.
  unfold apply_batch, merge_all. cbn [fold_left].
  now rewrite rows_set, set_set.
Qed.

Lemma upsert_one_post acc s w : post acc [s] w (step acc s w).
Proof.
  unfold step_post, upsert_one, apply_batch, merge_all, with_player_id.
  cbn [fold_left filter].
  unfold merge_into.
  destruct (row_player_id T s) as [pid|]; cbn [is_None negb List.length].
  - unfold select_one, update_where, insert_into, bind, get_pending, set_pending, ret.
    rewrite statement_eq.
    destruct (hd false (faults w)) eqn:F1; cbn [fst snd].
    + split; [reflexivity|]. now apply hd_true_faults.
    + cbn [after_statement pending committed faults].
      destruct (find (has_player_id T pid) (rows T (pending w))) as [row|];
        rewrite statement_eq; cbn [after_statement pending committed faults];
        destruct (hd false (tl (faults w))) eqn:F2; cbn [fst snd pending committed faults];
        (split; [reflexivity|]);
        try (repeat split; try reflexivity; intros H; now rewrite H);
        intros H; rewrite H in F2; discriminate.
  - cbn. split; [reflexivity|]. repeat split; [lia| |auto].
    now rewrite set_rows_rows.
Qed.

Lemma for_each_post rs : forall acc w,
  post acc rs w (for_each rs acc step w).
Proof.
  induction rs as [|s rs IH]; intros acc w.
  - cbn. unfold step_post. cbn. rewrite apply_batch_nil.
    repeat split; [lia|auto].
  - cbn [for_each]. unfold bind.
    pose proof (upsert_one_post acc s w) as H1.
    destruct (step acc s w) as [[n|e] w1]; unfold step_post in H1 |- *;
      cbn [fst snd] in *.
    + destruct H1 as (Hc & Hn & Hp & Hf).
      specialize (IH n w1). unfold step_post in IH.
      destruct (for_each rs n step w1) as [[m|e] w2]; cbn [fst snd] in *.
      * destruct IH as (Hc2 & Hm & Hp2 & Hf2).
        split; [congruence|]. split; [|split].
        -- subst. unfold with_player_id in *. cbn [filter].
           destruct (negb (is_None (row_player_id T s))); cbn [List.length] in *; lia.
        -- rewrite apply_batch_cons, Hp2, Hp. reflexivity.
        -- auto.
      * destruct IH as (Hc2 & Hf2). split; [congruence|].
        intros F. apply Hf2. auto.
    + exact H1.
Qed.

Lemma upsert_nonempty_post rs w :
  clean w -> batch_post T merged fresh rs w (upsert_nonempty T merged fresh rs w).
Proof.
  intros Hw. unfold upsert_nonempty, try_except, bind.
  pose proof (for_each_post rs 0 w) as H1.
  destruct (for_each rs 0 step w) as [[n|e] w1];
    unfold step_post in H1; unfold batch_post; cbn [fst snd] in *.
  - destruct H1 as (Hc & Hn & Hp & Hf).
    rewrite commit_eq. destruct (hd false (faults w1)) eqn:F.
    + rewrite rollback_eq. cbn. split; [reflexivity|]. split; [exact Hc|].
      intros Hz. apply Hf in Hz. rewrite Hz in F. discriminate.
    + cbn. split; [reflexivity|]. split; [lia|]. split.
      * rewrite Hp, Hw. reflexivity.
      * intros Hz. now rewrite (Hf Hz).
  - rewrite rollback_eq. cbn. split; [reflexivity|]. split; [apply H1|apply H1].
Qed.

Lemma upsert_post rs w :
  clean w -> batch_post T merged fresh rs w (upsert T merged fresh rs w).
Proof.
  intros Hw. unfold upsert. destruct rs as [|s rs]; cbn [is_empty].
  - unfold batch_post, ret. cbn. rewrite apply_batch_nil. auto.
  - now apply upsert_nonempty_post.
Qed.

(** *** One player's aggregate through a batch *)

Local Abbreviation has := (has_player_id T).

Lemma has_eq p q r : has p r = true -> has q r = true -> p = q.
Proof.
  unfold has_player_id. destruct (row_player_id T r) as [x|]; [|discriminate].
  intros H1 H2. apply Z.eqb_eq in H1, H2. congruence.
Qed.

Lemma has_merged p row s old : has p (merged row s old) = has p old.
Proof. unfold has_player_id. now rewrite merged_pid. Qed.

Lemma has_fresh p q s : has q (fresh p s) = (p =? q).
Proof. unfold has_player_id. now rewrite fresh_pid. Qed.

Lemma find_app_one (f : R -> bool) t x :
  find f (t ++ [x]) =
  match find f t with
  | Some r => Some r
  | None => if f x then Some x else None
  end.
Proof.
  induction t as [|r t IH]; cbn; [reflexivity|].
  destruct (f r); [reflexivity|exact IH].
Qed.

Lemma find_update_same p g t :
  (forall r, has p r = true -> has p (g r) = true) ->
  find (has p) (map (fun r => if has p r then g r else r) t)
  = option_map g (find (has p) t).
Proof.
  intros Hg. induction t as [|r t IH]; cbn; [reflexivity|].
  destruct (has p r) eqn:E.
  - now rewrite (Hg r E).
  - rewrite E. exact IH.
Qed.

Lemma find_update_other p q g t :
  p <> q ->
  (forall r, has q (g r) = has q r) ->
  find (has q) (map (fun r => if has p r then g r else r) t) = find (has q) t.
Proof.
  intros Hpq Hg. induction t as [|r t IH]; cbn; [reflexivity|].
  destruct (has p r) eqn:E.
  - rewrite Hg. destruct (has q r) eqn:E2.
    + exfalso. apply Hpq. eapply has_eq; eassumption.
    + exact IH.
  - destruct (has q r); [reflexivity|exact IH].
Qed.

Lemma find_merge_into q t s :
  find (has q) (merge_into T merged fresh t s) =
  if has q s then merge_opt merged fresh q (find (has q) t) s
  else find (has q) t.
Proof.
  assert (Hs : has q s
               = match row_player_id T s with Some p => p =? q | None => false end)
    by reflexivity.
  rewrite Hs. unfold merge_into.
  destruct (row_player_id T s) as [p|]; [|reflexivity].
  destruct (Z.eqb_spec p q) as [E|Hpq].
  - subst q. destruct (find (has p) t) as [row|] eqn:F.
    + rewrite find_update_same, F; [reflexivity|].
      intros r Hr. now rewrite has_merged.
    + rewrite find_app_one, F, has_fresh, Z.eqb_refl. reflexivity.
  - destruct (find (has p) t) as [row|] eqn:F.
    + apply find_update_other; [assumption|]. intros r. apply has_merged.
    + rewrite find_app_one, has_fresh.
      destruct (Z.eqb_spec p q); [contradiction|].
      now destruct (find (has q) t).
Qed.

Lemma find_merge_all q rs : forall t,
  find (has q) (merge_all T merged fresh t rs)
  = fold_left (merge_opt merged fresh q) (records_for T q rs) (find (has q) t).
Proof.
  unfold merge_all, records_for.
  induction rs as [|s rs IH]; intros t; cbn [fold_left filter]; [reflexivity|].
  rewrite IH, find_merge_into.
  destruct (has q s); reflexivity.
Qed.

Lemma stored_apply_batch q rs w w' :
  committed w' = apply_batch T merged fresh rs (committed w) ->
  stored T q w'
  = fold_left (merge_opt merged fresh q) (records_for T q rs) (stored T q w).
Proof.
  intros H. unfold stored. rewrite H. unfold apply_batch.
  rewrite rows_set. apply find_merge_all.
Qed.

(** *** Successive batches with no storage failure *)

Local Abbreviation ins := (upsert T merged fresh).

Lemma run_batches_ok batches : forall w,
  clean w -> faults w = [] ->
  exists w',
    run_batches ins batches w = (Ok tt, w')
    /\ clean w' /\ faults w' = []
    /\ forall q,
         stored T q w'
         = fold_left (merge_opt merged fresh q)
             (records_for T q (List.concat batches)) (stored T q w).
Proof.
  unfold run_batches.
  induction batches as [|b bs IH]; intros w Hw Hf.
  - exists w. cbn. auto.
  - cbn [for_each]. unfold bind at 1 2.
    pose proof (upsert_post b w Hw) as H1. unfold batch_post in H1.
    destruct (ins b w) as [[n|e] w1]; cbn [fst snd] in H1.
    + destruct H1 as (Hc1 & _ & Hcm & Hf1).
      destruct (IH w1 Hc1 (Hf1 Hf)) as (w' & Hrun & Hc' & Hf' & Hst).
      exists w'. unfold ret at 1. rewrite Hrun. repeat split; try assumption.
      intros q. rewrite Hst, (stored_apply_batch q b w w1 Hcm).
      cbn [List.concat]. unfold records_for. now rewrite filter_app, fold_left_app.
    + destruct H1 as (_ & _ & Hne). contradiction.
Qed.

Lemma stored_reset q tr : stored T q (reset_world tr) = None.
Proof. unfold stored, reset_world. cbn. now rewrite (law_rows_empty _ _ _ L). Qed.

(** *** What accumulates in a column *)

Local Abbreviation agg := (merge_opt merged fresh).
Local Abbreviation counting := (counting merged fresh).
Local Abbreviation running_max := (running_max merged fresh).
Local Abbreviation overwritten := (overwritten merged fresh).

Lemma agg_from_some q rs : forall row,
  exists row', fold_left (agg q) rs (Some row) = Some row'.
Proof.
  induction rs as [|s rs IH]; intros row; cbn; eauto.
Qed.

Lemma counting_from_some f q rs : counting f -> forall row a,
  f row = Some a ->
  exists row',
    fold_left (agg q) rs (Some row) = Some row' /\ f row' = Some (a + total f rs).
Proof.
  intros [Hm Hi]. induction rs as [|s rs IH]; intros row a Ha.
  - exists row. cbn. split; [reflexivity|]. rewrite Ha. f_equal. lia.
  - cbn [fold_left merge_opt].
    destruct (IH (merged row s row) (a + null_as_zero (f s))) as (row' & Hr & Hv).
    { rewrite Hm, Ha. reflexivity. }
    exists row'. split; [exact Hr|]. rewrite Hv. cbn [total fold_right].
    f_equal. fold (total f rs). lia.
Qed.

Lemma counting_from_none f q s rs : counting f ->
  exists row',
    fold_left (agg q) (s :: rs) None = Some row' /\ f row' = Some (total f (s :: rs)).
Proof.
  intros Hf. cbn [fold_left merge_opt].
  destruct (counting_from_some f q rs Hf (fresh q s) (null_as_zero (f s)))
    as (row' & Hr & Hv); [apply Hf|].
  exists row'. split; [exact Hr|exact Hv].
Qed.

Lemma running_max_from_some h q rs : running_max h -> forall row a,
  null_as_zero (h row) = a ->
  forall s,
  exists row',
    fold_left (agg q) (s :: rs) (Some row) = Some row'
    /\ h row' = Some (fold_left Z.max (map null_as_zero (map h (s :: rs))) a).
Proof.
  intros [Hm Hi]. induction rs as [|s' rs IH]; intros row a Ha s.
  - exists (merged row s row). cbn. split; [reflexivity|]. now rewrite Hm, Ha.
  - destruct (IH (merged row s row) (Z.max a (null_as_zero (h s)))) with (s := s')
      as (row' & Hr & Hv).
    { rewrite Hm, Ha. reflexivity. }
    exists row'. split; [exact Hr|]. rewrite Hv. reflexivity.
Qed.

Lemma running_max_from_none h q s rs : running_max h ->
  exists row',
    fold_left (agg q) (s :: rs) None = Some row'
    /\ h row' = longest_stored (map h (s :: rs)).
Proof.
  intros Hh. cbn [fold_left merge_opt].
  destruct rs as [|s' rs].
  - exists (fresh q s). cbn. split; [reflexivity|]. apply Hh.
  - destruct (running_max_from_some h q rs Hh (fresh q s) (null_as_zero (h s)))
      with (s := s') as (row' & Hr & Hv).
    { destruct Hh as [_ Hi]. now rewrite Hi. }
    exists row'. split; [exact Hr|]. rewrite Hv. reflexivity.
Qed.

Lemma overwritten_last {A} (g : R -> A) q rs s cur : overwritten g ->
  exists row',
    fold_left (agg q) (rs ++ [s]) cur = Some row' /\ g row' = g s.
Proof.
  intros [Hm Hi]. rewrite fold_left_app. cbn [fold_left].
  destruct (fold_left (agg q) rs cur) as [row|]; cbn [merge_opt].
  - exists (merged row s row). split; [reflexivity|apply Hm].
  - exists (fresh q s). split; [reflexivity|apply Hi].
Qed.

End UpsertFacts.

(* ================================================================= *)
(** ** The invariants, for any insert function of the common shape *)

Section Invariants.

Context {R : Type}.
Variable T : Table R.
Variable merged : R -> R -> R -> R.
Variable fresh : Z -> R -> R.
Hypothesis L : TableLaws T merged fresh.

Local Abbreviation ins := (upsert T merged fresh).
Local Abbreviation step := (upsert_one T merged fresh).

Lemma additive_generic fields :
  Forall (counting merged fresh) fields -> additive_invariant T ins fields.
Proof.
  intros Hfields pid batches tr. cbv zeta.
  destruct (run_batches_ok T merged fresh L batches (reset_world tr))
    as (w' & Hrun & _ & _ & Hst); [reflexivity|reflexivity|].
  rewrite Hrun. cbn [fst snd]. split; [reflexivity|].
  rewrite Hst, (stored_reset T merged fresh L).
  destruct (records_for T pid (List.concat batches)) as [|s rs]; [reflexivity|].
  destruct (agg_from_some merged fresh pid rs (fresh pid s)) as (row & Hrow).
  exists row. split; [exact Hrow|].
  eapply Forall_impl; [|exact Hfields].
  intros f Hf.
  destruct (counting_from_none merged fresh f pid s rs Hf) as (row' & Hr' & Hv).
  cbn [fold_left merge_opt] in Hr'. congruence.
Qed.

Lemma longest_generic h :
  running_max merged fresh h -> longest_invariant T ins h.
Proof.
  intros Hh pid batches tr. cbv zeta.
  destruct (run_batches_ok T merged fresh L batches (reset_world tr))
    as (w' & Hrun & _ & _ & Hst); [reflexivity|reflexivity|].
  rewrite Hrun. cbn [fst snd]. split; [reflexivity|].
  rewrite Hst, (stored_reset T merged fresh L).
  destruct (records_for T pid (List.concat batches)) as [|s rs]; [reflexivity|].
  apply running_max_from_none, Hh.
Qed.

Lemma last_write_generic ident :
  overwritten merged fresh ident -> last_write_wins T ins ident.
Proof.
  intros Hg w batches pid rs last Hw Hf Hrs.
  destruct (run_batches_ok T merged fresh L batches w Hw Hf)
    as (w' & Hrun & _ & _ & Hst).
  rewrite Hrun. cbn [snd]. rewrite Hst, Hrs.
  now apply overwritten_last.
Qed.

Lemma atomic_generic : atomic_batch T merged fresh ins.
Proof. intros rs w Hw. now apply upsert_post. Qed.

Lemma for_each_skip l1 s l2 : row_player_id T s = None ->
  forall acc w, for_each (l1 ++ s :: l2) acc step w = for_each (l1 ++ l2) acc step w.
Proof.
  intros Hs. induction l1 as [|x l1 IH]; intros acc w.
  - cbn [app for_each]. unfold bind, upsert_one at 1. rewrite Hs. reflexivity.
  - cbn [app for_each]. unfold bind.
    destruct (step acc x w) as [[n|e] w1]; [apply IH|reflexivity].
Qed.

Lemma for_each_all_null rs :
  Forall (fun s => row_player_id T s = None) rs ->
  forall acc w, for_each rs acc step w = (Ok acc, w).
Proof.
  induction 1 as [|s rs Hs _ IH]; intros acc w; [reflexivity|].
  cbn [for_each]. unfold bind, upsert_one at 1. rewrite Hs. cbn. apply IH.
Qed.

Lemma upsert_all_null rs w :
  rs <> [] -> Forall (fun s => row_player_id T s = None) rs ->
  ins rs w = try_except (commit ;; ret 0) (fun e => rollback ;; raise e) w.
Proof.
  intros Hne Hall. unfold upsert.
  assert (E : is_empty rs = false) by now destruct rs.
  rewrite E. unfold upsert_nonempty, try_except, bind.
  now rewrite for_each_all_null.
Qed.

Lemma commit_only_clean w :
  clean w ->
  let out := try_except (commit ;; ret 0) (fun e => rollback ;; raise e) w in
  committed (snd out) = committed w /\ pending (snd out) = pending w
  /\ forall n, fst out = Ok n -> n = 0.
Proof.
  intros Hw. unfold clean in Hw. cbv zeta. unfold try_except, bind.
  rewrite commit_eq. destruct (hd false (faults w)); cbn.
  - repeat split; [congruence|]. intros n Hn. discriminate.
  - repeat split; [congruence|]. intros n Hn. congruence.
Qed.

Lemma skips_generic : skips_null_ids T ins.
Proof.
  split; [|split; [|split]].
  - intros l1 s l2 w Hs Hne. unfold upsert.
    assert (E1 : is_empty (l1 ++ s :: l2) = false) by now destruct l1.
    assert (E2 : is_empty (l1 ++ l2) = false) by now destruct (l1 ++ l2).
    rewrite E1, E2. unfold upsert_nonempty, try_except, bind.
    now rewrite for_each_skip.
  - exact upsert_all_null.
  - intros rs w Hw Hall. destruct rs as [|s rs].
    + cbn. repeat split. intros n Hn. congruence.
    + rewrite upsert_all_null by (assumption || discriminate).
      now apply commit_only_clean.
  - intros rs w n Hn. unfold upsert in Hn. destruct rs as [|s rs].
    + cbn in Hn. injection Hn as <-. reflexivity.
    + cbn [is_empty] in Hn. unfold upsert_nonempty, try_except, bind in Hn.
      pose proof (for_each_post T merged fresh L (s :: rs) 0 w) as H1.
      destruct (for_each (s :: rs) 0 step w) as [[m|e] w1];
        unfold step_post in H1; cbn [fst snd] in H1.
      * destruct H1 as (_ & Hm & _).
        rewrite commit_eq in Hn. destruct (hd false (faults w1)); cbn in Hn.
        -- discriminate.
        -- injection Hn as <-. lia.
      * cbn in Hn. discriminate.
Qed.

End Invariants.

(* ================================================================= *)
(** ** The six insert functions *)

Lemma passing_laws : TableLaws passing_stats_T passing_merged passing_fresh.
Proof. constructor; try reflexivity; intros; destruct t; reflexivity. Qed.

Lemma rushing_laws : TableLaws rushing_stats_T rushing_merged rushing_fresh.
Proof. constructor; try reflexivity; intros; destruct t; reflexivity. Qed.

Lemma receiving_laws : TableLaws receiving_stats_T receiving_merged receiving_fresh.
Proof. constructor; try reflexivity; intros; destruct t; reflexivity. Qed.

Lemma fumbles_laws : TableLaws fumbles_stats_T fumbles_merged fumbles_fresh.
Proof. constructor; try reflexivity; intros; destruct t; reflexivity. Qed.

Lemma defensive_laws : TableLaws defensive_stats_T defensive_merged defensive_fresh.
Proof. constructor; try reflexivity; intros; destruct t; reflexivity. Qed.

Lemma interceptions_laws :
  TableLaws interceptions_stats_T interceptions_merged interceptions_fresh.
Proof. constructor; try reflexivity; intros; destruct t; reflexivity. Qed.

(** Each function of the source is the common shape at its table. *)
Lemma insert_passing_stats_upsert :
  insert_passing_stats = upsert passing_stats_T passing_merged passing_fresh.
Proof. reflexivity. Qed.

Lemma insert_rushing_stats_upsert :
  insert_rushing_stats = upsert rushing_stats_T rushing_merged rushing_fresh.
Proof. reflexivity. Qed.

Lemma insert_receiving_stats_upsert :
  insert_receiving_stats = upsert receiving_stats_T receiving_merged receiving_fresh.
Proof. reflexivity. Qed.

Lemma insert_fumbles_stats_upsert :
  insert_fumbles_stats = upsert fumbles_stats_T fumbles_merged fumbles_fresh.
Proof. reflexivity. Qed.

Lemma insert_defensive_stats_upsert :
  insert_defensive_stats = upsert defensive_stats_T defensive_merged defensive_fresh.
Proof. reflexivity. Qed.

Lemma insert_interceptions_stats_upsert :
  insert_interceptions_stats
  = upsert interceptions_stats_T interceptions_merged interceptions_fresh.
Proof. reflexivity. Qed.

Ltac column_law :=
  repeat constructor; intros; cbn;
  rewrite ?int_or_zero_int_val, ?to_int_int_val, ?py_or_zero; reflexivity.

(** C1.  Additive invariant.  For each of the six categories and every
    player id: after any sequence of batches put into a freshly reset
    store (no storage failure), the player's stored row holds, in every
    counting column, the sum of that field over all the records that came
    in for this player, a null counted as zero. *)
Theorem additive_invariant_all_categories :
  additive_invariant passing_stats_T insert_passing_stats
    [Passing.passing_yards; Passing.passing_touchdowns;
     Passing.interceptions; Passing.sacks]
  /\ additive_invariant rushing_stats_T insert_rushing_stats
       [Rushing.rushing_attempts; Rushing.rushing_yards; Rushing.rushing_touchdowns]
  /\ additive_invariant receiving_stats_T insert_receiving_stats
       [Receiving.receptions; Receiving.receiving_yards;
        Receiving.receiving_touchdowns; Receiving.targets]
  /\ additive_invariant fumbles_stats_T insert_fumbles_stats
       [Fumbles.fumbles; Fumbles.fumbles_lost; Fumbles.fumbles_recovered]
  /\ additive_invariant defensive_stats_T insert_defensive_stats
       [Defensive.total_tackles; Defensive.solo_tackles; Defensive.sacks;
        Defensive.tackles_for_loss; Defensive.passes_defended;
        Defensive.qb_hits; Defensive.defensive_touchdowns]
  /\ additive_invariant interceptions_stats_T insert_interceptions_stats
       [Interceptions.interceptions; Interceptions.interception_yards;
        Interceptions.interception_touchdowns].
Proof.
  repeat apply conj.
  - rewrite insert_passing_stats_upsert.
    apply additive_generic; [exact passing_laws|column_law].
  - rewrite insert_rushing_stats_upsert.
    apply additive_generic; [exact rushing_laws|column_law].
  - rewrite insert_receiving_stats_upsert.
    apply additive_generic; [exact receiving_laws|column_law].
  - rewrite insert_fumbles_stats_upsert.
    apply additive_generic; [exact fumbles_laws|column_law].
  - rewrite insert_defensive_stats_upsert.
    apply additive_generic; [exact defensive_laws|column_law].
  - rewrite insert_interceptions_stats_upsert.
    apply additive_generic; [exact interceptions_laws|column_law].
Qed.

(** Four rushing lines in two batches, three of them for player 7. *)
Lemma additive_invariant_all_categories_witness :
  let batches := [[Sample.rusher_week1; Sample.other_rusher];
                  [Sample.rusher_no_longest; Sample.rusher_week2]] in
  exists row,
    stored rushing_stats_T 7
      (snd (run_batches insert_rushing_stats batches (reset_world []))) = Some row
    /\ Rushing.rushing_attempts row = Some 17
    /\ Rushing.rushing_yards row = Some 83
    /\ Rushing.rushing_touchdowns row = Some 1.
Proof.
  cbv zeta.
  pose proof (proj2 (proj1 (proj2 additive_invariant_all_categories) 7
                [[Sample.rusher_week1; Sample.other_rusher];
                 [Sample.rusher_no_longest; Sample.rusher_week2]] [])) as H.
  cbv zeta in H.
  change (records_for rushing_stats_T 7 _)
    with [Sample.rusher_week1; Sample.rusher_no_longest; Sample.rusher_week2] in H.
  cbv iota in H. destruct H as (row & Hrow & Hall).
  exists row. split; [exact Hrow|].
  inversion_clear Hall as [|? ? H1 Hall1].
  inversion_clear Hall1 as [|? ? H2 Hall2].
  inversion_clear Hall2 as [|? ? H3 _].
  split; [exact H1|]. split; [exact H2|exact H3].
Defined.

(* ================================================================= *)
(** ** The longest_* columns *)

Lemma max_excluding_nulls_cons v vs :
  max_excluding_nulls (v :: vs) =
  match v, max_excluding_nulls vs with
  | Some a, Some b => Some (Z.max a b)
  | Some a, None => Some a
  | None, acc => acc
  end.
Proof. reflexivity. Qed.

Lemma max_excluding_nulls_nonneg vs :
  (forall v, In (Some v) vs -> 0 <= v) ->
  0 <= null_as_zero (max_excluding_nulls vs).
Proof.
  induction vs as [|[x|] vs IH]; intros H;
    [cbn; lia|rewrite max_excluding_nulls_cons..].
  - assert (0 <= x) by (apply H; now left).
    assert (0 <= null_as_zero (max_excluding_nulls vs))
      by (apply IH; intros v Hv; apply H; now right).
    destruct (max_excluding_nulls vs); cbn in *; lia.
  - apply IH. intros v Hv. apply H. now right.
Qed.

Lemma max_excluding_nulls_some vs :
  (exists v, In (Some v) vs) -> max_excluding_nulls vs <> None.
Proof.
  induction vs as [|[x|] vs IH]; intros [v Hv];
    [|rewrite max_excluding_nulls_cons..].
  - destruct Hv.
  - destruct (max_excluding_nulls vs); discriminate.
  - apply IH. destruct Hv as [Hv|Hv]; [discriminate|eauto].
Qed.

Lemma fold_max_nonneg vs : forall a,
  (forall v, In (Some v) vs -> 0 <= v) -> 0 <= a ->
  fold_left Z.max (map null_as_zero vs) a
  = Z.max a (null_as_zero (max_excluding_nulls vs)).
Proof.
  induction vs as [|v vs IH]; intros a H Ha; cbn [map fold_left].
  - cbn. lia.
  - assert (Hvs : forall x, In (Some x) vs -> 0 <= x)
      by (intros x Hx; apply H; now right).
    pose proof (max_excluding_nulls_nonneg vs Hvs) as Hm.
    rewrite IH; [|exact Hvs|].
    + rewrite max_excluding_nulls_cons.
      destruct v as [x|].
      * assert (0 <= x) by (apply H; now left).
        destruct (max_excluding_nulls vs); cbn in *; lia.
      * cbn in *. lia.
    + destruct v as [x|]; cbn; [|lia].
      assert (0 <= x) by (apply H; now left). lia.
Qed.

(** Where the stored value is the maximum of the non-null values: after a
    single record, and whenever no value is negative and one is not null. *)
Lemma longest_stored_agrees vs :
  (forall v, In (Some v) vs -> 0 <= v) ->
  (exists v, In (Some v) vs) ->
  longest_stored vs = max_excluding_nulls vs.
Proof.
  intros Hpos Hex.
  destruct vs as [|v [|v' rest]].
  - destruct Hex as [? []].
  - destruct v; reflexivity.
  - unfold longest_stored. set (tail := v' :: rest) in *.
    assert (Htail : forall x, In (Some x) tail -> 0 <= x)
      by (intros x Hx; apply Hpos; now right).
    pose proof (max_excluding_nulls_nonneg tail Htail) as Hm.
    rewrite fold_max_nonneg; [|exact Htail|].
    + rewrite max_excluding_nulls_cons.
      destruct v as [x|].
      * assert (0 <= x) by (apply Hpos; now left).
        destruct (max_excluding_nulls tail); cbn in *; f_equal; lia.
      * assert (Hne : max_excluding_nulls tail <> None).
        { apply max_excluding_nulls_some. destruct Hex as [y [Hy|Hy]];
            [discriminate|eauto]. }
        destruct (max_excluding_nulls tail); [|contradiction].
        cbn in *. f_equal. lia.
    + destruct v as [x|]; cbn; [|lia]. apply Hpos. now left.
Qed.

(** C3, as the claim states it, fails: two rushing lines for one player,
    both without a longest run, leave the stored longest run at 0, not
    null. *)
Lemma longest_all_null_counterexample :
  let r := Sample.rusher_no_longest in
  let w := snd (run_batches insert_rushing_stats [[r]; [r]] (reset_world [])) in
  map Rushing.longest_run (records_for rushing_stats_T 7 [r; r]) = [None; None]
  /\ max_excluding_nulls (map Rushing.longest_run [r; r]) = None
  /\ option_map Rushing.longest_run (stored rushing_stats_T 7 w) = Some (Some 0)
  /\ option_map Rushing.longest_run (stored rushing_stats_T 7 w)
     <> Some (max_excluding_nulls (map Rushing.longest_run [r; r])).
Proof. repeat split; vm_compute; discriminate. Qed.

(** C3, amended.  For rushing and receiving and every player id: after any
    sequence of batches put into a freshly reset store, the stored
    [longest_*] value is the record's own value (possibly null) when one
    record came in for the player, and from the second record on the
    maximum over all the player's records with a null counted as zero.
    This is the maximum of the non-null values whenever none of them is
    negative and at least one exists. *)
Theorem longest_invariant_as_stored :
  longest_invariant rushing_stats_T insert_rushing_stats Rushing.longest_run
  /\ longest_invariant receiving_stats_T insert_receiving_stats
       Receiving.longest_reception
  /\ (forall v, longest_stored [v] = max_excluding_nulls [v])
  /\ (forall vs,
        (forall v, In (Some v) vs -> 0 <= v) ->
        (exists v, In (Some v) vs) ->
        longest_stored vs = max_excluding_nulls vs).
Proof.
  repeat apply conj.
  - rewrite insert_rushing_stats_upsert.
    apply longest_generic; [exact rushing_laws|column_law].
  - rewrite insert_receiving_stats_upsert.
    apply longest_generic; [exact receiving_laws|column_law].
  - intros [v|]; reflexivity.
  - exact longest_stored_agrees.
Qed.

(** Three rushing lines of player 7, the first without a longest run. *)
Lemma longest_invariant_as_stored_witness :
  let batches := [[Sample.rusher_no_longest]; [Sample.rusher_week1];
                  [Sample.rusher_week2]] in
  (exists row,
      stored rushing_stats_T 7
        (snd (run_batches insert_rushing_stats batches (reset_world []))) = Some row
      /\ Rushing.longest_run row = Some 22)
  /\ longest_stored [None; Some 9; Some 22] = max_excluding_nulls [None; Some 9; Some 22].
Proof.
  cbv zeta. split.
  - pose proof (proj2 (proj1 longest_invariant_as_stored 7
                  [[Sample.rusher_no_longest]; [Sample.rusher_week1];
                   [Sample.rusher_week2]] [])) as H.
    cbv zeta in H.
    change (records_for rushing_stats_T 7 _)
      with [Sample.rusher_no_longest; Sample.rusher_week1; Sample.rusher_week2] in H.
    cbv iota in H. exact H.
  - apply (proj2 (proj2 (proj2 longest_invariant_as_stored))).
    + intros v [E|[E|[E|[]]]]; try discriminate E; injection E as <-; lia.
    + exists 9. right. left. reflexivity.
Defined.

(* ================================================================= *)
(** ** Identity fields, atomic batches, records without an id *)

(** C8.  Last write wins.  In each of the six categories, whatever the
    store held before, once batches have been merged without storage
    failure the row of a player carries the team id, team name, player
    name and headshot URL of the last record that came in for this player
    (for two records: those of the second one), never a blend. *)
Theorem identity_last_write_wins :
  last_write_wins passing_stats_T insert_passing_stats passing_identity
  /\ last_write_wins rushing_stats_T insert_rushing_stats rushing_identity
  /\ last_write_wins receiving_stats_T insert_receiving_stats receiving_identity
  /\ last_write_wins fumbles_stats_T insert_fumbles_stats fumbles_identity
  /\ last_write_wins defensive_stats_T insert_defensive_stats defensive_identity
  /\ last_write_wins interceptions_stats_T insert_interceptions_stats
       interceptions_identity.
Proof.
  repeat apply conj.
  - rewrite insert_passing_stats_upsert.
    apply last_write_generic; [exact passing_laws|split; reflexivity].
  - rewrite insert_rushing_stats_upsert.
    apply last_write_generic; [exact rushing_laws|split; reflexivity].
  - rewrite insert_receiving_stats_upsert.
    apply last_write_generic; [exact receiving_laws|split; reflexivity].
  - rewrite insert_fumbles_stats_upsert.
    apply last_write_generic; [exact fumbles_laws|split; reflexivity].
  - rewrite insert_defensive_stats_upsert.
    apply last_write_generic; [exact defensive_laws|split; reflexivity].
  - rewrite insert_interceptions_stats_upsert.
    apply last_write_generic; [exact interceptions_laws|split; reflexivity].
Qed.

(** Two lines of one rusher with different team and display data, merged
    in one batch and in two. *)
Lemma identity_last_write_wins_witness :
  (exists row,
      stored rushing_stats_T 7
        (snd (run_batches insert_rushing_stats
                [[Sample.rusher_week1; Sample.rusher_week2]] (reset_world [])))
      = Some row
      /\ rushing_identity row = rushing_identity Sample.rusher_week2)
  /\ (exists row,
        stored rushing_stats_T 7
          (snd (run_batches insert_rushing_stats
                  [[Sample.rusher_week1]; [Sample.rusher_week2]] (reset_world [])))
        = Some row
        /\ rushing_identity row = rushing_identity Sample.rusher_week2)
  /\ rushing_identity Sample.rusher_week1 <> rushing_identity Sample.rusher_week2.
Proof.
  pose proof (proj1 (proj2 identity_last_write_wins)) as H.
  split; [|split].
  - apply (H (reset_world []) [[Sample.rusher_week1; Sample.rusher_week2]] 7
             [Sample.rusher_week1] Sample.rusher_week2); reflexivity.
  - apply (H (reset_world []) [[Sample.rusher_week1]; [Sample.rusher_week2]] 7
             [Sample.rusher_week1] Sample.rusher_week2); reflexivity.
  - discriminate.
Defined.

Ltac faults_chain :=
  first
    [ solve [auto 10]
    | let Hz := fresh "Hz" in
      intros Hz;
      match goal with
      | H : faults _ <> [] |- _ => apply H; auto 10
      end ].

Lemma insert_all_player_stats_post ps w :
  clean w -> all_post ps w (insert_all_player_stats ps w).
Proof.
  intros Hw. unfold insert_all_player_stats, try_except, bind.
  pose proof (upsert_post _ _ _ passing_laws (passing_stats_list ps) w Hw) as H1.
  rewrite insert_passing_stats_upsert.
  destruct (upsert passing_stats_T passing_merged passing_fresh _ w) as [[n1|e] w1];
    unfold batch_post, all_post in *; cbn [fst snd] in *;
    [destruct H1 as (C1 & _ & E1 & F1)
    |destruct H1 as (C1 & E1 & F1); rewrite rollback_eq; cbn;
     split; [reflexivity|]; split; [exists 0%nat; split; [lia|exact E1]|exact F1]].
  pose proof (upsert_post _ _ _ rushing_laws (rushing_stats_list ps) w1 C1) as H2.
  rewrite insert_rushing_stats_upsert.
  destruct (upsert rushing_stats_T rushing_merged rushing_fresh _ w1) as [[n2|e] w2];
    unfold batch_post in H2; cbn [fst snd] in *;
    [destruct H2 as (C2 & _ & E2 & F2)
    |destruct H2 as (C2 & E2 & F2); rewrite rollback_eq; cbn;
     split; [reflexivity|]; split;
     [exists 1%nat; split; [lia|rewrite E2, E1; reflexivity]|faults_chain]].
  pose proof (upsert_post _ _ _ receiving_laws (receiving_stats_list ps) w2 C2) as H3.
  rewrite insert_receiving_stats_upsert.
  destruct (upsert receiving_stats_T receiving_merged receiving_fresh _ w2) as [[n3|e] w3];
    unfold batch_post in H3; cbn [fst snd] in *;
    [destruct H3 as (C3 & _ & E3 & F3)
    |destruct H3 as (C3 & E3 & F3); rewrite rollback_eq; cbn;
     split; [reflexivity|]; split;
     [exists 2%nat; split; [lia|rewrite E3, E2, E1; reflexivity]|faults_chain]].
  pose proof (upsert_post _ _ _ fumbles_laws (fumbles_stats_list ps) w3 C3) as H4.
  rewrite insert_fumbles_stats_upsert.
  destruct (upsert fumbles_stats_T fumbles_merged fumbles_fresh _ w3) as [[n4|e] w4];
    unfold batch_post in H4; cbn [fst snd] in *;
    [destruct H4 as (C4 & _ & E4 & F4)
    |destruct H4 as (C4 & E4 & F4); rewrite rollback_eq; cbn;
     split; [reflexivity|]; split;
     [exists 3%nat; split; [lia|rewrite E4, E3, E2, E1; reflexivity]|faults_chain]].
  pose proof (upsert_post _ _ _ defensive_laws (defensive_stats_list ps) w4 C4) as H5.
  rewrite insert_defensive_stats_upsert.
  destruct (upsert defensive_stats_T defensive_merged defensive_fresh _ w4) as [[n5|e] w5];
    unfold batch_post in H5; cbn [fst snd] in *;
    [destruct H5 as (C5 & _ & E5 & F5)
    |destruct H5 as (C5 & E5 & F5); rewrite rollback_eq; cbn;
     split; [reflexivity|]; split;
     [exists 4%nat; split; [lia|rewrite E5, E4, E3, E2, E1; reflexivity]|faults_chain]].
  pose proof (upsert_post _ _ _ interceptions_laws (interceptions_stats_list ps) w5 C5) as H6.
  rewrite insert_interceptions_stats_upsert.
  destruct (upsert interceptions_stats_T interceptions_merged interceptions_fresh _ w5)
    as [[n6|e] w6];
    unfold batch_post in H6; cbn [fst snd] in *;
    [destruct H6 as (C6 & _ & E6 & F6)
    |destruct H6 as (C6 & E6 & F6); rewrite rollback_eq; cbn;
     split; [reflexivity|]; split;
     [exists 5%nat; split; [lia|rewrite E6, E5, E4, E3, E2, E1; reflexivity]|faults_chain]].
  cbn. split; [exact C6|]. split; [|faults_chain].
  rewrite E6, E5, E4, E3, E2, E1. reflexivity.
Qed.

(** C9.  Each category's batch is atomic.  Called on a store with nothing
    pending, each of the six insert functions either raises, and then what
    was committed before is still exactly what is committed and nothing is
    left pending, or returns, and then the merged rows of the whole batch
    are committed.  For the six batches of one game: a failure leaves
    committed exactly the batches of the categories before the failing
    one, on top of what earlier games committed. *)
Theorem category_batches_are_atomic :
  atomic_batch passing_stats_T passing_merged passing_fresh insert_passing_stats
  /\ atomic_batch rushing_stats_T rushing_merged rushing_fresh insert_rushing_stats
  /\ atomic_batch receiving_stats_T receiving_merged receiving_fresh
       insert_receiving_stats
  /\ atomic_batch fumbles_stats_T fumbles_merged fumbles_fresh insert_fumbles_stats
  /\ atomic_batch defensive_stats_T defensive_merged defensive_fresh
       insert_defensive_stats
  /\ atomic_batch interceptions_stats_T interceptions_merged interceptions_fresh
       insert_interceptions_stats
  /\ (forall ps w, clean w -> all_post ps w (insert_all_player_stats ps w)).
Proof.
  repeat apply conj.
  - rewrite insert_passing_stats_upsert. apply atomic_generic, passing_laws.
  - rewrite insert_rushing_stats_upsert. apply atomic_generic, rushing_laws.
  - rewrite insert_receiving_stats_upsert. apply atomic_generic, receiving_laws.
  - rewrite insert_fumbles_stats_upsert. apply atomic_generic, fumbles_laws.
  - rewrite insert_defensive_stats_upsert. apply atomic_generic, defensive_laws.
  - rewrite insert_interceptions_stats_upsert.
    apply atomic_generic, interceptions_laws.
  - exact insert_all_player_stats_post.
Qed.

(** A batch of two rushers whose second INSERT fails: the UPDATE of the
    first is undone with it, the row committed by the earlier game stays. *)
Lemma category_batches_are_atomic_witness :
  let w := Sample.store_failing_fourth in
  let batch := [Sample.rusher_week2; Sample.other_rusher] in
  let out := insert_rushing_stats batch w in
  clean w
  /\ fst out = Raise (DbError "statement failed")
  /\ committed (snd out) = committed w
  /\ pending (snd out) = committed w.
Proof.
  cbv zeta.
  pose proof (proj1 (proj2 category_batches_are_atomic)
                [Sample.rusher_week2; Sample.other_rusher]
                Sample.store_failing_fourth eq_refl) as H.
  unfold batch_post, clean in H.
  assert (E : fst (insert_rushing_stats [Sample.rusher_week2; Sample.other_rusher]
                     Sample.store_failing_fourth)
              = Raise (DbError "statement failed")) by reflexivity.
  rewrite E in H. destruct H as (Hc & Hk & _).
  split; [reflexivity|]. split; [exact E|]. split; [exact Hk|congruence].
Defined.

(** C10.  In each of the six insert functions a record without a player id
    is skipped: taking it out of a batch changes neither the result nor
    the final state nor the statements issued; a batch made only of such
    records issues nothing but the commit, leaves committed and pending
    rows as they were and counts zero; and the count returned is the
    number of records that carry an id. *)
Theorem null_player_id_is_skipped :
  skips_null_ids passing_stats_T insert_passing_stats
  /\ skips_null_ids rushing_stats_T insert_rushing_stats
  /\ skips_null_ids receiving_stats_T insert_receiving_stats
  /\ skips_null_ids fumbles_stats_T insert_fumbles_stats
  /\ skips_null_ids defensive_stats_T insert_defensive_stats
  /\ skips_null_ids interceptions_stats_T insert_interceptions_stats.
Proof.
  refine (conj _ (conj _ (conj _ (conj _ (conj _ _))))).
  - rewrite insert_passing_stats_upsert. apply skips_generic, passing_laws.
  - rewrite insert_rushing_stats_upsert. apply skips_generic, rushing_laws.
  - rewrite insert_receiving_stats_upsert. apply skips_generic, receiving_laws.
  - rewrite insert_fumbles_stats_upsert. apply skips_generic, fumbles_laws.
  - rewrite insert_defensive_stats_upsert. apply skips_generic, defensive_laws.
  - rewrite insert_interceptions_stats_upsert.
    apply skips_generic, interceptions_laws.
Qed.

(** A line without an id between two lines of known players. *)
Lemma null_player_id_is_skipped_witness :
  insert_rushing_stats
    [Sample.rusher_week1; Sample.rusher_no_id; Sample.other_rusher] (reset_world [])
  = insert_rushing_stats [Sample.rusher_week1; Sample.other_rusher] (reset_world [])
  /\ fst (insert_rushing_stats
            [Sample.rusher_week1; Sample.rusher_no_id; Sample.other_rusher]
            (reset_world [])) = Ok 2.
Proof.
  split.
  - apply (proj1 (proj1 (proj2 null_player_id_is_skipped))
             [Sample.rusher_week1] Sample.rusher_no_id [Sample.other_rusher]
             (reset_world [])); [reflexivity|discriminate].
  - reflexivity.
Defined.

(* ================================================================= *)
(** ** The season compiler *)

Lemma compile_season_stats_valid feed season end_week season_type :
  invalid_parameters season_type end_week = false ->
  compile_season_stats feed season end_week season_type
  = run_season feed season end_week season_type.
Proof.
  unfold invalid_parameters, compile_season_stats, run_season.
  intros H.
  destruct (end_week <? 1), (py_in season_type [1; 2; 3]),
    (season_type =? 1), (season_type =? 2), (season_type =? 3),
    (4 <? end_week), (18 <? end_week);
    cbn in H; try discriminate H; reflexivity.
Qed.

(** C6.  Any invalid combination of season type and end week makes
    [compile_season_stats] raise a [ValueError] and leaves the world as it
    was: no request sent, no statement issued, not even on the fault
    schedule, and the tables untouched.  So for (1, 5) and (2, 19). *)
Theorem invalid_parameters_raise_before_any_io :
  forall feed season end_week season_type w,
    invalid_parameters season_type end_week = true ->
    exists msg,
      compile_season_stats feed season end_week season_type w
      = (Raise (ValueError msg), w).
Proof.
  intros feed season end_week season_type w.
  unfold invalid_parameters, compile_season_stats.
  intros H.
  destruct (end_week <? 1), (py_in season_type [1; 2; 3]),
    (season_type =? 1), (season_type =? 2), (season_type =? 3),
    (4 <? end_week), (18 <? end_week);
    cbn in H; try discriminate H; eexists; reflexivity.
Qed.

Lemma invalid_parameters_raise_before_any_io_witness :
  invalid_parameters 1 5 = true
  /\ invalid_parameters 2 19 = true
  /\ (exists msg,
        compile_season_stats Sample.feed 2025 5 1 Sample.store_failing_ninth
        = (Raise (ValueError msg), Sample.store_failing_ninth))
  /\ (exists msg,
        compile_season_stats Sample.feed 2025 19 2 Sample.store_failing_ninth
        = (Raise (ValueError msg), Sample.store_failing_ninth)).
Proof.
  split; [reflexivity|]. split; [reflexivity|]. split.
  - apply (invalid_parameters_raise_before_any_io Sample.feed 2025 5 1). reflexivity.
  - apply (invalid_parameters_raise_before_any_io Sample.feed 2025 19 2). reflexivity.
Defined.

(** *** Which computations print no warning *)

Create HintDb silent.

Lemma warnings_app a b : warnings (a ++ b) = warnings a ++ warnings b.
Proof. apply flat_map_app. Qed.

Lemma warnings_snoc_other tr ev : not_warning ev -> warnings (tr ++ [ev]) = warnings tr.
Proof.
  intros H. rewrite warnings_app.
  destruct ev as [s|r|[]]; cbn in *; try apply app_nil_r. contradiction.
Qed.

Lemma silent_ret {A} (a : A) : silent (ret a).
Proof. intros w. reflexivity. Qed.

Lemma silent_raise {A} e : silent (@raise A e).
Proof. intros w. reflexivity. Qed.

Lemma silent_lift {A} (r : result A) : silent (lift r).
Proof. intros w. reflexivity. Qed.

Lemma silent_bind {A B} (m : M A) (k : A -> M B) :
  silent m -> (forall a, silent (k a)) -> silent (bind m k).
Proof.
  intros Hm Hk w. unfold bind. specialize (Hm w).
  destruct (m w) as [[a|e] w1]; cbn [snd] in *; [|exact Hm].
  rewrite <- Hm. apply Hk.
Qed.

Lemma silent_try_except {A} (m : M A) (h : exn -> M A) :
  silent m -> (forall e, silent (h e)) -> silent (try_except m h).
Proof.
  intros Hm Hh w. unfold try_except. specialize (Hm w).
  destruct (m w) as [[a|e] w1]; cbn [snd] in *; [exact Hm|].
  rewrite <- Hm. apply Hh.
Qed.

Lemma silent_for_each {A S} (xs : list A) (body : S -> A -> M S) :
  (forall acc x, silent (body acc x)) -> forall acc, silent (for_each xs acc body).
Proof.
  intros Hb. induction xs as [|x xs IH]; intros acc; cbn [for_each].
  - apply silent_ret.
  - apply silent_bind; [apply Hb|intros a; apply IH].
Qed.

Lemma silent_emit ev : not_warning ev -> silent (emit ev).
Proof. intros H w. cbn. now apply warnings_snoc_other. Qed.

Lemma silent_statement s : silent (statement s).
Proof.
  intros w. rewrite statement_eq. cbn. now apply warnings_snoc_other.
Qed.

Lemma silent_get_pending : silent get_pending.
Proof. intros w. reflexivity. Qed.

Lemma silent_set_pending t : silent (set_pending t).
Proof. intros w. reflexivity. Qed.

#[local] Hint Resolve silent_ret silent_raise silent_lift silent_statement
  silent_get_pending silent_set_pending : silent.
#[local] Hint Extern 1 (not_warning _) => exact I : silent.
#[local] Hint Extern 2 (silent (bind _ _)) => apply silent_bind; [|intros ?] : silent.
#[local] Hint Extern 2 (silent (try_except _ _)) =>
  apply silent_try_except; [|intros ?] : silent.
#[local] Hint Extern 2 (silent (for_each _ _ _)) =>
  apply silent_for_each; intros ? ? : silent.
#[local] Hint Extern 2 (silent (emit _)) => apply silent_emit : silent.
#[local] Hint Extern 2 (silent (print _)) => apply silent_emit : silent.

Lemma silent_commit : silent commit.
Proof.
  unfold commit. apply silent_bind; [auto with silent|].
  intros _ w. reflexivity.
Qed.

Lemma silent_rollback : silent rollback.
Proof.
  unfold rollback. apply silent_bind; [auto with silent|].
  intros _ w. reflexivity.
Qed.

#[local] Hint Resolve silent_commit silent_rollback : silent.

Lemma silent_upsert {R} (T : Table R) merged fresh rs :
  silent (upsert T merged fresh rs).
Proof.
  unfold upsert, upsert_nonempty. destruct (is_empty rs); [auto with silent|].
  apply silent_try_except; [|intros e; auto with silent].
  apply silent_bind; [|intros n; auto with silent].
  apply silent_for_each. intros acc s. unfold upsert_one.
  destruct (row_player_id T s) as [pid|]; [|auto with silent].
  apply silent_bind; [unfold select_one; auto 10 with silent|].
  intros [row|]; unfold update_where, insert_into; auto 10 with silent.
Qed.

Lemma silent_insert_all_player_stats ps : silent (insert_all_player_stats ps).
Proof.
  unfold insert_all_player_stats.
  rewrite insert_passing_stats_upsert, insert_rushing_stats_upsert,
    insert_receiving_stats_upsert, insert_fumbles_stats_upsert,
    insert_defensive_stats_upsert, insert_interceptions_stats_upsert.
  apply silent_try_except; [|intros e; auto with silent].
  repeat (apply silent_bind; [apply silent_upsert|intros ?]).
  apply silent_ret.
Qed.

Lemma silent_wipe_all_stats_tables : silent wipe_all_stats_tables.
Proof.
  unfold wipe_all_stats_tables.
  apply silent_try_except; [|intros e; auto with silent].
  apply silent_bind; [|intros _; auto with silent].
  apply silent_for_each. intros acc t. unfold delete_from. auto 10 with silent.
Qed.

(** *** Runs without storage failure *)

Lemma wipe_all_stats_tables_ok w :
  faults w = [] ->
  exists w',
    wipe_all_stats_tables w = (Ok tt, w')
    /\ committed w' = empty_tables /\ pending w' = empty_tables
    /\ faults w' = [] /\ warnings (trace w') = warnings (trace w).
Proof.
  intros Hf. pose proof (silent_wipe_all_stats_tables w) as Hs.
  destruct w as [c p f tr]. cbn [faults] in Hf. subst f.
  assert (E : exists tr', wipe_all_stats_tables (mkWorld c p [] tr)
              = (Ok tt, mkWorld empty_tables empty_tables [] tr')).
  { eexists. cbv -[app]. reflexivity. }
  destruct E as (tr' & E). rewrite E in Hs. cbn [snd] in Hs.
  eexists. split; [exact E|]. cbn [committed pending faults trace].
  repeat split. exact Hs.
Qed.

Lemma insert_all_player_stats_ok ps w :
  clean w -> faults w = [] ->
  exists c w',
    insert_all_player_stats ps w = (Ok c, w')
    /\ clean w' /\ faults w' = []
    /\ committed w' = apply_categories 6 ps (committed w)
    /\ warnings (trace w') = warnings (trace w).
Proof.
  intros Hw Hf.
  pose proof (insert_all_player_stats_post ps w Hw) as H.
  pose proof (silent_insert_all_player_stats ps w) as Hs.
  unfold all_post in H.
  destruct (insert_all_player_stats ps w) as [[c|e] w']; cbn [fst snd] in *.
  - destruct H as (Hc & Hk & Hf'). exists c, w'. auto.
  - destruct H as (_ & _ & Hne). contradiction.
Qed.

(** *** One game *)

Lemma bind_emit {B} ev (k : unit -> M B) w :
  bind (emit ev) k w = k tt (snd (emit ev w)).
Proof. reflexivity. Qed.

Lemma bind_print {B} m (k : unit -> M B) w :
  bind (print m) k w = k tt (snd (print m w)).
Proof. reflexivity. Qed.

Lemma process_game_total feed week g w :
  exists w', process_game feed week g w = (Ok tt, w').
Proof.
  unfold process_game. rewrite bind_print. unfold try_except.
  destruct (attempt_game feed g _) as [[[]|e] w1]; eexists; reflexivity.
Qed.

Lemma process_game_raise feed week g w e w1 :
  attempt_game feed g (snd (print (MsgGame g week) w)) = (Raise e, w1) ->
  process_game feed week g w = (Ok tt, snd (print (MsgWarning g week e) w1)).
Proof.
  intros H. unfold process_game. rewrite bind_print. unfold try_except.
  rewrite H. reflexivity.
Qed.

Lemma games_loop_step feed week g gs w :
  for_each (g :: gs) tt (fun _ g' => process_game feed week g') w
  = for_each gs tt (fun _ g' => process_game feed week g')
      (snd (process_game feed week g w)).
Proof.
  cbn [for_each]. unfold bind.
  destruct (process_game_total feed week g w) as (w' & ->). reflexivity.
Qed.

Lemma games_loop_total feed week gs : forall w,
  exists w', for_each gs tt (fun _ g' => process_game feed week g') w = (Ok tt, w').
Proof.
  induction gs as [|g gs IH]; intros w.
  - exists w. reflexivity.
  - rewrite games_loop_step. apply IH.
Qed.

(** The guarded part of one game, once its id is read as a number. *)
Lemma attempt_game_eq feed g n w :
  PyStr.int g = Some n ->
  attempt_game feed g w =
  let w1 := snd (emit (Http (GetSummary (PyStr.str n))) w) in
  match summary_json feed (PyStr.str n) with
  | Raise e => (Raise e, w1)
  | Ok d =>
      match extract_player_stats d with
      | Raise e => (Raise e, w1)
      | Ok s =>
          (inserted <- insert_all_player_stats s ;; print (MsgInserted inserted)) w1
      end
  end.
Proof.
  intros Hn. unfold attempt_game, int_of_str. rewrite Hn.
  unfold get_player_stats, get_game_json.
  cbv zeta. unfold bind at 1 2 3 4, ret, emit, lift. cbn [snd].
  destruct (summary_json feed (PyStr.str n)) as [d|e]; [|reflexivity].
  destruct (extract_player_stats d) as [s|e]; reflexivity.
Qed.

Lemma process_game_merged feed week g n d s w :
  clean w -> faults w = [] ->
  PyStr.int g = Some n ->
  summary_json feed (PyStr.str n) = Ok d ->
  extract_player_stats d = Ok s ->
  exists w',
    process_game feed week g w = (Ok tt, w')
    /\ clean w' /\ faults w' = []
    /\ committed w' = apply_categories 6 s (committed w)
    /\ warnings (trace w') = warnings (trace w).
Proof.
  intros Hw Hf Hn Hd Hs.
  unfold process_game. rewrite bind_print. unfold try_except.
  rewrite (attempt_game_eq feed g n _ Hn), Hd, Hs. cbv zeta.
  set (w1 := snd (emit _ (snd (print _ w)))).
  destruct (insert_all_player_stats_ok s w1) as (c & w2 & E & Hc & Hf2 & Hk & Hwarn);
    [exact Hw|exact Hf|].
  unfold bind. rewrite E. cbn [print emit].
  eexists. split; [reflexivity|]. cbn [committed pending faults trace].
  split; [exact Hc|]. split; [exact Hf2|]. split; [exact Hk|].
  rewrite warnings_snoc_other by exact I. rewrite Hwarn.
  subst w1. cbn [print emit snd trace].
  now rewrite !warnings_snoc_other by exact I.
Qed.

Lemma process_game_fetch_failed feed week g n e w :
  PyStr.int g = Some n ->
  summary_json feed (PyStr.str n) = Raise e ->
  exists w',
    process_game feed week g w = (Ok tt, w')
    /\ committed w' = committed w /\ pending w' = pending w
    /\ faults w' = faults w
    /\ warnings (trace w') = warnings (trace w) ++ [(g, week, e)].
Proof.
  intros Hn He.
  eexists. split.
  - apply process_game_raise. rewrite (attempt_game_eq feed g n _ Hn), He.
    reflexivity.
  - cbn [print emit snd committed pending faults trace]. repeat split.
    rewrite warnings_app. cbn [warnings flat_map app].
    now rewrite !warnings_snoc_other by exact I.
Qed.

(** *** One week, one season *)

Lemma process_week_eq feed season end_week season_type sts week gs w :
  schedule_page feed season week season_type = Ok gs ->
  process_week feed season end_week season_type sts week w
  = for_each gs tt (fun _ g => process_game feed week g)
      (snd (print (MsgFound (List.length gs) season week sts)
         (snd (emit (Http (GetSchedule season week season_type))
            (snd (print (MsgWeek week end_week) w)))))).
Proof.
  intros H. unfold process_week, get_game_ids.
  rewrite bind_print. unfold bind at 1. rewrite bind_emit.
  unfold lift. rewrite H. rewrite bind_print. reflexivity.
Qed.

Lemma two_games_reference s1 s3 :
  committed (snd ((insert_all_player_stats s1 ;; insert_all_player_stats s3)
                    (reset_world [])))
  = apply_categories 6 s3 (apply_categories 6 s1 empty_tables).
Proof.
  destruct (insert_all_player_stats_ok s1 (reset_world []))
    as (c1 & w1 & E1 & Hc1 & Hf1 & Hk1 & _); [reflexivity|reflexivity|].
  destruct (insert_all_player_stats_ok s3 w1 Hc1 Hf1)
    as (c3 & w3 & E3 & _ & _ & Hk3 & _).
  unfold bind. rewrite E1, E3. cbn [snd]. rewrite Hk3, Hk1. reflexivity.
Qed.

Lemma three_games_second_fetch_fails
    feed season season_type g1 g2 g3 n1 n2 n3 d1 d3 s1 s3 e w :
  invalid_parameters season_type 1 = false ->
  schedule_page feed season 1 season_type = Ok [g1; g2; g3] ->
  PyStr.int g1 = Some n1 -> PyStr.int g2 = Some n2 -> PyStr.int g3 = Some n3 ->
  summary_json feed (PyStr.str n1) = Ok d1 -> extract_player_stats d1 = Ok s1 ->
  summary_json feed (PyStr.str n2) = Raise e ->
  summary_json feed (PyStr.str n3) = Ok d3 -> extract_player_stats d3 = Ok s3 ->
  faults w = [] ->
  let out := compile_season_stats feed season 1 season_type w in
  fst out = Ok tt
  /\ committed (snd out)
     = committed (snd ((insert_all_player_stats s1 ;; insert_all_player_stats s3)
                         (reset_world [])))
  /\ warnings (trace (snd out)) = warnings (trace w) ++ [(g2, 1, e)].
Proof.
  intros Hvalid Hsched Hn1 Hn2 Hn3 Hd1 Hs1 He Hd3 Hs3 Hf. cbv zeta.
  rewrite two_games_reference.
  remember (compile_season_stats feed season 1 season_type w) as out eqn:Hout.
  rewrite (compile_season_stats_valid _ _ _ _ Hvalid) in Hout.
  unfold run_season in Hout. cbv zeta in Hout.
  set (sts := if season_type =? 1 then _ else _) in Hout.
  rewrite bind_print in Hout.
  set (w0 := snd (print _ w)) in Hout.
  destruct (wipe_all_stats_tables_ok w0 Hf) as (w1 & E1 & Hc1 & Hp1 & Hf1 & Hw1).
  unfold bind at 1 in Hout. rewrite E1 in Hout.
  change (py_range 1 (1 + 1)) with [1] in Hout. cbn [for_each] in Hout.
  unfold bind at 1 2 in Hout.
  rewrite (process_week_eq _ _ _ _ _ _ _ _ Hsched) in Hout.
  set (w2 := snd (print _ (snd (emit _ (snd (print _ w1)))))) in Hout.
  assert (Hw2 : clean w2 /\ faults w2 = [] /\ committed w2 = empty_tables
                /\ warnings (trace w2) = warnings (trace w)).
  { subst w2. cbn [print emit snd committed pending faults trace]. unfold clean.
    cbn [committed pending]. repeat split; [congruence|assumption|assumption|].
    rewrite !warnings_snoc_other by exact I. rewrite Hw1. subst w0.
    cbn [print emit snd trace]. now rewrite warnings_snoc_other by exact I. }
  destruct Hw2 as (Hc2 & Hf2 & Hk2 & Hwarn2).
  rewrite games_loop_step in Hout.
  destruct (process_game_merged feed 1 g1 n1 d1 s1 w2 Hc2 Hf2 Hn1 Hd1 Hs1)
    as (w3 & E3 & Hc3 & Hf3 & Hk3 & Hwarn3).
  rewrite E3 in Hout. cbn [snd] in Hout. rewrite games_loop_step in Hout.
  destruct (process_game_fetch_failed feed 1 g2 n2 e w3 Hn2 He)
    as (w4 & E4 & Hk4 & Hp4 & Hf4 & Hwarn4).
  rewrite E4 in Hout. cbn [snd] in Hout. rewrite games_loop_step in Hout.
  assert (Hc4 : clean w4) by (unfold clean in *; congruence).
  assert (Hf4' : faults w4 = []) by congruence.
  destruct (process_game_merged feed 1 g3 n3 d3 s3 w4 Hc4 Hf4' Hn3 Hd3 Hs3)
    as (w5 & E5 & Hc5 & Hf5 & Hk5 & Hwarn5).
  rewrite E5 in Hout. cbn [snd for_each] in Hout. unfold ret in Hout.
  unfold print, emit in Hout. subst out. cbn [fst snd committed trace].
  split; [reflexivity|]. split.
  - rewrite Hk5, Hk4, Hk3, Hk2. reflexivity.
  - rewrite warnings_snoc_other by exact I.
    rewrite Hwarn5, Hwarn4, Hwarn3, Hwarn2. reflexivity.
Qed.

(** *** A storage failure while a game is merged *)

(** C4, as the claim states it, fails.  The sample feed against a store
    whose ninth statement fails: the reset passes, the INSERT of the first
    game's passing line fails, and the run still returns normally, having
    printed the failure as a warning for game 401, gone on to fetch games
    402 and 403, and committed the lines of game 403. *)
Lemma storage_failure_counterexample :
  let out := compile_season_stats Sample.feed 2025 1 2 Sample.store_failing_ninth in
  fst out = Ok tt
  /\ warnings (trace (snd out))
     = [("401"%string, 1, DbError "statement failed");
        ("402"%string, 1, HTTPError "503 Server Error")]
  /\ requests (trace (snd out))
     = [GetSchedule 2025 1 2; GetSummary "401"; GetSummary "402"; GetSummary "403"]
  /\ map Rushing.rushing_attempts (rushing_stats (committed (snd out))) = [Some 4]
  /\ fst out <> Raise (DbError "statement failed").
Proof.
  cbv zeta.
  split; [vm_compute; reflexivity|].
  split; [vm_compute; reflexivity|].
  split; [vm_compute; reflexivity|].
  split; [vm_compute; reflexivity|].
  vm_compute. discriminate.
Qed.

(* ================================================================= *)
(** ** The completions/attempts token from extraction to storage *)

(** The extractor keeps a string token at index 0 as it is. *)
Lemma extractor_keeps_composite_token team_id team_name a s rest r :
  Payload.stats a = Some (PyStr s :: rest) ->
  passing_of_athlete team_id team_name a = Ok r ->
  Passing.completions_attempts r = Some s.
Proof.
  intros Hst. unfold passing_of_athlete, first_stat, stats_or_empty.
  rewrite Hst. cbv zeta.
  destruct (_safe_stat (PyStr s :: rest) 0) as [x0|]; cbn [rbind]; [|discriminate].
  destruct (_safe_stat (PyStr s :: rest) 1) as [x1|]; cbn [rbind]; [|discriminate].
  destruct (_safe_stat (PyStr s :: rest) 3) as [x3|]; cbn [rbind]; [|discriminate].
  destruct (_safe_stat (PyStr s :: rest) 4) as [x4|]; cbn [rbind]; [|discriminate].
  destruct (_safe_stat (PyStr s :: rest) 5) as [x5|]; cbn [rbind]; [|discriminate].
  intros H. injection H as <-. cbn.
  now destruct (PyStr.contains "-" s).
Qed.

(** Two tokens written with a slash merge to the sums of their sides. *)
Lemma slash_composites_sum a b c d :
  _merge_completions (Some (PyStr.str a ++ "/" ++ PyStr.str b)%string)
                     (Some (PyStr.str c ++ "/" ++ PyStr.str d)%string)
  = Some (PyStr.str (a + c) ++ "/" ++ PyStr.str (b + d))%string.
Proof. now rewrite merge_completions_rule, !to_pair_slash. Qed.

(** C5 at the failing input.  Two passing lines of one player whose
    completions/attempts tokens are written with a dash: the extractor
    keeps both tokens as they are, and merging the two records leaves the
    stored composite null instead of the sums 35 and 55, because the merge
    splits on a slash only. *)
Theorem dash_composites_merge_to_null :
  exists r1 r2,
    passing_of_athlete (Some 34) (Some "Houston Texans"%string) Sample.passer_dash_1 = Ok r1
    /\ passing_of_athlete (Some 34) (Some "Houston Texans"%string) Sample.passer_dash_2 = Ok r2
    /\ Passing.completions_attempts r1 = Some "20-30"%string
    /\ Passing.completions_attempts r2 = Some "15-25"%string
    /\ to_pair (Some "20-30"%string) = (None, None)
    /\ _merge_completions (Some "20-30"%string) (Some "15-25"%string) = None
    /\ option_map Passing.completions_attempts
         (stored passing_stats_T 1
            (snd (run_batches insert_passing_stats [[r1]; [r2]] (reset_world []))))
       = Some None.
Proof.
  eexists. eexists.
  split; [vm_compute; reflexivity|].
  split; [vm_compute; reflexivity|].
  repeat split; vm_compute; reflexivity.
Qed.

(* ================================================================= *)
(** * Further properties of the code *)

(** ** The reset *)

Lemma requests_app a b : requests (a ++ b) = requests a ++ requests b.
Proof. apply flat_map_app. Qed.

Lemma requests_sql evs : Forall is_sql evs -> requests evs = [].
Proof.
  induction 1 as [|ev evs Hev _ IH]; [reflexivity|].
  destruct ev; cbn in *; [exact IH|contradiction|contradiction].
Qed.

(** The two outcomes of the reset, by the fault schedule. *)
Lemma wipe_all_stats_tables_cases w :
  let out := wipe_all_stats_tables w in
  (exists evs, trace (snd out) = trace w ++ evs /\ Forall is_sql evs)
  /\ ((fails_within 7 w = false
       /\ fst out = Ok tt
       /\ committed (snd out) = empty_tables
       /\ pending (snd out) = empty_tables
       /\ faults (snd out) = skipn 7 (faults w))
      \/ (fails_within 7 w = true
          /\ fst out = Raise (DbError "statement failed")
          /\ committed (snd out) = committed w
          /\ pending (snd out) = committed w)).
Proof.
  destruct w as [c p f tr]. cbv zeta. unfold fails_within. cbn [faults].
  do 7 (destruct f as [|[] f];
        [ split; [eexists; split; [cbv -[app]; rewrite <- ?app_assoc; reflexivity|repeat constructor]|];
          left; cbv -[app]; repeat split
        | split; [eexists; split; [cbv -[app]; rewrite <- ?app_assoc; reflexivity|repeat constructor]|];
          right; cbv -[app]; repeat split
        | ]).
  split; [eexists; split; [cbv -[app]; rewrite <- ?app_assoc; reflexivity|repeat constructor]|].
  left. cbv -[app]. repeat split.
Qed.

(** X1.  The reset is all or nothing, whatever statements fail: it either
    returns with the six tables empty, committed, or raises with what was
    committed before still committed and nothing pending; and it sends
    nothing but statements to the database. *)
Theorem reset_is_all_or_nothing :
  forall w,
    let out := wipe_all_stats_tables w in
    match fst out with
    | Ok _ =>
        committed (snd out) = empty_tables /\ pending (snd out) = empty_tables
        /\ fails_within 7 w = false
    | Raise _ =>
        committed (snd out) = committed w /\ pending (snd out) = committed w
        /\ fails_within 7 w = true
    end
    /\ requests (trace (snd out)) = requests (trace w)
    /\ warnings (trace (snd out)) = warnings (trace w).
Proof.
  intros w. cbv zeta.
  destruct (wipe_all_stats_tables_cases w) as ((evs & Htr & Hsql) & Hcases).
  split; [|split].
  - destruct Hcases as [(Hf & Hr & Hc & Hp & _)|(Hf & Hr & Hc & Hp)];
      rewrite Hr; auto.
  - rewrite Htr, requests_app, (requests_sql _ Hsql). apply app_nil_r.
  - apply silent_wipe_all_stats_tables.
Qed.

(** ** Errors that do reach the caller of the compiler *)

Lemma for_each_app {A S} (l1 l2 : list A) (body : S -> A -> M S) : forall acc w,
  for_each (l1 ++ l2) acc body w =
  match for_each l1 acc body w with
  | (Ok a, w') => for_each l2 a body w'
  | (Raise e, w') => (Raise e, w')
  end.
Proof.
  induction l1 as [|x l1 IH]; intros acc w; cbn [app for_each]; [reflexivity|].
  unfold bind. destruct (body acc x w) as [[a|e] w1]; [apply IH|reflexivity].
Qed.

Lemma map_seq_shift (lo : Z) (a n : nat) :
  map (fun i => lo + Z.of_nat i) (seq a n)
  = map (fun i => lo + Z.of_nat a + Z.of_nat i) (seq 0 n).
Proof.
  revert a. induction n as [|n IH]; intros a; [reflexivity|].
  cbn [seq map]. f_equal; [lia|].
  rewrite (IH (S a)), <- seq_shift, map_map.
  apply map_ext. intros i. lia.
Qed.

Lemma py_range_app lo mid hi :
  lo <= mid <= hi -> py_range lo hi = py_range lo mid ++ py_range mid hi.
Proof.
  intros H. unfold py_range.
  replace (Z.to_nat (hi - lo)) with (Z.to_nat (mid - lo) + Z.to_nat (hi - mid))%nat
    by lia.
  rewrite seq_app, map_app. f_equal. cbn [Nat.add].
  rewrite map_seq_shift. apply map_ext. intros i. lia.
Qed.

Lemma py_range_cons lo hi : lo < hi -> py_range lo hi = lo :: py_range (lo + 1) hi.
Proof.
  intros H. rewrite (py_range_app lo (lo + 1) hi) by lia.
  unfold py_range at 1. replace (Z.to_nat (lo + 1 - lo)) with 1%nat by lia.
  cbn [seq map app]. f_equal. cbn. lia.
Qed.

Lemma in_py_range x lo hi : In x (py_range lo hi) -> lo <= x < hi.
Proof.
  unfold py_range. intros H. apply in_map_iff in H as (i & <- & Hi).
  apply in_seq in Hi. lia.
Qed.

Lemma process_week_total feed season end_week season_type sts week gs w :
  schedule_page feed season week season_type = Ok gs ->
  exists w', process_week feed season end_week season_type sts week w = (Ok tt, w').
Proof.
  intros H. rewrite (process_week_eq _ _ _ _ _ _ _ _ H). apply games_loop_total.
Qed.

Lemma process_week_raise feed season end_week season_type sts week e w :
  schedule_page feed season week season_type = Raise e ->
  fst (process_week feed season end_week season_type sts week w) = Raise e.
Proof.
  intros H. unfold process_week, get_game_ids.
  rewrite bind_print. unfold bind at 1. rewrite bind_emit.
  unfold lift. rewrite H. reflexivity.
Qed.

Lemma weeks_loop_total feed season end_week season_type sts weeks :
  (forall week, In week weeks ->
     exists gs, schedule_page feed season week season_type = Ok gs) ->
  forall w, exists w',
    for_each weeks tt
      (fun _ week => process_week feed season end_week season_type sts week) w
    = (Ok tt, w').
Proof.
  induction weeks as [|week weeks IH]; intros H w.
  - exists w. reflexivity.
  - cbn [for_each]. unfold bind.
    destruct (H week (or_introl eq_refl)) as (gs & Hgs).
    destruct (process_week_total feed season end_week season_type sts week gs w Hgs)
      as (w1 & ->).
    apply IH. intros wk Hwk. apply H. now right.
Qed.

(** X2.  When the reset fails, the run stops there: the error reaches the
    caller, no request has been sent, and the store holds what it held. *)
Theorem reset_failure_aborts_the_run :
  forall feed season end_week season_type w,
    invalid_parameters season_type end_week = false ->
    fails_within 7 w = true ->
    let out := compile_season_stats feed season end_week season_type w in
    fst out = Raise (DbError "statement failed")
    /\ committed (snd out) = committed w
    /\ pending (snd out) = committed w
    /\ requests (trace (snd out)) = requests (trace w).
Proof.
  intros feed season end_week season_type w Hvalid Hfail. cbv zeta.
  remember (compile_season_stats feed season end_week season_type w) as out eqn:Hout.
  rewrite (compile_season_stats_valid _ _ _ _ Hvalid) in Hout.
  unfold run_season in Hout. cbv zeta in Hout.
  rewrite bind_print in Hout. unfold bind at 1 in Hout.
  set (w0 := snd (print _ w)) in Hout.
  destruct (wipe_all_stats_tables_cases w0) as ((evs & Htr & Hsql) & Hcases).
  destruct Hcases as [(Hf & _)|(_ & Hr & Hc & Hp)].
  - unfold fails_within in *. subst w0. cbn [print emit snd faults] in Hf. congruence.
  - destruct (wipe_all_stats_tables w0) as [r w1]. cbn [fst snd] in *. subst r.
    subst out. cbn [fst snd]. repeat split; [exact Hc|exact Hp|].
    rewrite Htr, requests_app, (requests_sql _ Hsql), app_nil_r.
    subst w0. cbn [print emit snd trace]. rewrite requests_app. apply app_nil_r.
Qed.

Lemma reset_failure_aborts_the_run_witness :
  let out := compile_season_stats Sample.feed 2025 1 2 Sample.store_failing_second in
  fst out = Raise (DbError "statement failed")
  /\ committed (snd out) = empty_tables
  /\ requests (trace (snd out)) = [].
Proof.
  cbv zeta.
  destruct (reset_failure_aborts_the_run Sample.feed 2025 1 2
              Sample.store_failing_second eq_refl eq_refl) as (H1 & H2 & _ & H4).
  split; [exact H1|]. split; [exact H2|exact H4].
Defined.

(** X3.  A failure of the schedule request of some week is not caught: the
    run stops with that error, whatever happened in the games of the weeks
    before. *)
Theorem discovery_failure_aborts_the_run :
  forall feed season end_week season_type k e w,
    invalid_parameters season_type end_week = false ->
    fails_within 7 w = false ->
    1 <= k <= end_week ->
    (forall week, 1 <= week < k ->
       exists gs, schedule_page feed season week season_type = Ok gs) ->
    schedule_page feed season k season_type = Raise e ->
    fst (compile_season_stats feed season end_week season_type w) = Raise e.
Proof.
  intros feed season end_week season_type k e w Hvalid Hok Hk Hbefore Hfail.
  rewrite (compile_season_stats_valid _ _ _ _ Hvalid). unfold run_season.
  cbv zeta. set (sts := if season_type =? 1 then _ else _).
  rewrite bind_print. unfold bind at 1.
  set (w0 := snd (print _ w)).
  destruct (wipe_all_stats_tables_cases w0) as (_ & Hcases).
  destruct Hcases as [(_ & Hr & _)|(Hf & _)].
  - destruct (wipe_all_stats_tables w0) as [r w1]. cbn [fst] in Hr. subst r.
    unfold bind at 1.
    rewrite (py_range_app 1 k (end_week + 1)) by lia.
    rewrite (py_range_cons k (end_week + 1)) by lia.
    rewrite for_each_app.
    destruct (weeks_loop_total feed season end_week season_type sts (py_range 1 k))
      with (w := w1) as (w2 & ->).
    { intros week Hin. apply Hbefore. now apply in_py_range. }
    cbn [for_each]. unfold bind at 1.
    pose proof (process_week_raise feed season end_week season_type sts k e w2 Hfail)
      as Hraise.
    destruct (process_week feed season end_week season_type sts k w2) as [r w3].
    cbn [fst] in Hraise. subst r. reflexivity.
  - unfold fails_within in *. subst w0. cbn [print emit snd faults] in Hf. congruence.
Qed.

Lemma discovery_failure_aborts_the_run_witness :
  fst (compile_season_stats Sample.feed_week2_down 2025 3 2 Sample.store_failing_ninth)
  = Raise (HTTPError "502 Bad Gateway").
Proof.
  apply (discovery_failure_aborts_the_run Sample.feed_week2_down 2025 3 2 2);
    try reflexivity; try lia.
  intros week Hweek. assert (week = 1) as -> by lia.
  eexists. reflexivity.
Defined.

(** X4.  With valid parameters, a reset that passes and every schedule page
    delivered, the run returns normally, whatever fails while games are
    fetched, extracted and merged. *)
Theorem run_completes_when_discovery_succeeds :
  forall feed season end_week season_type w,
    invalid_parameters season_type end_week = false ->
    fails_within 7 w = false ->
    (forall week, 1 <= week <= end_week ->
       exists gs, schedule_page feed season week season_type = Ok gs) ->
    fst (compile_season_stats feed season end_week season_type w) = Ok tt.
Proof.
  intros feed season end_week season_type w Hvalid Hok Hweeks.
  rewrite (compile_season_stats_valid _ _ _ _ Hvalid). unfold run_season.
  cbv zeta. set (sts := if season_type =? 1 then _ else _).
  rewrite bind_print. unfold bind at 1.
  set (w0 := snd (print _ w)).
  destruct (wipe_all_stats_tables_cases w0) as (_ & Hcases).
  destruct Hcases as [(_ & Hr & _)|(Hf & _)].
  - destruct (wipe_all_stats_tables w0) as [r w1]. cbn [fst] in Hr. subst r.
    unfold bind at 1.
    destruct (weeks_loop_total feed season end_week season_type sts
                (py_range 1 (end_week + 1))) with (w := w1) as (w2 & ->).
    { intros week Hin. apply Hweeks. apply in_py_range in Hin. lia. }
    reflexivity.
  - unfold fails_within in *. subst w0. cbn [print emit snd faults] in Hf. congruence.
Qed.

Lemma run_completes_when_discovery_succeeds_witness :
  fst (compile_season_stats Sample.feed 2025 3 2 Sample.store_failing_ninth) = Ok tt.
Proof.
  apply run_completes_when_discovery_succeeds; try reflexivity.
  intros week _. cbn. destruct (week =? 1); eexists; reflexivity.
Defined.

(** ** Recompiling *)

Create HintDb tame.

Lemma sim_refl w : sim w w.
Proof. repeat split. Qed.

Lemma tame_ret {A} (a : A) : tame (ret a).
Proof. split; [intros w w' H; split; [reflexivity|exact H]|auto]. Qed.

Lemma tame_raise {A} e : tame (@raise A e).
Proof. split; [intros w w' H; split; [reflexivity|exact H]|auto]. Qed.

Lemma tame_lift {A} (r : result A) : tame (lift r).
Proof. split; [intros w w' H; split; [reflexivity|exact H]|auto]. Qed.

Lemma tame_bind {A B} (m : M A) (k : A -> M B) :
  tame m -> (forall a, tame (k a)) -> tame (bind m k).
Proof.
  intros [Hm1 Hm2] Hk. split.
  - intros w w' Hs. unfold bind. specialize (Hm1 w w' Hs).
    destruct (m w) as [[a|e] w1], (m w') as [[a'|e'] w1']; cbn [fst snd] in Hm1;
      destruct Hm1 as [Hr Hs1]; try discriminate Hr.
    + injection Hr as <-. now apply (Hk a).
    + injection Hr as <-. cbn [fst snd]. split; [reflexivity|exact Hs1].
  - intros w Hf. unfold bind. specialize (Hm2 w Hf).
    destruct (m w) as [[a|e] w1]; cbn [snd] in *; [|exact Hm2].
    now apply (Hk a).
Qed.

Lemma tame_try_except {A} (m : M A) (h : exn -> M A) :
  tame m -> (forall e, tame (h e)) -> tame (try_except m h).
Proof.
  intros [Hm1 Hm2] Hh. split.
  - intros w w' Hs. unfold try_except. specialize (Hm1 w w' Hs).
    destruct (m w) as [[a|e] w1], (m w') as [[a'|e'] w1']; cbn [fst snd] in Hm1;
      destruct Hm1 as [Hr Hs1]; try discriminate Hr.
    + cbn [fst snd]. split; [exact Hr|exact Hs1].
    + injection Hr as <-. now apply (Hh e).
  - intros w Hf. unfold try_except. specialize (Hm2 w Hf).
    destruct (m w) as [[a|e] w1]; cbn [snd] in *; [exact Hm2|].
    now apply (Hh e).
Qed.

Lemma tame_for_each {A S} (xs : list A) (body : S -> A -> M S) :
  (forall acc x, tame (body acc x)) -> forall acc, tame (for_each xs acc body).
Proof.
  intros Hb. induction xs as [|x xs IH]; intros acc; cbn [for_each].
  - apply tame_ret.
  - apply tame_bind; [apply Hb|intros a; apply IH].
Qed.

Lemma tame_emit ev : tame (emit ev).
Proof.
  split.
  - intros w w' (Hc & Hp & Hf). cbn. repeat split; assumption.
  - intros w Hf. exact Hf.
Qed.

Lemma tame_statement s : tame (statement s).
Proof.
  split.
  - intros w w' (Hc & Hp & Hf). rewrite !statement_eq. cbn.
    rewrite Hf. repeat split; try assumption.
    unfold after_statement. cbn [faults]. now rewrite Hf.
  - intros w Hf. rewrite statement_eq. unfold after_statement. cbn [snd faults].
    now rewrite Hf.
Qed.

Lemma tame_get_pending : tame get_pending.
Proof.
  split.
  - intros w w' Hs. cbn. split; [f_equal; apply Hs|exact Hs].
  - intros w Hf. exact Hf.
Qed.

Lemma tame_set_pending t : tame (set_pending t).
Proof.
  split.
  - intros w w' (Hc & Hp & Hf). cbn. repeat split; assumption.
  - intros w Hf. exact Hf.
Qed.

Lemma tame_commit : tame commit.
Proof.
  unfold commit. apply tame_bind; [apply tame_statement|]. intros _. split.
  - intros w w' (Hc & Hp & Hf). cbn. repeat split; assumption.
  - intros w Hf. exact Hf.
Qed.

Lemma tame_rollback : tame rollback.
Proof.
  unfold rollback. apply tame_bind; [apply tame_emit|]. intros _. split.
  - intros w w' (Hc & Hp & Hf). cbn. repeat split; assumption.
  - intros w Hf. exact Hf.
Qed.

#[local] Hint Resolve tame_ret tame_raise tame_lift tame_statement tame_emit
  tame_get_pending tame_set_pending tame_commit tame_rollback : tame.
#[local] Hint Extern 2 (tame (bind _ _)) => apply tame_bind; [|intros ?] : tame.
#[local] Hint Extern 2 (tame (try_except _ _)) =>
  apply tame_try_except; [|intros ?] : tame.
#[local] Hint Extern 2 (tame (for_each _ _ _)) =>
  apply tame_for_each; intros ? ? : tame.
#[local] Hint Extern 2 (tame (print _)) => apply tame_emit : tame.

Lemma tame_upsert {R} (T : Table R) merged fresh rs :
  tame (upsert T merged fresh rs).
Proof.
  unfold upsert, upsert_nonempty. destruct (is_empty rs); [auto with tame|].
  apply tame_try_except; [|intros e; auto with tame].
  apply tame_bind; [|intros n; auto with tame].
  apply tame_for_each. intros acc s. unfold upsert_one.
  destruct (row_player_id T s) as [pid|]; [|auto with tame].
  apply tame_bind; [unfold select_one; auto 10 with tame|].
  intros [row|]; unfold update_where, insert_into; auto 10 with tame.
Qed.

Lemma tame_insert_all_player_stats ps : tame (insert_all_player_stats ps).
Proof.
  unfold insert_all_player_stats.
  rewrite insert_passing_stats_upsert, insert_rushing_stats_upsert,
    insert_receiving_stats_upsert, insert_fumbles_stats_upsert,
    insert_defensive_stats_upsert, insert_interceptions_stats_upsert.
  apply tame_try_except; [|intros e; auto with tame].
  repeat (apply tame_bind; [apply tame_upsert|intros ?]).
  apply tame_ret.
Qed.

Lemma tame_process_game feed week g : tame (process_game feed week g).
Proof.
  unfold process_game.
  apply tame_bind; [auto with tame|]. intros _.
  apply tame_try_except; [|intros e; auto with tame].
  unfold attempt_game. apply tame_bind.
  { unfold int_of_str. destruct (PyStr.int g); auto with tame. }
  intros n. apply tame_bind.
  { unfold get_player_stats, get_game_json. auto 10 with tame. }
  intros stats.
  apply tame_bind; [apply tame_insert_all_player_stats|intros c; auto with tame].
Qed.

Lemma tame_process_week feed season end_week season_type sts week :
  tame (process_week feed season end_week season_type sts week).
Proof.
  unfold process_week, get_game_ids.
  apply tame_bind; [auto with tame|]. intros _.
  apply tame_bind; [auto 10 with tame|]. intros gs.
  apply tame_bind; [auto with tame|]. intros _.
  apply tame_for_each. intros _ g. apply tame_process_game.
Qed.

(** The run once the reset has passed. *)
Lemma run_after_reset feed season end_week season_type sts w1 w2 :
  sim w1 w2 ->
  let rest :=
    (for_each (py_range 1 (end_week + 1)) tt
       (fun _ week => process_week feed season end_week season_type sts week) ;;
     print (MsgCompleted season end_week sts)) in
  fst (rest w1) = fst (rest w2) /\ sim (snd (rest w1)) (snd (rest w2)).
Proof.
  intros Hs. cbv zeta.
  assert (Ht : tame
            (for_each (py_range 1 (end_week + 1)) tt
               (fun _ week => process_week feed season end_week season_type sts week) ;;
             print (MsgCompleted season end_week sts))).
  { apply tame_bind; [|intros _; auto with tame].
    apply tame_for_each. intros _ week. apply tame_process_week. }
  now apply Ht.
Qed.

Lemma compile_season_stats_agree feed season end_week season_type w1 w2 :
  invalid_parameters season_type end_week = false ->
  faults w1 = faults w2 ->
  fails_within 7 w1 = false ->
  let out1 := compile_season_stats feed season end_week season_type w1 in
  let out2 := compile_season_stats feed season end_week season_type w2 in
  fst out1 = fst out2
  /\ committed (snd out1) = committed (snd out2)
  /\ pending (snd out1) = pending (snd out2).
Proof.
  intros Hvalid Hf Hok. cbv zeta.
  remember (compile_season_stats feed season end_week season_type w1) as out1 eqn:H1.
  remember (compile_season_stats feed season end_week season_type w2) as out2 eqn:H2.
  rewrite (compile_season_stats_valid _ _ _ _ Hvalid) in H1, H2.
  unfold run_season in H1, H2. cbv zeta in H1, H2.
  set (sts := if season_type =? 1 then _ else _) in H1, H2.
  rewrite bind_print in H1, H2. unfold bind at 1 in H1. unfold bind at 1 in H2.
  set (u1 := snd (print _ w1)) in H1. set (u2 := snd (print _ w2)) in H2.
  assert (Hok2 : fails_within 7 w2 = false)
    by (unfold fails_within in *; now rewrite <- Hf).
  destruct (wipe_all_stats_tables_cases u1) as (_ & [(_ & Hr1 & Hc1 & Hp1 & Hs1)|(Hb & _)]);
    [|unfold fails_within in *; subst u1; cbn [print emit snd faults] in Hb; congruence].
  destruct (wipe_all_stats_tables_cases u2) as (_ & [(_ & Hr2 & Hc2 & Hp2 & Hs2)|(Hb & _)]);
    [|unfold fails_within in *; subst u2; cbn [print emit snd faults] in Hb; congruence].
  destruct (wipe_all_stats_tables u1) as [r1 v1], (wipe_all_stats_tables u2) as [r2 v2].
  cbn [fst snd] in *. subst r1 r2.
  assert (Hsim : sim v1 v2).
  { repeat split; [congruence|congruence|].
    rewrite Hs1, Hs2. subst u1 u2. cbn [print emit snd faults]. now rewrite Hf. }
  destruct (run_after_reset feed season end_week season_type sts v1 v2 Hsim)
    as (Hr & Hc & Hp & _).
  subst out1 out2. auto.
Qed.

(** X5.  What a run leaves in the store does not depend on what the store
    held before: with valid parameters, the same schedule of failures and a
    reset that passes, two runs from different stores return the same
    result and commit the same tables. *)
Theorem recompilation_forgets_the_old_store :
  forall feed season end_week season_type w1 w2,
    invalid_parameters season_type end_week = false ->
    faults w1 = faults w2 ->
    fails_within 7 w1 = false ->
    let out1 := compile_season_stats feed season end_week season_type w1 in
    let out2 := compile_season_stats feed season end_week season_type w2 in
    fst out1 = fst out2
    /\ committed (snd out1) = committed (snd out2)
    /\ pending (snd out1) = pending (snd out2).
Proof.
  intros feed season end_week season_type w1 w2.
  apply compile_season_stats_agree.
Qed.

(** A store with old rows and an empty one, the same sample feed. *)
Lemma recompilation_forgets_the_old_store_witness :
  committed (snd (compile_season_stats Sample.feed 2025 1 2 Sample.store_failing_ninth))
  = committed (snd (compile_season_stats Sample.feed 2025 1 2
                      (mkWorld empty_tables empty_tables
                         (faults Sample.store_failing_ninth) []))).
Proof.
  assert (Hv : invalid_parameters 2 1 = false) by reflexivity.
  assert (Hf : faults Sample.store_failing_ninth
               = faults (mkWorld empty_tables empty_tables
                           (faults Sample.store_failing_ninth) [])) by reflexivity.
  assert (Hk : fails_within 7 Sample.store_failing_ninth = false) by reflexivity.
  destruct (recompilation_forgets_the_old_store Sample.feed 2025 1 2
              Sample.store_failing_ninth
              (mkWorld empty_tables empty_tables (faults Sample.store_failing_ninth) [])
              Hv Hf Hk) as (_ & H & _).
  exact H.
Defined.

(** X6.  Running the compiler a second time on the store the first run
    left, with no storage failure, commits exactly the tables of the first
    run again: nothing is counted twice. *)
Theorem recompiling_does_not_double_count :
  forall feed season end_week season_type w,
    invalid_parameters season_type end_week = false ->
    faults w = [] ->
    let once := compile_season_stats feed season end_week season_type w in
    let twice := compile_season_stats feed season end_week season_type (snd once) in
    fst twice = fst once /\ committed (snd twice) = committed (snd once).
Proof.
  intros feed season end_week season_type w Hvalid Hf. cbv zeta.
  assert (Hafter : faults (snd (compile_season_stats feed season end_week season_type w))
                   = []).
  { rewrite (compile_season_stats_valid _ _ _ _ Hvalid). unfold run_season.
    cbv zeta.
    assert (Ht : tame (run_season feed season end_week season_type)).
    { unfold run_season. cbv zeta.
      apply tame_bind; [auto with tame|]. intros _.
      apply tame_bind.
      - unfold wipe_all_stats_tables.
        apply tame_try_except; [|intros e; auto with tame].
        apply tame_bind; [|intros _; auto with tame].
        apply tame_for_each. intros acc t. unfold delete_from. auto 10 with tame.
      - intros _. apply tame_bind; [|intros _; auto with tame].
        apply tame_for_each. intros _ week. apply tame_process_week. }
    apply Ht. exact Hf. }
  destruct (compile_season_stats_agree feed season end_week season_type
              (snd (compile_season_stats feed season end_week season_type w)) w
              Hvalid) as (H1 & H2 & _).
  - now rewrite Hafter, Hf.
  - unfold fails_within. now rewrite Hafter.
  - split; assumption.
Qed.

Lemma recompiling_does_not_double_count_witness :
  let once := compile_season_stats Sample.feed 2025 1 2 Sample.store_with_old_rows in
  let twice := compile_season_stats Sample.feed 2025 1 2 (snd once) in
  committed (snd twice) = committed (snd once).
Proof.
  cbv zeta.
  assert (Hv : invalid_parameters 2 1 = false) by reflexivity.
  assert (Hf : faults Sample.store_with_old_rows = []) by reflexivity.
  destruct (recompiling_does_not_double_count Sample.feed 2025 1 2
              Sample.store_with_old_rows Hv Hf) as (_ & H).
  exact H.
Defined.

(** ** What a batch keeps *)

Section Frame.

Context {R : Type}.
Variable T : Table R.
Variable merged : R -> R -> R -> R.
Variable fresh : Z -> R -> R.
Hypothesis L : TableLaws T merged fresh.
Hypothesis elsewhere : forall l t, same_elsewhere (tname T) t (set_rows T l t).

Local Abbreviation ins := (upsert T merged fresh).

Lemma same_elsewhere_refl n t : same_elsewhere n t t.
Proof. repeat split; right; reflexivity. Qed.

Lemma touches_only_generic : touches_only_its_players T ins.
Proof.
  intros rs w Hw. cbv zeta.
  pose proof (upsert_post T merged fresh L rs w Hw) as H. unfold batch_post in H.
  destruct (ins rs w) as [[n|e] w']; cbn [fst snd] in *.
  - destruct H as (_ & _ & Hc & _). split.
    + rewrite Hc. unfold apply_batch. apply elsewhere.
    + intros pid Hnone.
      rewrite (stored_apply_batch T merged fresh L pid rs w w' Hc), Hnone.
      reflexivity.
  - destruct H as (_ & Hc & _). split.
    + rewrite Hc. apply same_elsewhere_refl.
    + intros pid _. unfold stored. now rewrite Hc.
Qed.

Lemma ids_map_same (f : R -> R) t :
  (forall r, row_player_id T (f r) = row_player_id T r) ->
  flat_map (fun r => match row_player_id T r with Some p => [p] | None => [] end)
    (map f t)
  = flat_map (fun r => match row_player_id T r with Some p => [p] | None => [] end) t.
Proof.
  intros Hf. induction t as [|r t IH]; cbn; [reflexivity|].
  now rewrite Hf, IH.
Qed.

Lemma find_none_not_in pid t :
  find (has_player_id T pid) t = None ->
  ~ In pid
      (flat_map (fun r => match row_player_id T r with Some p => [p] | None => [] end) t).
Proof.
  induction t as [|r t IH]; cbn; [tauto|].
  unfold has_player_id at 1.
  destruct (row_player_id T r) as [q|]; cbn.
  - destruct (Z.eqb_spec q pid); [discriminate|].
    intros H [E|Hin]; [congruence|now apply IH].
  - exact IH.
Qed.

Lemma NoDup_snoc {A} (l : list A) x : NoDup l -> ~ In x l -> NoDup (l ++ [x]).
Proof.
  induction 1 as [|y l Hy Hl IH]; cbn; intros Hx.
  - constructor; [tauto|constructor].
  - constructor.
    + rewrite in_app_iff. cbn. intros [H|[H|[]]]; [tauto|subst; tauto].
    + apply IH. tauto.
Qed.

Lemma merge_into_ids_unique t s :
  NoDup (flat_map (fun r => match row_player_id T r with Some p => [p] | None => [] end) t) ->
  NoDup (flat_map (fun r => match row_player_id T r with Some p => [p] | None => [] end)
           (merge_into T merged fresh t s)).
Proof.
  intros H. unfold merge_into.
  destruct (row_player_id T s) as [pid|]; [|exact H].
  destruct (find (has_player_id T pid) t) as [row|] eqn:F.
  - rewrite ids_map_same; [exact H|].
    intros r. destruct (has_player_id T pid r); [|reflexivity].
    apply (law_merged_pid _ _ _ L).
  - rewrite flat_map_app. cbn. rewrite (law_fresh_pid _ _ _ L). cbn.
    apply NoDup_snoc; [exact H|now apply find_none_not_in].
Qed.

Lemma merge_all_ids_unique rs : forall t,
  NoDup (flat_map (fun r => match row_player_id T r with Some p => [p] | None => [] end) t) ->
  NoDup (flat_map (fun r => match row_player_id T r with Some p => [p] | None => [] end)
           (merge_all T merged fresh t rs)).
Proof.
  unfold merge_all. induction rs as [|s rs IH]; intros t Ht; cbn [fold_left];
    [exact Ht|].
  apply IH. now apply merge_into_ids_unique.
Qed.

Lemma keeps_ids_unique_generic : keeps_ids_unique T ins.
Proof.
  intros rs w Hw Hnd.
  pose proof (upsert_post T merged fresh L rs w Hw) as H. unfold batch_post in H.
  destruct (ins rs w) as [[n|e] w']; cbn [fst snd] in *.
  - destruct H as (_ & _ & Hc & _). rewrite Hc.
    unfold player_ids, apply_batch. rewrite (law_rows_set _ _ _ L).
    apply merge_all_ids_unique. exact Hnd.
  - destruct H as (_ & Hc & _). now rewrite Hc.
Qed.

Lemma running_max_grows h pid rs :
  running_max merged fresh h -> forall row v,
  h row = Some v ->
  exists row' v',
    fold_left (merge_opt merged fresh pid) rs (Some row) = Some row'
    /\ h row' = Some v' /\ v <= v'.
Proof.
  intros [Hm _]. induction rs as [|s rs IH]; intros row v Hv.
  - exists row, v. cbn. repeat split; [exact Hv|lia].
  - cbn [fold_left merge_opt].
    destruct (IH (merged row s row) (Z.max v (null_as_zero (h s))))
      as (row' & v' & Hr & Hh & Hle).
    { rewrite Hm, Hv. reflexivity. }
    exists row', v'. repeat split; [exact Hr|exact Hh|lia].
Qed.

Lemma never_lowers_generic h :
  running_max merged fresh h -> never_lowers T ins h.
Proof.
  intros Hh rs w pid row v Hw Hrow Hv.
  pose proof (upsert_post T merged fresh L rs w Hw) as H. unfold batch_post in H.
  destruct (ins rs w) as [[n|e] w']; cbn [fst snd] in *.
  - destruct H as (_ & _ & Hc & _).
    rewrite (stored_apply_batch T merged fresh L pid rs w w' Hc), Hrow.
    now apply running_max_grows.
  - destruct H as (_ & Hc & _). exists row, v.
    unfold stored in *. rewrite Hc. repeat split; [exact Hrow|exact Hv|lia].
Qed.

Lemma composite_from_some g pid rs : composite_column merged fresh g ->
  forall (abs : list (Z * Z)) row a b,
  map g rs = map (fun ab => Some (composite ab)) abs ->
  g row = Some (composite (a, b)) ->
  exists row',
    fold_left (merge_opt merged fresh pid) rs (Some row) = Some row'
    /\ g row' = Some (composite (a + sum_fst abs, b + sum_snd abs)).
Proof.
  intros [Hm _]. induction rs as [|s rs IH]; intros abs row a b Hmap Hrow.
  - destruct abs; [|discriminate]. exists row. cbn. split; [reflexivity|].
    rewrite Hrow. unfold sum_fst, sum_snd. cbn. now rewrite !Z.add_0_r.
  - destruct abs as [|[c d] abs]; [discriminate|]. cbn [map] in Hmap.
    injection Hmap as Hs Hmap. cbn [fold_left merge_opt].
    destruct (IH abs (merged row s row) (a + c) (b + d) Hmap) as (row' & Hr & Hg).
    { rewrite Hm, Hrow, Hs. unfold composite. cbn [fst snd].
      apply slash_composites_sum. }
    exists row'. split; [exact Hr|]. rewrite Hg.
    unfold sum_fst, sum_snd. cbn [fold_right fst snd].
    now rewrite !Z.add_assoc.
Qed.

End Frame.

Ltac elsewhere_law :=
  intros l t; unfold same_elsewhere; cbn;
  repeat split; first [left; reflexivity | right; reflexivity].

(** X7.  A batch changes only the table of its category, and in it only
    the rows of the players it carries a record for; whatever fails. *)
Theorem batch_touches_only_its_players :
  touches_only_its_players passing_stats_T insert_passing_stats
  /\ touches_only_its_players rushing_stats_T insert_rushing_stats
  /\ touches_only_its_players receiving_stats_T insert_receiving_stats
  /\ touches_only_its_players fumbles_stats_T insert_fumbles_stats
  /\ touches_only_its_players defensive_stats_T insert_defensive_stats
  /\ touches_only_its_players interceptions_stats_T insert_interceptions_stats.
Proof.
  repeat apply conj.
  - rewrite insert_passing_stats_upsert.
    apply touches_only_generic; [exact passing_laws|elsewhere_law].
  - rewrite insert_rushing_stats_upsert.
    apply touches_only_generic; [exact rushing_laws|elsewhere_law].
  - rewrite insert_receiving_stats_upsert.
    apply touches_only_generic; [exact receiving_laws|elsewhere_law].
  - rewrite insert_fumbles_stats_upsert.
    apply touches_only_generic; [exact fumbles_laws|elsewhere_law].
  - rewrite insert_defensive_stats_upsert.
    apply touches_only_generic; [exact defensive_laws|elsewhere_law].
  - rewrite insert_interceptions_stats_upsert.
    apply touches_only_generic; [exact interceptions_laws|elsewhere_law].
Qed.

(** A line of player 8 merged into a store that holds player 7. *)
Lemma batch_touches_only_its_players_witness :
  let w' := snd (insert_rushing_stats [Sample.other_rusher] Sample.store_with_old_rows) in
  stored rushing_stats_T 7 w' = stored rushing_stats_T 7 Sample.store_with_old_rows
  /\ passing_stats (committed w') = passing_stats (committed Sample.store_with_old_rows).
Proof.
  cbv zeta.
  destruct (proj1 (proj2 batch_touches_only_its_players)
              [Sample.other_rusher] Sample.store_with_old_rows eq_refl) as (He & Hs).
  split.
  - apply Hs. reflexivity.
  - destruct He as ([E|E] & _); [discriminate E|symmetry; exact E].
Defined.

(** X8.  No table ever holds two rows of one player: a batch put into a
    table whose player ids are distinct leaves them distinct, whatever
    fails; and the tables of a reset store have no player at all. *)
Theorem player_ids_stay_unique :
  keeps_ids_unique passing_stats_T insert_passing_stats
  /\ keeps_ids_unique rushing_stats_T insert_rushing_stats
  /\ keeps_ids_unique receiving_stats_T insert_receiving_stats
  /\ keeps_ids_unique fumbles_stats_T insert_fumbles_stats
  /\ keeps_ids_unique defensive_stats_T insert_defensive_stats
  /\ keeps_ids_unique interceptions_stats_T insert_interceptions_stats
  /\ (player_ids passing_stats_T empty_tables = []
      /\ player_ids rushing_stats_T empty_tables = []
      /\ player_ids receiving_stats_T empty_tables = []
      /\ player_ids fumbles_stats_T empty_tables = []
      /\ player_ids defensive_stats_T empty_tables = []
      /\ player_ids interceptions_stats_T empty_tables = []).
Proof.
  repeat apply conj; try reflexivity.
  - rewrite insert_passing_stats_upsert.
    apply keeps_ids_unique_generic, passing_laws.
  - rewrite insert_rushing_stats_upsert.
    apply keeps_ids_unique_generic, rushing_laws.
  - rewrite insert_receiving_stats_upsert.
    apply keeps_ids_unique_generic, receiving_laws.
  - rewrite insert_fumbles_stats_upsert.
    apply keeps_ids_unique_generic, fumbles_laws.
  - rewrite insert_defensive_stats_upsert.
    apply keeps_ids_unique_generic, defensive_laws.
  - rewrite insert_interceptions_stats_upsert.
    apply keeps_ids_unique_generic, interceptions_laws.
Qed.

(** Two lines of player 7 and one of player 8 in one batch. *)
Lemma player_ids_stay_unique_witness :
  let w' := snd (insert_rushing_stats
                   [Sample.rusher_week2; Sample.other_rusher; Sample.rusher_no_longest]
                   Sample.store_with_old_rows) in
  NoDup (player_ids rushing_stats_T (committed w'))
  /\ player_ids rushing_stats_T (committed w') = [7; 8].
Proof.
  cbv zeta. split.
  - apply (proj1 (proj2 player_ids_stay_unique)); [reflexivity|].
    repeat constructor. cbn. tauto.
  - reflexivity.
Defined.

(** X9.  A batch never removes the row of a player and never lowers its
    longest run or longest reception, whatever fails. *)
Theorem longest_never_decreases :
  never_lowers rushing_stats_T insert_rushing_stats Rushing.longest_run
  /\ never_lowers receiving_stats_T insert_receiving_stats Receiving.longest_reception.
Proof.
  split.
  - rewrite insert_rushing_stats_upsert.
    apply never_lowers_generic; [exact rushing_laws|column_law].
  - rewrite insert_receiving_stats_upsert.
    apply never_lowers_generic; [exact receiving_laws|column_law].
Qed.

(** A line without a longest run merged into a row whose longest run is 9. *)
Lemma longest_never_decreases_witness :
  exists row' v',
    stored rushing_stats_T 7
      (snd (insert_rushing_stats [Sample.rusher_no_longest] Sample.store_with_old_rows))
    = Some row'
    /\ Rushing.longest_run row' = Some v' /\ 9 <= v'.
Proof.
  apply (proj1 longest_never_decreases [Sample.rusher_no_longest]
           Sample.store_with_old_rows 7 (rushing_fresh 7 Sample.rusher_week1) 9);
    reflexivity.
Defined.

(** X10.  Completions/attempts add up: when every record that came in for
    a passer carries a composite written ["a/b"] from integers, the stored
    composite after any sequence of batches into a reset store is the sum
    of the completions, a slash, the sum of the attempts. *)
Theorem completions_attempts_add_up :
  forall (pid : Z) (batches : list (list PassingStats)) (tr : list Event)
         (ab : Z * Z) (abs : list (Z * Z)),
    map Passing.completions_attempts
      (records_for passing_stats_T pid (List.concat batches))
    = map (fun ab => Some (composite ab)) (ab :: abs) ->
    exists row,
      stored passing_stats_T pid
        (snd (run_batches insert_passing_stats batches (reset_world tr))) = Some row
      /\ Passing.completions_attempts row
         = Some (composite (sum_fst (ab :: abs), sum_snd (ab :: abs))).
Proof.
  intros pid batches tr [a b] abs Hmap.
  rewrite insert_passing_stats_upsert.
  destruct (run_batches_ok passing_stats_T passing_merged passing_fresh passing_laws
              batches (reset_world tr)) as (w' & Hrun & _ & _ & Hst);
    [reflexivity|reflexivity|].
  rewrite Hrun. cbn [snd].
  rewrite Hst, (stored_reset _ _ _ passing_laws).
  destruct (records_for passing_stats_T pid (List.concat batches)) as [|r rs];
    [discriminate|].
  cbn [map] in Hmap. injection Hmap as Hr Hrs.
  cbn [fold_left merge_opt].
  destruct (composite_from_some passing_merged passing_fresh
              Passing.completions_attempts pid rs) with
      (abs := abs) (row := passing_fresh pid r) (a := a) (b := b)
    as (row' & Hfold & Hg).
  - split; reflexivity.
  - exact Hrs.
  - exact Hr.
  - exists row'. split; [exact Hfold|]. exact Hg.
Qed.

(** Games 401 and 403 of the sample feed: 20/30 and 15/25. *)
Lemma completions_attempts_add_up_witness :
  exists row,
    stored passing_stats_T 1
      (snd (run_batches insert_passing_stats
              [passing_stats_list Sample.stats_401; passing_stats_list Sample.stats_403]
              (reset_world []))) = Some row
    /\ Passing.completions_attempts row = Some "35/55"%string.
Proof.
  apply (completions_attempts_add_up 1
           [passing_stats_list Sample.stats_401; passing_stats_list Sample.stats_403]
           [] (20, 30) [(15, 25)]).
  reflexivity.
Defined.

(** ** The composite as a sum *)

Lemma to_pair_merge existing incoming :
  to_pair (_merge_completions existing incoming)
  = pair_sum (to_pair existing) (to_pair incoming).
Proof.
  rewrite merge_completions_rule.
  destruct (to_pair existing) as [[el|] [er|]], (to_pair incoming) as [[il|] [ir|]];
    cbn [mergeFraction pair_sum null_as_zero];
    first [apply to_pair_slash | apply to_pair_bare | reflexivity].
Qed.

Ltac same_numerals := repeat first [lia | progress f_equal].

Lemma mergeFraction_assoc x y z :
  mergeFraction (pair_sum x y) z = mergeFraction x (pair_sum y z).
Proof.
  destruct x as [[xl|] [xr|]], y as [[yl|] [yr|]], z as [[zl|] [zr|]];
    cbn [mergeFraction pair_sum null_as_zero]; try reflexivity; same_numerals.
Qed.

Lemma mergeFraction_comm x y : mergeFraction x y = mergeFraction y x.
Proof.
  destruct x as [[xl|] [xr|]], y as [[yl|] [yr|]];
    cbn [mergeFraction null_as_zero]; try reflexivity; same_numerals.
Qed.

(** X11.  Merging completions/attempts values is associative and
    commutative, and the decomposition of the merged value is the sum of
    the decompositions: how the games are grouped and ordered does not
    change the merged composite. *)
Theorem merge_completions_is_a_sum :
  (forall a b c,
      _merge_completions (_merge_completions a b) c
      = _merge_completions a (_merge_completions b c))
  /\ (forall a b, _merge_completions a b = _merge_completions b a)
  /\ (forall a b,
        to_pair (_merge_completions a b) = pair_sum (to_pair a) (to_pair b)).
Proof.
  split; [|split].
  - intros a b c.
    rewrite (merge_completions_rule (_merge_completions a b) c).
    rewrite (merge_completions_rule a (_merge_completions b c)).
    rewrite !to_pair_merge. apply mergeFraction_assoc.
  - intros a b. rewrite !merge_completions_rule. apply mergeFraction_comm.
  - exact to_pair_merge.
Qed.

(** ** The counts [insert_all_player_stats] returns *)

Lemma upsert_count {R} (T : Table R) merged fresh (L : TableLaws T merged fresh)
    rs w n w' :
  upsert T merged fresh rs w = (Ok n, w') ->
  n = Z.of_nat (List.length (with_player_id T rs)).
Proof.
  intros H.
  apply (proj2 (proj2 (proj2 (skips_generic T merged fresh L))) rs w n).
  now rewrite H.
Qed.

(** X12.  When [insert_all_player_stats] returns, each of the six counts
    is the number of records of that category that carry a player id. *)
Theorem insert_all_player_stats_counts :
  forall ps w c w',
    insert_all_player_stats ps w = (Ok c, w') ->
    n_passing c
    = Z.of_nat (List.length (with_player_id passing_stats_T (passing_stats_list ps)))
    /\ n_rushing c
       = Z.of_nat (List.length (with_player_id rushing_stats_T (rushing_stats_list ps)))
    /\ n_receiving c
       = Z.of_nat (List.length
                     (with_player_id receiving_stats_T (receiving_stats_list ps)))
    /\ n_fumbles c
       = Z.of_nat (List.length (with_player_id fumbles_stats_T (fumbles_stats_list ps)))
    /\ n_defensive c
       = Z.of_nat (List.length
                     (with_player_id defensive_stats_T (defensive_stats_list ps)))
    /\ n_interceptions c
       = Z.of_nat (List.length
                     (with_player_id interceptions_stats_T
                        (interceptions_stats_list ps))).
Proof.
  intros ps w c w' H.
  unfold insert_all_player_stats, try_except, bind in H.
  rewrite insert_passing_stats_upsert, insert_rushing_stats_upsert,
    insert_receiving_stats_upsert, insert_fumbles_stats_upsert,
    insert_defensive_stats_upsert, insert_interceptions_stats_upsert in H.
  destruct (upsert passing_stats_T _ _ _ w) as [[n1|e] w1] eqn:E1;
    [|cbn in H; discriminate H].
  destruct (upsert rushing_stats_T _ _ _ w1) as [[n2|e] w2] eqn:E2;
    [|cbn in H; discriminate H].
  destruct (upsert receiving_stats_T _ _ _ w2) as [[n3|e] w3] eqn:E3;
    [|cbn in H; discriminate H].
  destruct (upsert fumbles_stats_T _ _ _ w3) as [[n4|e] w4] eqn:E4;
    [|cbn in H; discriminate H].
  destruct (upsert defensive_stats_T _ _ _ w4) as [[n5|e] w5] eqn:E5;
    [|cbn in H; discriminate H].
  destruct (upsert interceptions_stats_T _ _ _ w5) as [[n6|e] w6] eqn:E6;
    [|cbn in H; discriminate H].
  cbn in H. injection H as <- _. cbn [n_passing n_rushing n_receiving n_fumbles
                                       n_defensive n_interceptions].
  repeat split.
  - exact (upsert_count _ _ _ passing_laws _ _ _ _ E1).
  - exact (upsert_count _ _ _ rushing_laws _ _ _ _ E2).
  - exact (upsert_count _ _ _ receiving_laws _ _ _ _ E3).
  - exact (upsert_count _ _ _ fumbles_laws _ _ _ _ E4).
  - exact (upsert_count _ _ _ defensive_laws _ _ _ _ E5).
  - exact (upsert_count _ _ _ interceptions_laws _ _ _ _ E6).
Qed.

(** Game 401 of the sample feed: one passer, one rusher. *)
Lemma insert_all_player_stats_counts_witness :
  exists c w',
    insert_all_player_stats Sample.stats_401 (reset_world []) = (Ok c, w')
    /\ n_passing c = 1 /\ n_rushing c = 1 /\ n_receiving c = 0.
Proof.
  destruct (insert_all_player_stats Sample.stats_401 (reset_world []))
    as [[c|e] w'] eqn:E; [|vm_compute in E; discriminate E].
  exists c, w'.
  destruct (insert_all_player_stats_counts _ _ _ _ E) as (H1 & H2 & H3 & _).
  split; [reflexivity|]. split; [exact H1|]. split; [exact H2|exact H3].
Defined.

(** ** Reading numbers *)

Module PyNumFacts.
Import PyStr PyStrFacts.

Lemma lstrip_spaces sp pre s :
  all_chars sp pre = true -> lstrip sp (pre ++ s) = lstrip sp s.
Proof.
  induction pre as [|c pre IH]; cbn [all_chars append lstrip]; [reflexivity|].
  intros H. apply andb_true_iff in H as [Hc Hp]. now rewrite Hc, IH.
Qed.

Lemma rstrip_all_spaces sp post :
  all_chars sp post = true -> rstrip sp post = EmptyString.
Proof.
  induction post as [|c post IH]; cbn [all_chars rstrip]; [reflexivity|].
  intros H. apply andb_true_iff in H as [Hc Hp]. now rewrite (IH Hp), Hc.
Qed.

Lemma rstrip_spaces sp s post :
  all_chars sp post = true -> rstrip sp (s ++ post) = rstrip sp s.
Proof.
  intros H. induction s as [|c s IH]; cbn [append rstrip].
  - now apply rstrip_all_spaces.
  - now rewrite IH.
Qed.

Lemma digits_not_space s :
  all_chars is_digit s = true ->
  all_chars (fun c => negb (Py_ISSPACE c)) s = true.
Proof.
  apply all_chars_impl. intros c Hc.
  destruct (digit_is_plain c Hc) as (_ & -> & _). reflexivity.
Qed.

Lemma split_sign_digits s :
  all_chars is_digit s = true -> split_sign s = (false, s).
Proof.
  destruct s as [|c r]; [reflexivity|]. cbn [all_chars].
  intros H. apply andb_true_iff in H as [Hc _].
  destruct (digit_is_plain c Hc) as (_ & _ & _ & _ & Hp & Hm).
  unfold split_sign.
  destruct c as [[] [] [] [] [] [] [] []]; try reflexivity; discriminate.
Qed.

Lemma int_padded n pre post :
  all_chars Py_ISSPACE pre = true -> all_chars Py_ISSPACE post = true ->
  int (pre ++ str n ++ post) = Some n.
Proof.
  intros Hpre Hpost. unfold int. rewrite (lstrip_spaces _ _ _ Hpre).
  unfold str. destruct (n <? 0) eqn:E.
  - apply Z.ltb_lt in E. assert (Hn : 0 <= - n) by lia.
    destruct (str_nonneg_digits _ Hn) as [Hd Hne].
    cbn [append]. rewrite lstrip_head by reflexivity. cbn [split_sign].
    rewrite (rstrip_spaces _ _ _ Hpost).
    rewrite rstrip_no_space by now apply digits_not_space.
    rewrite (digits_value_all_digits _ _ Hn eq_refl). f_equal. lia.
  - apply Z.ltb_ge in E.
    destruct (str_nonneg_digits _ E) as [Hd Hne].
    assert (Hl : lstrip Py_ISSPACE (str_nonneg n ++ post) = (str_nonneg n ++ post)%string).
    { destruct (str_nonneg n) as [|c r]; [congruence|].
      cbn [all_chars] in Hd. apply andb_true_iff in Hd as [Hc _].
      cbn [append]. apply lstrip_head.
      now destruct (digit_is_plain c Hc) as (_ & -> & _). }
    rewrite Hl.
    assert (Hs : split_sign (str_nonneg n ++ post) = (false, (str_nonneg n ++ post)%string)).
    { destruct (str_nonneg n) as [|c r]; [congruence|].
      cbn [all_chars] in Hd. apply andb_true_iff in Hd as [Hc _].
      cbn [append]. unfold split_sign.
      destruct (digit_is_plain c Hc) as (_ & _ & _ & _ & Hp & Hm).
      destruct c as [[] [] [] [] [] [] [] []]; try reflexivity; discriminate. }
    rewrite Hs, (rstrip_spaces _ _ _ Hpost).
    rewrite rstrip_no_space by now apply digits_not_space.
    now rewrite (digits_value_all_digits _ _ E eq_refl).
Qed.


(** *** What [float] and [int] make of a stripped token *)

Lemma contains_remove_char c d s :
  contains c s = false -> contains c (remove_char d s) = false.
Proof.
  induction s as [|x s IH]; cbn [contains remove_char]; [reflexivity|].
  destruct (Ascii.eqb x c) eqn:E; [discriminate|]. intros H.
  destruct (Ascii.eqb x d); [now apply IH|].
  cbn [contains]. rewrite E. now apply IH.
Qed.

Lemma contains_lstrip c sp s :
  contains c s = false -> contains c (lstrip sp s) = false.
Proof.
  induction s as [|x s IH]; cbn [contains lstrip]; [reflexivity|].
  destruct (Ascii.eqb x c) eqn:E; [discriminate|]. intros H.
  destruct (sp x); [now apply IH|]. cbn [contains]. now rewrite E.
Qed.

Lemma contains_rstrip c sp s :
  contains c s = false -> contains c (rstrip sp s) = false.
Proof.
  induction s as [|x s IH]; cbn [contains rstrip]; [reflexivity|].
  destruct (Ascii.eqb x c) eqn:E; [discriminate|]. intros H.
  specialize (IH H). destruct (rstrip sp s) as [|y r'].
  - destruct (sp x); cbn [contains]; [reflexivity|now rewrite E].
  - cbn [contains] in *. now rewrite E.
Qed.

Lemma contains_drop_underscores c s : forall prev s1,
  drop_underscores prev s = Some s1 ->
  contains c s = false -> contains c s1 = false.
Proof.
  induction s as [|x s IH]; intros prev s1; cbn [drop_underscores contains].
  - destruct (Ascii.eqb prev "_"); [discriminate|]. now intros [= <-] _.
  - destruct (Ascii.eqb x c) eqn:E; [intros _ H; discriminate H|].
    destruct (Ascii.eqb x "_").
    + destruct (is_digit prev); [|discriminate]. apply IH.
    + destruct (Ascii.eqb prev "_" && negb (is_digit x)); [discriminate|].
      destruct (drop_underscores x s) as [s2|] eqn:D; [|discriminate].
      cbn [option_map]. intros [= <-] H. cbn [contains]. rewrite E.
      now apply (IH x).
Qed.

Lemma split_sign_unsigned s :
  contains "-" s = false -> fst (split_sign s) = false.
Proof.
  destruct s as [|c r]; [reflexivity|]. cbn [contains].
  destruct c as [[] [] [] [] [] [] [] []]; try reflexivity.
  cbn. discriminate.
Qed.

Lemma digit_val_range c : is_digit c = true -> 0 <= digit_val c <= 9.
Proof.
  unfold is_digit, digit_val. intros H.
  apply andb_true_iff in H as [H1 H2].
  apply N.leb_le in H1, H2. lia.
Qed.

Lemma span_digits_prefix s : forall a b,
  span_digits s = (a, b) -> all_chars is_digit a = true.
Proof.
  induction s as [|c s IH]; intros a b; cbn [span_digits].
  - now intros [= <- <-].
  - destruct (is_digit c) eqn:E.
    + destruct (span_digits s) as [a' b'] eqn:S. intros [= <- <-].
      cbn [all_chars]. rewrite E. now apply (IH a' b').
    + now intros [= <- <-].
Qed.

Lemma digits_nat_nonneg s : forall acc,
  all_chars is_digit s = true -> 0 <= acc -> 0 <= digits_nat s acc.
Proof.
  induction s as [|c s IH]; intros acc; cbn [all_chars digits_nat]; [auto|].
  intros H Hacc. apply andb_true_iff in H as [Hc Hs].
  apply IH; [assumption|]. pose proof (digit_val_range c Hc). lia.
Qed.

Lemma parse_decimal_nonneg s m e : parse_decimal s = Some (m, e) -> 0 <= m.
Proof.
  unfold parse_decimal.
  destruct (span_digits s) as [ip r1] eqn:S1.
  assert (Hip : all_chars is_digit ip = true) by exact (span_digits_prefix _ _ _ S1).
  set (p := match r1 with
            | String "."%char r => span_digits r
            | _ => (EmptyString, r1)
            end).
  assert (Hfp : all_chars is_digit (fst p) = true).
  { subst p. destruct r1 as [|c r]; [reflexivity|].
    destruct (Ascii.eqb c ".") eqn:E.
    - apply Ascii.eqb_eq in E. subst c.
      destruct (span_digits r) as [a b] eqn:S2. exact (span_digits_prefix _ _ _ S2).
    - destruct c as [[] [] [] [] [] [] [] []]; try reflexivity.
      rewrite Ascii.eqb_refl in E. discriminate. }
  destruct p as [fp r2]. cbn [fst] in Hfp.
  assert (Hm : 0 <= digits_nat (ip ++ fp) 0).
  { apply digits_nat_nonneg; [|lia]. now rewrite all_chars_app, Hip, Hfp. }
  destruct (String.length ip + String.length fp =? 0)%nat; [discriminate|].
  destruct r2 as [|c r3]; [now intros [= <- _]|].
  destruct (Ascii.eqb (lower c) "e"); [|discriminate].
  destruct (split_sign r3) as [eneg r4]. destruct (span_digits r4) as [ep r5].
  destruct ep; [discriminate|]. destruct r5; [|discriminate].
  now intros [= <- _].
Qed.

Lemma round_double_nonneg neg n d :
  0 <= n -> 0 < d ->
  match round_double neg n d with
  | FFinite neg' m _ => neg' = neg /\ 0 <= m
  | _ => True
  end.
Proof.
  intros Hn Hd. unfold round_double.
  set (k := Z.max _ (-1074)).
  set (num := if 0 <=? k then n else n * 2 ^ (- k)).
  set (den := if 0 <=? k then d * 2 ^ k else d).
  assert (Hnum : 0 <= num).
  { subst num. destruct (0 <=? k); [assumption|].
    apply Z.mul_nonneg_nonneg; [assumption|]. apply Z.pow_nonneg. lia. }
  assert (Hden : 0 < den).
  { subst den. destruct (0 <=? k) eqn:E; [|assumption].
    apply Z.leb_le in E. apply Z.mul_pos_pos; [assumption|].
    apply Z.pow_pos_nonneg; lia. }
  assert (Hq : 0 <= num / den) by (apply Z.div_pos; assumption).
  destruct ((971 <? k) || (k =? 971) && (2 ^ 53 <=? _)); [exact I|].
  split; [reflexivity|].
  destruct ((den <? 2 * (num mod den)) || (2 * (num mod den) =? den) && Z.odd (num / den)); lia.
Qed.

Lemma decimal_to_double_nonneg neg m e :
  0 <= m ->
  match decimal_to_double neg m e with
  | FFinite neg' m' _ => neg' = neg /\ 0 <= m'
  | _ => True
  end.
Proof.
  intros Hm. unfold decimal_to_double.
  destruct (m =? 0); [split; [reflexivity|lia]|].
  destruct (0 <=? e) eqn:E.
  - apply round_double_nonneg; [|lia].
    apply Z.mul_nonneg_nonneg; [assumption|]. apply Z.pow_nonneg. lia.
  - apply Z.leb_gt in E. apply round_double_nonneg; [assumption|].
    apply Z.pow_pos_nonneg; lia.
Qed.

Lemma int_of_float_nonneg m e n :
  0 <= m -> int_of_float (FFinite false m e) = Ok n -> 0 <= n.
Proof.
  intros Hm. cbn [int_of_float]. intros [= <-].
  destruct (0 <=? e) eqn:E.
  - apply Z.mul_nonneg_nonneg; [assumption|]. apply Z.pow_nonneg. lia.
  - apply Z.leb_gt in E. apply Z.div_pos; [assumption|].
    apply Z.pow_pos_nonneg; lia.
Qed.

(** An unsigned token that [float] accepts converts to a number that is
    not negative. *)
Lemma float_unsigned_nonneg s x n :
  contains "-" s = false ->
  float s = Some x -> int_of_float x = Ok n -> 0 <= n.
Proof.
  intros Hs. unfold float.
  destruct (drop_underscores zero s) as [s1|] eqn:D; [|discriminate].
  pose proof (contains_drop_underscores _ _ _ _ D Hs) as H1.
  apply (contains_lstrip _ Py_ISSPACE) in H1.
  apply (contains_rstrip _ Py_ISSPACE) in H1.
  pose proof (split_sign_unsigned _ H1) as Hneg.
  destruct (split_sign _) as [neg body]. cbn [fst] in Hneg. subst neg.
  destruct (String.eqb (lower_str body) "inf" || String.eqb (lower_str body) "infinity").
  { intros [= <-]. discriminate. }
  destruct (String.eqb (lower_str body) "nan").
  { intros [= <-]. discriminate. }
  destruct (parse_decimal body) as [[m e10]|] eqn:P; [|discriminate].
  intros [= <-]. apply parse_decimal_nonneg in P.
  pose proof (decimal_to_double_nonneg false m e10 P) as Hd.
  destruct (decimal_to_double false m e10) as [neg' m' k| |]; try discriminate.
  destruct Hd as [-> Hm']. now apply int_of_float_nonneg.
Qed.


(** *** Plain numerals through [float] *)

Lemma digit_is_plain' c :
  is_digit c = true ->
  Ascii.eqb c "," = false /\ lower c = c
  /\ Ascii.eqb c "i" = false /\ Ascii.eqb c "n" = false.
Proof.
  destruct c as [[] [] [] [] [] [] [] []]; cbv; intros H;
    try discriminate H; repeat split.
Qed.

Lemma remove_char_absent c s :
  all_chars (fun d => negb (Ascii.eqb d c)) s = true -> remove_char c s = s.
Proof.
  induction s as [|d s IH]; cbn [all_chars remove_char]; [reflexivity|].
  intros H. apply andb_true_iff in H as [Hd Hs].
  apply negb_true_iff in Hd. now rewrite Hd, IH.
Qed.

Lemma drop_underscores_digits s : forall prev,
  all_chars is_digit s = true -> Ascii.eqb prev "_" = false ->
  drop_underscores prev s = Some s.
Proof.
  induction s as [|c s IH]; intros prev; cbn [all_chars drop_underscores].
  - now intros _ ->.
  - intros H Hp. apply andb_true_iff in H as [Hc Hs].
    destruct (digit_is_plain c Hc) as (_ & _ & _ & Hu & _).
    rewrite Hu, Hp. cbn [andb]. now rewrite (IH c Hs Hu).
Qed.

Lemma lower_str_digits s : all_chars is_digit s = true -> lower_str s = s.
Proof.
  induction s as [|c s IH]; cbn [all_chars lower_str]; [reflexivity|].
  intros H. apply andb_true_iff in H as [Hc Hs].
  destruct (digit_is_plain' c Hc) as (_ & -> & _). now rewrite IH.
Qed.

Lemma span_digits_digits s :
  all_chars is_digit s = true -> span_digits s = (s, EmptyString).
Proof.
  induction s as [|c s IH]; cbn [all_chars span_digits]; [reflexivity|].
  intros H. apply andb_true_iff in H as [Hc Hs]. now rewrite Hc, IH.
Qed.

Lemma digits_value_nat s : forall acc,
  all_chars is_digit s = true ->
  digits_value s true acc = Some (digits_nat s acc).
Proof.
  induction s as [|c s IH]; intros acc; cbn [all_chars digits_value digits_nat];
    [reflexivity|].
  intros H. apply andb_true_iff in H as [Hc Hs]. rewrite Hc. now apply IH.
Qed.

Lemma digits_nat_str_nonneg n : 0 <= n -> digits_nat (str_nonneg n) 0 = n.
Proof.
  intros Hn. destruct (str_nonneg_digits n Hn) as [Hd Hne].
  pose proof (digits_value_all_digits _ n Hn eq_refl) as H.
  destruct (str_nonneg n) as [|c r]; [congruence|].
  cbn [all_chars] in Hd. apply andb_true_iff in Hd as [Hc Hr].
  cbn [digits_value] in H. rewrite Hc in H.
  rewrite digits_value_nat in H by assumption.
  cbn [digits_nat]. congruence.
Qed.

Lemma parse_decimal_str_nonneg n :
  0 <= n -> parse_decimal (str_nonneg n) = Some (n, 0).
Proof.
  intros Hn. destruct (str_nonneg_digits n Hn) as [Hd Hne].
  unfold parse_decimal. rewrite (span_digits_digits _ Hd).
  rewrite append_nil_r, (digits_nat_str_nonneg n Hn).
  destruct (str_nonneg n) as [|c r]; [congruence|]. reflexivity.
Qed.

(** Below [2^53] an integer is a double: rounding leaves it alone. *)
Lemma round_double_exact n :
  0 < n < 2 ^ 53 -> int_of_float (round_double false n 1) = Ok n.
Proof.
  intros Hn.
  assert (HL : 0 <= Z.log2 n < 53).
  { split; [apply Z.log2_nonneg|]. apply Z.log2_lt_pow2; lia. }
  destruct (Z.log2_spec n) as [Hlo Hhi]; [lia|].
  unfold round_double. change (Z.log2 1) with 0.
  replace (Z.log2 n - 0 - 52) with (Z.log2 n - 52) by lia.
  remember (Z.log2 n - 52) as k0 eqn:Hk0.
  destruct (Z.eq_dec k0 0) as [Hz|Hz].
  - rewrite Hz. change (0 <=? 0) with true. cbv iota.
    change (1 * 2 ^ 0) with 1. rewrite Z.div_1_r.
    assert (E : (n <? 2 ^ 52) = false).
    { apply Z.ltb_ge. replace (Z.log2 n) with 52 in Hlo by lia. exact Hlo. }
    rewrite E. change (Z.max 0 (-1074)) with 0.
    change (0 <=? 0) with true. cbv iota.
    change (1 * 2 ^ 0) with 1. rewrite Z.div_1_r, Z.mod_1_r.
    change (2 * 0) with 0. change (1 <? 0) with false. change (0 =? 1) with false.
    change (971 <? 0) with false. change (0 =? 971) with false.
    cbn [orb andb int_of_float]. change (0 <=? 0) with true. cbv iota.
    f_equal. change (2 ^ 0) with 1. lia.
  - assert (Hneg : k0 < 0) by lia.
    assert (E1 : (0 <=? k0) = false) by (apply Z.leb_gt; lia).
    rewrite E1. rewrite Z.div_1_r.
    assert (E2 : (n * 2 ^ (- k0) <? 2 ^ 52) = false).
    { apply Z.ltb_ge.
      replace 52 with (Z.log2 n + (- k0)) at 1 by lia.
      rewrite Z.pow_add_r by lia.
      apply Z.mul_le_mono_nonneg_r; [apply Z.pow_nonneg; lia|exact Hlo]. }
    rewrite E2. rewrite Z.max_l by lia. rewrite E1.
    rewrite Z.div_1_r, Z.mod_1_r.
    change (2 * 0) with 0. change (1 <? 0) with false. change (0 =? 1) with false.
    assert (E3 : (971 <? k0) = false) by (apply Z.ltb_ge; lia).
    assert (E4 : (k0 =? 971) = false) by (apply Z.eqb_neq; lia).
    rewrite E3, E4. cbn [orb andb int_of_float]. rewrite E1.
    f_equal. apply Z.div_mul.
    apply Z.pow_nonzero; lia.
Qed.

Lemma float_str_nonneg n :
  0 <= n -> float (str_nonneg n) = Some (decimal_to_double false n 0).
Proof.
  intros Hn. destruct (str_nonneg_digits n Hn) as [Hd Hne].
  unfold float. rewrite (drop_underscores_digits _ zero Hd eq_refl).
  rewrite lstrip_no_space by now apply digits_not_space.
  rewrite rstrip_no_space by now apply digits_not_space.
  rewrite (split_sign_digits _ Hd), (lower_str_digits _ Hd).
  rewrite (parse_decimal_str_nonneg n Hn).
  destruct (str_nonneg n) as [|c r]; [congruence|].
  cbn [all_chars] in Hd. apply andb_true_iff in Hd as [Hc _].
  destruct (digit_is_plain' c Hc) as (_ & _ & Hi & Hnn).
  cbn [String.eqb]. now rewrite Hi, Hnn.
Qed.

Lemma digits_no (c : ascii) s :
  (forall d, is_digit d = true -> Ascii.eqb d c = false) ->
  all_chars is_digit s = true ->
  all_chars (fun d => negb (Ascii.eqb d c)) s = true.
Proof.
  intros Hc. apply all_chars_impl. intros d Hd. now rewrite (Hc d Hd).
Qed.

End PyNumFacts.

(** X13.  [_to_int] reads back every integer that [str] writes, negative
    ones included, also with whitespace around it; [_int_or_zero] agrees. *)
Theorem to_int_reads_back_str :
  forall (n : Z) (pre post : string),
    all_chars PyStr.Py_ISSPACE pre = true ->
    all_chars PyStr.Py_ISSPACE post = true ->
    _to_int (PyStr (pre ++ PyStr.str n ++ post)) = Some n
    /\ _int_or_zero (PyStr (pre ++ PyStr.str n ++ post)) = n.
Proof.
  intros n pre post Hpre Hpost.
  assert (H : _to_int (PyStr (pre ++ PyStr.str n ++ post)) = Some n).
  { cbn [_to_int]. now rewrite PyNumFacts.int_padded. }
  split; [exact H|]. unfold _int_or_zero. now rewrite H.
Qed.

Lemma to_int_reads_back_str_witness :
  _to_int (PyStr (" " ++ PyStr.str (-1204) ++ "  ")) = Some (-1204)
  /\ _to_int (PyStr (PyStr.str 98)) = Some 98.
Proof.
  split.
  - apply (to_int_reads_back_str (-1204) " " "  "); reflexivity.
  - apply (to_int_reads_back_str 98 "" ""); reflexivity.
Defined.

(** X14.  Whatever text [_parse_int] is given, the number it returns is
    never negative: a minus sign anywhere makes the token a composite. *)
Theorem parse_int_of_text_is_never_negative :
  forall (s : string) (n : Z),
    _parse_int (PyStr s) = Ok (Some n) -> 0 <= n.
Proof.
  intros s n. cbn [_parse_int].
  destruct (PyStr.contains "-" (PyStr.strip s)) eqn:Hm; [discriminate|].
  cbn [orb].
  destruct (PyStr.contains "/" (PyStr.strip s)); [discriminate|].
  destruct (PyStr.float _) as [x|] eqn:F; [|discriminate].
  destruct (PyStr.int_of_float x) as [k|e] eqn:I.
  - intros [= <-].
    eapply PyNumFacts.float_unsigned_nonneg; [|exact F|exact I].
    now apply PyNumFacts.contains_remove_char.
  - destruct e; discriminate.
Qed.

Lemma parse_int_of_text_is_never_negative_witness :
  _parse_int (PyStr " 1,234.9 ") = Ok (Some 1234) /\ 0 <= 1234.
Proof.
  assert (H : _parse_int (PyStr " 1,234.9 ") = Ok (Some 1234))
    by (vm_compute; reflexivity).
  split; [exact H|].
  exact (parse_int_of_text_is_never_negative " 1,234.9 " 1234 H).
Defined.

(** X15.  A numeral with a minus sign is not read as a number by
    [_parse_int]: every negative integer written by [str] comes back as
    null. *)
Theorem parse_int_drops_negative_numerals :
  forall n : Z, n < 0 -> _parse_int (PyStr (PyStr.str n)) = Ok None.
Proof.
  intros n Hn. cbn [_parse_int].
  rewrite PyStrFacts.strip_no_space by apply PyStrFacts.str_no_space.
  unfold PyStr.str. destruct (n <? 0) eqn:E; [|apply Z.ltb_ge in E; lia].
  cbn [PyStr.contains]. reflexivity.
Qed.

Lemma parse_int_drops_negative_numerals_witness :
  _parse_int (PyStr (PyStr.str (-7))) = Ok None.
Proof. apply (parse_int_drops_negative_numerals (-7)). lia. Defined.

(** X16.  Below [2^53] the detour through [float] loses nothing:
    [_parse_int] reads back every such integer that [str] writes. *)
Theorem parse_int_reads_back_str :
  forall n : Z, 0 <= n < 2 ^ 53 -> _parse_int (PyStr (PyStr.str n)) = Ok (Some n).
Proof.
  intros n Hn. cbn [_parse_int].
  rewrite PyStrFacts.strip_no_space by apply PyStrFacts.str_no_space.
  unfold PyStr.str. destruct (n <? 0) eqn:E; [apply Z.ltb_lt in E; lia|].
  destruct (PyStrFacts.str_nonneg_digits n) as [Hd Hne]; [lia|].
  rewrite (PyStrFacts.contains_absent "-")
    by (apply PyNumFacts.digits_no; [|exact Hd]; intros d H;
        now destruct (PyStrFacts.digit_is_plain d H) as (_ & _ & _ & _ & _ & ->)).
  rewrite (PyStrFacts.contains_absent "/")
    by (apply PyNumFacts.digits_no; [|exact Hd]; intros d H;
        now destruct (PyStrFacts.digit_is_plain d H) as (_ & _ & -> & _)).
  cbn [orb].
  rewrite PyNumFacts.remove_char_absent
    by (apply PyNumFacts.digits_no; [|exact Hd]; intros d H;
        now destruct (PyNumFacts.digit_is_plain' d H) as (-> & _)).
  rewrite PyNumFacts.float_str_nonneg by lia.
  unfold PyStr.decimal_to_double. destruct (n =? 0) eqn:Z0.
  - apply Z.eqb_eq in Z0. subst n. reflexivity.
  - apply Z.eqb_neq in Z0. change (0 <=? 0) with true. cbv iota.
    change (10 ^ 0) with 1. rewrite Z.mul_1_r.
    rewrite PyNumFacts.round_double_exact by lia. reflexivity.
Qed.

Lemma parse_int_reads_back_str_witness :
  _parse_int (PyStr (PyStr.str 4096)) = Ok (Some 4096).
Proof. apply (parse_int_reads_back_str 4096). lia. Defined.

(** ** What the extractor makes of a game summary *)

Lemma rfold_collect {A S X} (f : S -> list X) (g : A -> list X)
    (body : S -> A -> result S) (xs : list A) :
  (forall acc x acc', body acc x = Ok acc' -> f acc' = f acc ++ g x) ->
  forall acc acc', rfold xs acc body = Ok acc' -> f acc' = f acc ++ flat_map g xs.
Proof.
  intros Hb. induction xs as [|x xs IH]; intros acc acc'; cbn [rfold flat_map].
  - intros [= <-]. now rewrite app_nil_r.
  - unfold rbind. destruct (body acc x) as [a|e] eqn:E; [|discriminate].
    intros H. rewrite (IH _ _ H), (Hb _ _ _ E). now rewrite app_assoc.
Qed.

Lemma rfold_never_ok {A S} (body : S -> A -> result S) (xs : list A) (x : A) :
  In x xs -> (forall acc r, body acc x <> Ok r) ->
  forall acc r, rfold xs acc body <> Ok r.
Proof.
  intros Hin Hx. induction xs as [|y xs IH]; [destruct Hin|].
  intros acc r. cbn [rfold]. unfold rbind.
  destruct (body acc y) as [a|e] eqn:E; [|discriminate].
  destruct Hin as [->|Hin]; [now apply Hx in E|]. now apply IH.
Qed.

Lemma flat_map_singleton {A B} (f : A -> B) (xs : list A) :
  flat_map (fun a => [f a]) xs = map f xs.
Proof. induction xs as [|x xs IH]; cbn; [reflexivity|now rewrite IH]. Qed.

Lemma flat_map_nothing {A B} (xs : list A) :
  flat_map (fun _ : A => @nil B) xs = [].
Proof. induction xs as [|x xs IH]; cbn; [reflexivity|exact IH]. Qed.

Lemma name_is_true g n : name_is g n = true -> Payload.name g = Some n.
Proof.
  unfold name_is. destruct (Payload.name g) as [m|]; [|discriminate].
  intros H. apply String.eqb_eq in H. now subst.
Qed.

(** Each extracted record carries the team of its entry and the id of its
    athlete. *)
Ltac record_keys :=
  intros H; unfold rbind in H;
  repeat match type of H with
         | match ?x with _ => _ end = _ => destruct x; try discriminate H
         end;
  injection H as <-; split; reflexivity.

Lemma passing_of_athlete_keys tid tn a r :
  passing_of_athlete tid tn a = Ok r ->
  Passing.team_id r = tid /\ Passing.player_id r = Payload.id a.
Proof. unfold passing_of_athlete. record_keys. Qed.

Lemma rushing_of_athlete_keys tid tn a r :
  rushing_of_athlete tid tn a = Ok r ->
  Rushing.team_id r = tid /\ Rushing.player_id r = Payload.id a.
Proof. unfold rushing_of_athlete. record_keys. Qed.

Lemma receiving_of_athlete_keys tid tn a r :
  receiving_of_athlete tid tn a = Ok r ->
  Receiving.team_id r = tid /\ Receiving.player_id r = Payload.id a.
Proof. unfold receiving_of_athlete. record_keys. Qed.

Lemma fumbles_of_athlete_keys tid tn a r :
  fumbles_of_athlete tid tn a = Ok r ->
  Fumbles.team_id r = tid /\ Fumbles.player_id r = Payload.id a.
Proof. unfold fumbles_of_athlete. record_keys. Qed.

Lemma defensive_of_athlete_keys tid tn a r :
  defensive_of_athlete tid tn a = Ok r ->
  Defensive.team_id r = tid /\ Defensive.player_id r = Payload.id a.
Proof. unfold defensive_of_athlete. record_keys. Qed.

Lemma interceptions_of_athlete_keys tid tn a r :
  interceptions_of_athlete tid tn a = Ok r ->
  Interceptions.team_id r = tid /\ Interceptions.player_id r = Payload.id a.
Proof. unfold interceptions_of_athlete. record_keys. Qed.

(** One athlete of a group: the record goes to the list of that group and
    to no other. *)
Ltac one_athlete keys :=
  let acc := fresh "acc" in let a := fresh "a" in let acc' := fresh "acc'" in
  let H := fresh "H" in let r := fresh "r" in let E := fresh "E" in
  let K1 := fresh "K" in let K2 := fresh "K" in
  intros acc a acc' H; unfold rbind in H;
  match type of H with
  | match ?x with _ => _ end = _ => destruct x as [r|] eqn:E; [|discriminate H]
  end;
  injection H as <-; destruct (keys _ _ _ _ E) as [K1 K2];
  cbn [extracted passing_stats_list rushing_stats_list receiving_stats_list
       fumbles_stats_list defensive_stats_list interceptions_stats_list];
  rewrite ?map_app, ?app_nil_r; cbn [map]; rewrite ?K1, ?K2; reflexivity.

(** One stat group. *)
Lemma group_collect (c : TableName) (tid : option Z) (tn : option string) :
  forall acc g acc',
    (if name_is g "passing" then
       rfold (Payload.athletes g) acc (fun acc athlete =>
         (r <- passing_of_athlete tid tn athlete ;;
          Ok (mkPlayerStats (passing_stats_list acc ++ [r]) (rushing_stats_list acc)
                (receiving_stats_list acc) (fumbles_stats_list acc)
                (defensive_stats_list acc) (interceptions_stats_list acc)))%res)
     else if name_is g "rushing" then
       rfold (Payload.athletes g) acc (fun acc athlete =>
         (r <- rushing_of_athlete tid tn athlete ;;
          Ok (mkPlayerStats (passing_stats_list acc) (rushing_stats_list acc ++ [r])
                (receiving_stats_list acc) (fumbles_stats_list acc)
                (defensive_stats_list acc) (interceptions_stats_list acc)))%res)
     else if name_is g "receiving" then
       rfold (Payload.athletes g) acc (fun acc athlete =>
         (r <- receiving_of_athlete tid tn athlete ;;
          Ok (mkPlayerStats (passing_stats_list acc) (rushing_stats_list acc)
                (receiving_stats_list acc ++ [r]) (fumbles_stats_list acc)
                (defensive_stats_list acc) (interceptions_stats_list acc)))%res)
     else if name_is g "fumbles" then
       rfold (Payload.athletes g) acc (fun acc athlete =>
         (r <- fumbles_of_athlete tid tn athlete ;;
          Ok (mkPlayerStats (passing_stats_list acc) (rushing_stats_list acc)
                (receiving_stats_list acc) (fumbles_stats_list acc ++ [r])
                (defensive_stats_list acc) (interceptions_stats_list acc)))%res)
     else if name_is g "defensive" then
       rfold (Payload.athletes g) acc (fun acc athlete =>
         (r <- defensive_of_athlete tid tn athlete ;;
          Ok (mkPlayerStats (passing_stats_list acc) (rushing_stats_list acc)
                (receiving_stats_list acc) (fumbles_stats_list acc)
                (defensive_stats_list acc ++ [r]) (interceptions_stats_list acc)))%res)
     else if name_is g "interceptions" then
       rfold (Payload.athletes g) acc (fun acc athlete =>
         (r <- interceptions_of_athlete tid tn athlete ;;
          Ok (mkPlayerStats (passing_stats_list acc) (rushing_stats_list acc)
                (receiving_stats_list acc) (fumbles_stats_list acc)
                (defensive_stats_list acc) (interceptions_stats_list acc ++ [r])))%res)
     else Ok acc) = Ok acc' ->
    extracted c acc' =
    extracted c acc ++
      (if name_is g (group_name c)
       then map (fun a => (tid, Payload.id a)) (Payload.athletes g) else []).
Proof.
  intros acc g acc'.
  destruct (name_is g "passing") eqn:N1;
    [|destruct (name_is g "rushing") eqn:N2;
      [|destruct (name_is g "receiving") eqn:N3;
        [|destruct (name_is g "fumbles") eqn:N4;
          [|destruct (name_is g "defensive") eqn:N5;
            [|destruct (name_is g "interceptions") eqn:N6]]]]];
    intros H.
  7: { injection H as <-.
       destruct c; cbn [group_name]; rewrite ?N1, ?N2, ?N3, ?N4, ?N5, ?N6;
         now rewrite app_nil_r. }
  all: match goal with
       | N : name_is ?x _ = true |- _ =>
           pose proof (name_is_true _ _ N) as Hname
       end;
       unfold name_is; rewrite Hname;
       destruct c; cbn [group_name String.eqb Ascii.eqb Bool.eqb andb];
       first
         [ rewrite <- flat_map_singleton;
           revert H; apply rfold_collect;
           first [ one_athlete passing_of_athlete_keys
                 | one_athlete rushing_of_athlete_keys
                 | one_athlete receiving_of_athlete_keys
                 | one_athlete fumbles_of_athlete_keys
                 | one_athlete defensive_of_athlete_keys
                 | one_athlete interceptions_of_athlete_keys ]
         | match goal with
           | H0 : rfold ?l _ _ = _ |- _ => rewrite <- (flat_map_nothing l)
           end;
           revert H; apply rfold_collect;
           first [ one_athlete passing_of_athlete_keys
                 | one_athlete rushing_of_athlete_keys
                 | one_athlete receiving_of_athlete_keys
                 | one_athlete fumbles_of_athlete_keys
                 | one_athlete defensive_of_athlete_keys
                 | one_athlete interceptions_of_athlete_keys ] ].
Qed.

(** X17.  [get_player_stats] emits exactly one record per athlete listed
    under a recognised stat group, in document order and with the team of
    the enclosing entry; groups with other names contribute nothing. *)
Theorem one_record_per_listed_athlete :
  forall (data : Payload.GameJson) (ps : PlayerStats) (c : TableName),
    extract_player_stats data = Ok ps ->
    extracted c ps = listed (group_name c) data.
Proof.
  intros data ps c H. unfold extract_player_stats in H.
  replace (listed (group_name c) data)
    with (extracted c (mkPlayerStats [] [] [] [] [] []) ++ listed (group_name c) data)
    by (destruct c; reflexivity).
  revert H. unfold listed. apply rfold_collect.
  intros acc player acc'. apply rfold_collect.
  intros acc0 g acc0'. apply group_collect.
Qed.

Lemma one_record_per_listed_athlete_witness :
  extracted rushing_stats_tbl Sample.stats_403 = [(Some 34, Some 7)].
Proof.
  assert (H : extract_player_stats Sample.game_403 = Ok Sample.stats_403)
    by (vm_compute; reflexivity).
  exact (one_record_per_listed_athlete Sample.game_403 Sample.stats_403
           rushing_stats_tbl H).
Defined.

Lemma passing_empty_stats tid tn a :
  Payload.stats a = Some [] -> passing_of_athlete tid tn a = Raise IndexError.
Proof.
  intros H. unfold passing_of_athlete, stats_or_empty, first_stat.
  rewrite H. reflexivity.
Qed.

(** X18.  A passing line whose [stats] array is present but empty makes
    the extraction of the whole game fail: no list of records is
    returned, whatever else the summary holds. *)
Theorem empty_passing_line_fails_the_game :
  forall data : Payload.GameJson,
    has_empty_passing_line data ->
    forall ps, extract_player_stats data <> Ok ps.
Proof.
  intros data (player & g & a & Hp & Hg & Hn & Ha & Hs).
  unfold extract_player_stats.
  apply (rfold_never_ok _ _ player Hp). intros acc r.
  apply (rfold_never_ok _ _ g Hg). intros acc0 r0.
  rewrite Hn.
  apply (rfold_never_ok _ _ a Ha). intros acc1 r1.
  now rewrite (passing_empty_stats _ _ _ Hs).
Qed.

Lemma empty_passing_line_fails_the_game_witness :
  extract_player_stats Sample.game_404 <> Ok (mkPlayerStats [] [] [] [] [] []).
Proof.
  apply (empty_passing_line_fails_the_game Sample.game_404).
  exists Sample.texans_404, Sample.passing_404, Sample.benched.
  refine (conj _ (conj _ (conj _ (conj _ _)))).
  - left. reflexivity.
  - right. left. reflexivity.
  - reflexivity.
  - left. reflexivity.
  - reflexivity.
Defined.

(** ** Game ids from the links of a schedule page *)

Module HrefFacts.
Import PyStr PyStrFacts Href.

Lemma startswith_refl_app p s : startswith p (p ++ s) = true.
Proof.
  induction p as [|c p IH]; cbn [append startswith]; [reflexivity|].
  now rewrite Ascii.eqb_refl, IH.
Qed.

Lemma startswith_long p : forall a b,
  (String.length p <= String.length a)%nat ->
  startswith p (a ++ b) = startswith p a.
Proof.
  induction p as [|c p IH]; intros a b H; [reflexivity|].
  destruct a as [|d a]; [cbn in H; lia|].
  cbn [append startswith]. rewrite IH; [reflexivity|]. cbn in H. lia.
Qed.

Lemma has_sub_app needle pre s :
  startswith needle s = true -> has_sub needle (pre ++ s) = true.
Proof.
  intros H. induction pre as [|c pre IH]; cbn [append].
  - destruct s; cbn [has_sub]; now rewrite H.
  - cbn [has_sub]. rewrite IH. apply orb_true_r.
Qed.

Lemma has_sub_cons needle c s :
  has_sub needle (String c s) = false ->
  startswith needle (String c s) = false /\ has_sub needle s = false.
Proof. cbn [has_sub]. intros H. now apply orb_false_iff in H. Qed.

Lemma length_app a b :
  String.length (a ++ b) = (String.length a + String.length b)%nat.
Proof. induction a as [|c a IH]; cbn; [reflexivity|now rewrite IH]. Qed.

(** Passing over the rest of a matched separator. *)
Lemma split_scan_skip sep p : forall cur s,
  split_scan sep (String.length p) cur (p ++ s) = split_scan sep 0 cur s.
Proof.
  induction p as [|c p IH]; intros cur s; cbn [String.length append].
  - reflexivity.
  - cbn [split_scan]. apply IH.
Qed.

(** Without an occurrence of the separator there is one piece. *)
Lemma split_scan_absent sep s : forall cur,
  has_sub sep s = false -> split_scan sep 0 cur s = [(cur ++ s)%string].
Proof.
  induction s as [|c s IH]; intros cur H; cbn [split_scan].
  - now rewrite append_nil_r.
  - apply has_sub_cons in H as [H1 H2]. rewrite H1, (IH _ H2).
    now rewrite append_assoc.
Qed.

(** The first piece is what precedes the first occurrence.  [init] is the
    separator without its last character: no occurrence starts in [pre]
    when [pre ++ init] holds none. *)
Lemma split_scan_first c0 sep' init last pre : forall cur tail,
  String c0 sep' = (init ++ String last EmptyString)%string ->
  has_sub (String c0 sep') (pre ++ init) = false ->
  split_scan (String c0 sep') 0 cur (pre ++ String c0 sep' ++ tail)
  = (cur ++ pre)%string :: split_scan (String c0 sep') 0 EmptyString tail.
Proof.
  intros cur tail Hsep. revert cur.
  induction pre as [|c pre IH]; intros cur H.
  - cbn [append]. cbn [split_scan].
    change (String c0 (sep' ++ tail)) with (String c0 sep' ++ tail)%string.
    rewrite startswith_refl_app.
    replace (String.length (String c0 sep') - 1)%nat with (String.length sep')
      by (cbn [String.length]; lia).
    rewrite split_scan_skip.
    now rewrite append_nil_r.
  - change (String c pre ++ init)%string with (String c (pre ++ init)) in H.
    apply has_sub_cons in H as [H1 H2].
    remember (String c0 sep' ++ tail)%string as rest eqn:Hrest.
    change (String c pre ++ rest)%string with (String c (pre ++ rest)).
    cbn [split_scan].
    assert (E : startswith (String c0 sep') (String c (pre ++ rest)) = false).
    { rewrite <- H1. subst rest.
      change (String c (pre ++ String c0 sep' ++ tail))
        with (String c pre ++ (String c0 sep' ++ tail))%string.
      rewrite Hsep, append_assoc, <- (append_assoc (String c pre) init).
      change (String c (pre ++ init)) with (String c pre ++ init)%string.
      apply startswith_long.
      rewrite !length_app. cbn [String.length]. lia. }
    rewrite E. subst rest. rewrite (IH _ H2). now rewrite append_assoc.
Qed.

(** The first piece always extends what was read so far. *)
Lemma split_scan_head sep s : forall cur,
  exists x more, split_scan sep 0 cur s = (cur ++ x)%string :: more.
Proof.
  induction s as [|c s IH]; intros cur; cbn [split_scan].
  - exists EmptyString, []. now rewrite append_nil_r.
  - destruct (startswith sep (String c s)).
    + exists EmptyString. eexists. now rewrite append_nil_r.
    + destruct (IH (cur ++ String c EmptyString)%string) as (x & more & ->).
      exists (String c x), more. now rewrite append_assoc.
Qed.

Lemma digits_without (needle_head : ascii) needle' s :
  is_digit needle_head = false ->
  all_chars is_digit s = true ->
  has_sub (String needle_head needle') s = false.
Proof.
  intros Hh. induction s as [|c s IH]; cbn [all_chars]; [reflexivity|].
  intros H. apply andb_true_iff in H as [Hc Hs].
  cbn [has_sub startswith]. rewrite (IH Hs).
  destruct (Ascii.eqb needle_head c) eqn:E; [|reflexivity].
  apply Ascii.eqb_eq in E. congruence.
Qed.

(** A run of digits is read up to the slash that ends it, or to the end. *)
Lemma split_slash_digits gid tail :
  all_chars is_digit gid = true ->
  nth_error (split "/" (gid ++ String "/" tail)) 0 = Some gid
  /\ nth_error (split "/" gid) 0 = Some gid.
Proof.
  intros Hd. unfold split. split.
  - change (String "/" tail) with (String "/" EmptyString ++ tail)%string.
    rewrite (split_scan_first "/" EmptyString EmptyString "/" gid EmptyString tail eq_refl).
    + reflexivity.
    + rewrite append_nil_r. now apply digits_without.
  - rewrite split_scan_absent by now apply digits_without. reflexivity.
Qed.

(** The second piece of an href cut at ["gameId/"], when digits follow the
    first occurrence. *)
Lemma split_game_id pre gid tail :
  has_sub "gameId/" (pre ++ "gameId") = false ->
  all_chars is_digit gid = true ->
  tail = EmptyString \/ startswith "/" tail = true ->
  exists t, nth_error (split "gameId/" (pre ++ "gameId/" ++ gid ++ tail)) 1 = Some t
            /\ nth_error (split "/" t) 0 = Some gid.
Proof.
  intros Hpre Hd Htail. unfold split at 1.
  rewrite (split_scan_first "g" "ameId/" "gameId" "/" pre EmptyString _ eq_refl Hpre).
  cbn [nth_error].
  assert (Hscan : forall cur s,
             split_scan "gameId/" 0 cur (gid ++ s)
             = split_scan "gameId/" 0 (cur ++ gid) s).
  { clear Htail. induction gid as [|c gid IH]; intros cur s.
    - now rewrite append_nil_r.
    - cbn [all_chars] in Hd. apply andb_true_iff in Hd as [Hc Hg].
      cbn [append split_scan startswith].
      assert (E : Ascii.eqb "g" c = false).
      { destruct (Ascii.eqb "g" c) eqn:E; [|reflexivity].
        apply Ascii.eqb_eq in E. subst c. discriminate Hc. }
      rewrite E. cbn [andb]. rewrite (IH Hg). now rewrite append_assoc. }
  rewrite Hscan. cbn [append].
  destruct Htail as [->|Hs].
  - cbn [split_scan nth_error]. exists gid. split; [reflexivity|].
    now apply split_slash_digits.
  - destruct tail as [|c tail]; [discriminate|].
    cbn [startswith] in Hs. apply andb_true_iff in Hs as [Hc _].
    apply Ascii.eqb_eq in Hc. subst c.
    cbn [split_scan startswith Ascii.eqb Bool.eqb andb].
    destruct (split_scan_head "gameId/" tail (gid ++ "/")) as (x & more & ->).
    cbn [nth_error]. eexists. split; [reflexivity|].
    rewrite append_assoc. cbn [append].
    now apply split_slash_digits.
Qed.

End HrefFacts.

(** X19.  When the first ["gameId/"] of an href is followed by a run of
    digits that ends the href or is followed by a slash, [get_game_ids]
    takes exactly those digits as the game id. *)
Theorem href_game_id_reads_the_digits :
  forall pre gid tail : string,
    Href.has_sub "gameId/" (pre ++ "gameId") = false ->
    all_chars PyStr.is_digit gid = true ->
    tail = EmptyString \/ Href.startswith "/" tail = true ->
    href_game_id (pre ++ "gameId/" ++ gid ++ tail) = Ok (Some gid).
Proof.
  intros pre gid tail Hpre Hd Htail. unfold href_game_id.
  assert (Hin : Href.has_sub "gameId" (pre ++ "gameId/" ++ gid ++ tail) = true).
  { apply HrefFacts.has_sub_app. reflexivity. }
  rewrite Hin.
  destruct (HrefFacts.split_game_id pre gid tail Hpre Hd Htail) as (t & -> & ->).
  reflexivity.
Qed.

Lemma href_game_id_reads_the_digits_witness :
  href_game_id "/nfl/game/_/gameId/401772510/cowboys-eagles" = Ok (Some "401772510"%string).
Proof.
  apply (href_game_id_reads_the_digits "/nfl/game/_/" "401772510" "/cowboys-eagles").
  - vm_compute. reflexivity.
  - vm_compute. reflexivity.
  - right. reflexivity.
Defined.

Lemma href_without_slash_form s :
  Href.has_sub "gameId" s = true -> Href.has_sub "gameId/" s = false ->
  href_game_id s = Raise IndexError.
Proof.
  intros H1 H2. unfold href_game_id, Href.split. rewrite H1.
  now rewrite HrefFacts.split_scan_absent.
Qed.

Lemma href_game_id_raises_only_IndexError s e :
  href_game_id s = Raise e -> e = IndexError.
Proof.
  unfold href_game_id. destruct (Href.has_sub "gameId" s); [|discriminate].
  destruct (nth_error (Href.split "gameId/" s) 1) as [t|]; [|now intros [= <-]].
  destruct (nth_error (Href.split "/" t) 0); [discriminate|now intros [= <-]].
Qed.

Lemma rfold_raises_in {A S} (body : S -> A -> result S) (xs : list A) (x : A) (e : exn) :
  In x xs -> (forall acc, body acc x = Raise e) ->
  (forall acc y e', body acc y = Raise e' -> e' = e) ->
  forall acc, rfold xs acc body = Raise e.
Proof.
  intros Hin Hx Honly. induction xs as [|y xs IH]; [destruct Hin|].
  intros acc. cbn [rfold]. unfold rbind.
  destruct (body acc y) as [a|e'] eqn:E.
  - destruct Hin as [->|Hin]; [rewrite Hx in E; discriminate|]. now apply IH.
  - now rewrite (Honly _ _ _ E).
Qed.

Lemma rfold_raises_only {A S} (body : S -> A -> result S) (xs : list A) (e : exn) :
  (forall acc y e', body acc y = Raise e' -> e' = e) ->
  forall acc e', rfold xs acc body = Raise e' -> e' = e.
Proof.
  intros Honly. induction xs as [|y xs IH]; intros acc e'; cbn [rfold]; [discriminate|].
  unfold rbind. destruct (body acc y) as [a|e''] eqn:E.
  - apply IH.
  - intros [= <-]. now apply (Honly _ _ _ E).
Qed.

(** X20.  One link that mentions [gameId] without the ["gameId/"] form
    makes the scan of the whole schedule page raise [IndexError]: no game
    id of that week is returned. *)
Theorem malformed_link_fails_the_page :
  forall (cells : list (list string)) (links : list string) (href : string),
    In links cells -> In href links ->
    Href.has_sub "gameId" href = true ->
    Href.has_sub "gameId/" href = false ->
    page_game_ids cells = Raise IndexError.
Proof.
  intros cells links href Hc Hl H1 H2. unfold page_game_ids.
  assert (Hbody : forall acc h e',
             (g <- href_game_id h ;;
              Ok (match g with
                  | Some game_id => acc ++ [game_id]
                  | None => acc
                  end))%res = Raise e' -> e' = IndexError).
  { intros acc h e'. unfold rbind.
    destruct (href_game_id h) eqn:E; [discriminate|].
    intros [= <-]. now apply href_game_id_raises_only_IndexError in E. }
  apply (rfold_raises_in _ _ links _ Hc).
  - intros acc. apply (rfold_raises_in _ _ href _ Hl).
    + intros acc'. now rewrite (href_without_slash_form _ H1 H2).
    + exact Hbody.
  - intros acc y e'. apply rfold_raises_only. exact Hbody.
Qed.

Lemma malformed_link_fails_the_page_witness :
  page_game_ids [["/nfl/game/_/gameId/401772510/cowboys-eagles"%string];
                 ["/nfl/team/_/name/dal"%string; "/nfl/game?gameId=401772511"%string]]
  = Raise IndexError.
Proof.
  apply (malformed_link_fails_the_page _
           ["/nfl/team/_/name/dal"%string; "/nfl/game?gameId=401772511"%string]
           "/nfl/game?gameId=401772511").
  - right. left. reflexivity.
  - right. left. reflexivity.
  - vm_compute. reflexivity.
  - vm_compute. reflexivity.
Defined.

(** ** The requests of a run *)

Create HintDb offline.

Lemma requests_snoc_other tr ev :
  match ev with Http _ => False | _ => True end ->
  requests (tr ++ [ev]) = requests tr.
Proof.
  intros H. rewrite requests_app. destruct ev; cbn in *;
    try apply app_nil_r. contradiction.
Qed.

Lemma offline_ret {A} (a : A) : offline (ret a).
Proof. intros w. reflexivity. Qed.

Lemma offline_raise {A} e : offline (@raise A e).
Proof. intros w. reflexivity. Qed.

Lemma offline_lift {A} (r : result A) : offline (lift r).
Proof. intros w. reflexivity. Qed.

Lemma offline_bind {A B} (m : M A) (k : A -> M B) :
  offline m -> (forall a, offline (k a)) -> offline (bind m k).
Proof.
  intros Hm Hk w. unfold bind. specialize (Hm w).
  destruct (m w) as [[a|e] w1]; cbn [snd] in *; [|exact Hm].
  rewrite <- Hm. apply Hk.
Qed.

Lemma offline_try_except {A} (m : M A) (h : exn -> M A) :
  offline m -> (forall e, offline (h e)) -> offline (try_except m h).
Proof.
  intros Hm Hh w. unfold try_except. specialize (Hm w).
  destruct (m w) as [[a|e] w1]; cbn [snd] in *; [exact Hm|].
  rewrite <- Hm. apply Hh.
Qed.

Lemma offline_for_each {A S} (xs : list A) (body : S -> A -> M S) :
  (forall acc x, offline (body acc x)) -> forall acc, offline (for_each xs acc body).
Proof.
  intros Hb. induction xs as [|x xs IH]; intros acc; cbn [for_each].
  - apply offline_ret.
  - apply offline_bind; [apply Hb|intros a; apply IH].
Qed.

Lemma offline_print m : offline (print m).
Proof. intros w. cbn. now apply requests_snoc_other. Qed.

Lemma offline_sql s : offline (emit (Sql s)).
Proof. intros w. cbn. now apply requests_snoc_other. Qed.

Lemma offline_statement s : offline (statement s).
Proof. intros w. rewrite statement_eq. cbn. now apply requests_snoc_other. Qed.

Lemma offline_get_pending : offline get_pending.
Proof. intros w. reflexivity. Qed.

Lemma offline_set_pending t : offline (set_pending t).
Proof. intros w. reflexivity. Qed.

#[local] Hint Resolve offline_ret offline_raise offline_lift offline_statement
  offline_get_pending offline_set_pending offline_print offline_sql : offline.
#[local] Hint Extern 2 (offline (bind _ _)) => apply offline_bind; [|intros ?] : offline.
#[local] Hint Extern 2 (offline (try_except _ _)) =>
  apply offline_try_except; [|intros ?] : offline.
#[local] Hint Extern 2 (offline (for_each _ _ _)) =>
  apply offline_for_each; intros ? ? : offline.

Lemma offline_commit : offline commit.
Proof.
  unfold commit. apply offline_bind; [auto with offline|].
  intros _ w. reflexivity.
Qed.

Lemma offline_rollback : offline rollback.
Proof.
  unfold rollback. apply offline_bind; [auto with offline|].
  intros _ w. reflexivity.
Qed.

#[local] Hint Resolve offline_commit offline_rollback : offline.

Lemma offline_upsert {R} (T : Table R) merged fresh rs :
  offline (upsert T merged fresh rs).
Proof.
  unfold upsert, upsert_nonempty. destruct (is_empty rs); [auto with offline|].
  apply offline_try_except; [|intros e; auto with offline].
  apply offline_bind; [|intros n; auto with offline].
  apply offline_for_each. intros acc s. unfold upsert_one.
  destruct (row_player_id T s) as [pid|]; [|auto with offline].
  apply offline_bind; [unfold select_one; auto 10 with offline|].
  intros [row|]; unfold update_where, insert_into; auto 10 with offline.
Qed.

Lemma offline_insert_all_player_stats ps : offline (insert_all_player_stats ps).
Proof.
  unfold insert_all_player_stats.
  rewrite insert_passing_stats_upsert, insert_rushing_stats_upsert,
    insert_receiving_stats_upsert, insert_fumbles_stats_upsert,
    insert_defensive_stats_upsert, insert_interceptions_stats_upsert.
  apply offline_try_except; [|intros e; auto with offline].
  repeat (apply offline_bind; [apply offline_upsert|intros ?]).
  apply offline_ret.
Qed.

Lemma process_game_requests feed week g w :
  requests (trace (snd (process_game feed week g w)))
  = requests (trace w) ++ game_requests g.
Proof.
  unfold process_game. rewrite bind_print.
  pose proof (offline_print (MsgGame g week) w) as Hp.
  set (w0 := snd (print (MsgGame g week) w)) in *.
  unfold try_except, game_requests.
  destruct (PyStr.int g) as [n|] eqn:Hn.
  - rewrite (attempt_game_eq feed g n w0 Hn). cbv zeta.
    set (w1 := snd (emit (Http (GetSummary (PyStr.str n))) w0)).
    assert (H1 : requests (trace w1) = requests (trace w) ++ [GetSummary (PyStr.str n)]).
    { subst w1. cbn [emit snd trace]. rewrite requests_app, Hp. reflexivity. }
    destruct (summary_json feed (PyStr.str n)) as [d|e].
    + destruct (extract_player_stats d) as [s|e].
      * assert (Hoff : offline (inserted <- insert_all_player_stats s ;;
                                print (MsgInserted inserted))).
        { apply offline_bind; [apply offline_insert_all_player_stats|].
          intros c. apply offline_print. }
        specialize (Hoff w1).
        destruct ((inserted <- insert_all_player_stats s ;; print (MsgInserted inserted)) w1)
          as [[[]|e] w2]; cbn [snd] in *.
        -- now rewrite Hoff.
        -- rewrite offline_print. now rewrite Hoff.
      * rewrite offline_print. exact H1.
    + rewrite offline_print. exact H1.
  - unfold attempt_game, int_of_str. rewrite Hn.
    unfold bind at 1, raise. rewrite offline_print. cbn [snd].
    rewrite Hp. now rewrite app_nil_r.
Qed.

Lemma games_loop_requests feed week gs : forall w,
  requests (trace (snd (for_each gs tt (fun _ g => process_game feed week g) w)))
  = requests (trace w) ++ flat_map game_requests gs.
Proof.
  induction gs as [|g gs IH]; intros w.
  - cbn. now rewrite app_nil_r.
  - rewrite games_loop_step, IH, process_game_requests.
    cbn [flat_map]. now rewrite app_assoc.
Qed.

Lemma process_week_requests feed season end_week season_type sts week w :
  let out := process_week feed season end_week season_type sts week w in
  match schedule_page feed season week season_type with
  | Ok gs =>
      fst out = Ok tt
      /\ requests (trace (snd out))
         = requests (trace w)
           ++ GetSchedule season week season_type :: flat_map game_requests gs
  | Raise e =>
      fst out = Raise e
      /\ requests (trace (snd out))
         = requests (trace w) ++ [GetSchedule season week season_type]
  end.
Proof.
  cbv zeta. destruct (schedule_page feed season week season_type) as [gs|e] eqn:H.
  - rewrite (process_week_eq _ _ _ _ _ _ _ _ H). split.
    + destruct (games_loop_total feed week gs
                  (snd (print (MsgFound (List.length gs) season week sts)
                     (snd (emit (Http (GetSchedule season week season_type))
                        (snd (print (MsgWeek week end_week) w))))))) as (w' & ->).
      reflexivity.
    + rewrite games_loop_requests, offline_print.
      cbn [emit snd trace]. rewrite requests_app, offline_print.
      cbn [requests flat_map app]. now rewrite <- app_assoc.
  - unfold process_week, get_game_ids.
    rewrite bind_print. unfold bind at 1. rewrite bind_emit.
    unfold lift. rewrite H. cbn [fst snd]. split; [reflexivity|].
    unfold bind. cbn [print emit snd fst trace].
    rewrite !requests_app. cbn [requests flat_map app]. now rewrite app_nil_r.
Qed.

Lemma weeks_loop_requests feed season end_week season_type sts weeks : forall w,
  requests (trace (snd (for_each weeks tt
     (fun _ week => process_week feed season end_week season_type sts week) w)))
  = requests (trace w) ++ traffic feed season season_type weeks.
Proof.
  induction weeks as [|week weeks IH]; intros w.
  - cbn. now rewrite app_nil_r.
  - cbn [for_each traffic]. unfold bind.
    pose proof (process_week_requests feed season end_week season_type sts week w) as H.
    cbv zeta in H.
    destruct (process_week feed season end_week season_type sts week w) as [r w1].
    cbn [fst snd] in H.
    destruct (schedule_page feed season week season_type) as [gs|e];
      destruct H as [-> Hreq].
    + rewrite IH, Hreq. rewrite <- app_assoc. reflexivity.
    + cbn [snd]. exact Hreq.
Qed.



(* ================================================================= *)
(** * Failures inside a run *)

(** ** Storage failures, statement by statement *)

Lemma fails_in_add a : forall b fs,
  fails_in (a + b) fs = fails_in a fs || fails_in b (skipn a fs).
Proof.
  unfold fails_in. induction a as [|a IH]; intros b fs.
  - reflexivity.
  - destruct fs as [|x fs].
    + cbn [Nat.add firstn skipn existsb]. now rewrite firstn_nil.
    + cbn [Nat.add firstn skipn existsb]. rewrite IH. now rewrite orb_assoc.
Qed.

Lemma fails_in_one fs : fails_in 1 fs = hd false fs.
Proof. destruct fs as [|x fs]; cbn; [reflexivity|apply orb_false_r]. Qed.

Lemma fails_in_nil n : fails_in n [] = false.
Proof. unfold fails_in. now rewrite firstn_nil. Qed.

Lemma after_fault_skipn a : forall fs,
  fails_in a fs = false -> after_fault (skipn a fs) = after_fault fs.
Proof.
  unfold fails_in. induction a as [|a IH]; intros fs H; [reflexivity|].
  destruct fs as [|x fs]; [reflexivity|].
  cbn [firstn existsb skipn] in *. apply orb_false_iff in H as [-> H].
  cbn [after_fault]. now apply IH.
Qed.

Lemma skipn_add {A} a b (l : list A) : skipn b (skipn a l) = skipn (a + b) l.
Proof. rewrite skipn_skipn. f_equal. apply Nat.add_comm. Qed.

Section UpsertFaults.

Context {R : Type}.
Variable T : Table R.
Variable merged : R -> R -> R -> R.
Variable fresh : Z -> R -> R.

Hypothesis L : TableLaws T merged fresh.

Local Abbreviation one := (upsert_one T merged fresh).

Lemma upsert_one_faults acc s w :
  match row_player_id T s with
  | None => one acc s w = (Ok acc, w)
  | Some _ =>
      if fails_in 2 (faults w)
      then fst (one acc s w) = Raise (DbError "statement failed")
           /\ faults (snd (one acc s w)) = after_fault (faults w)
      else fst (one acc s w) = Ok (acc + 1)
           /\ faults (snd (one acc s w)) = skipn 2 (faults w)
  end.
Proof.
  unfold upsert_one. destruct (row_player_id T s) as [pid|]; [|reflexivity].
  unfold select_one, update_where, insert_into, bind, get_pending, set_pending, ret.
  rewrite statement_eq.
  destruct w as [c p f tr]. cbn [faults after_statement pending committed trace].
  destruct f as [|[] f]; cbn [hd tl fst snd].
  - destruct (find _ _); rewrite statement_eq; cbn; split; reflexivity.
  - split; reflexivity.
  - destruct f as [|[] f];
      destruct (find _ _); rewrite statement_eq; cbn; split; reflexivity.
Qed.

Lemma for_each_faults rs : forall acc w,
  let n := (2 * List.length (with_player_id T rs))%nat in
  if fails_in n (faults w)
  then fst (for_each rs acc one w) = Raise (DbError "statement failed")
       /\ faults (snd (for_each rs acc one w)) = after_fault (faults w)
  else fst (for_each rs acc one w)
       = Ok (acc + Z.of_nat (List.length (with_player_id T rs)))
       /\ faults (snd (for_each rs acc one w)) = skipn n (faults w).
Proof.
  induction rs as [|s rs IH]; intros acc w; cbv zeta.
  - cbn. split; [f_equal; lia|reflexivity].
  - cbn [for_each]. unfold bind.
    pose proof (upsert_one_faults acc s w) as H1.
    unfold with_player_id. cbn [filter]. fold (with_player_id T rs).
    destruct (row_player_id T s) as [pid|]; cbn [is_None negb].
    + cbn [List.length].
      replace (2 * S (List.length (with_player_id T rs)))%nat
        with (2 + 2 * List.length (with_player_id T rs))%nat by lia.
      rewrite fails_in_add.
      destruct (fails_in 2 (faults w)) eqn:F2; destruct H1 as [Hr Hf].
      * destruct (one acc s w) as [r w1]. cbn [fst snd] in *. subst r.
        cbn [orb fst snd]. split; [reflexivity|exact Hf].
      * destruct (one acc s w) as [r w1]. cbn [fst snd] in *. subst r.
        cbn [orb]. specialize (IH (acc + 1) w1). cbv zeta in IH.
        rewrite Hf in IH.
        destruct (fails_in (2 * List.length (with_player_id T rs))
                    (skipn 2 (faults w))) eqn:Fn; destruct IH as [IHr IHf].
        -- split; [exact IHr|]. rewrite IHf. now apply after_fault_skipn.
        -- split; [rewrite IHr; f_equal; lia|]. rewrite IHf. apply skipn_add.
    + rewrite H1. apply IH.
Qed.

Lemma upsert_faults rs w :
  if fails_in (batch_cost T rs) (faults w)
  then fst (upsert T merged fresh rs w) = Raise (DbError "statement failed")
       /\ faults (snd (upsert T merged fresh rs w)) = after_fault (faults w)
  else (exists n, fst (upsert T merged fresh rs w) = Ok n)
       /\ faults (snd (upsert T merged fresh rs w)) = skipn (batch_cost T rs) (faults w).
Proof.
  unfold upsert, batch_cost. destruct (is_empty rs).
  - cbn. split; [now eexists|reflexivity].
  - unfold upsert_nonempty, try_except, bind.
    pose proof (for_each_faults rs 0 w) as H1. cbv zeta in H1.
    rewrite fails_in_add.
    destruct (fails_in (2 * List.length (with_player_id T rs)) (faults w)) eqn:Fm;
      destruct H1 as [Hr Hf];
      destruct (for_each rs 0 one w) as [r w1]; cbn [fst snd] in *; subst r.
    + rewrite rollback_eq. cbn. split; [reflexivity|exact Hf].
    + cbn [orb]. rewrite commit_eq, fails_in_one, <- Hf.
      destruct (hd false (faults w1)) eqn:Fc.
      * assert (E : after_fault (faults w) = tl (faults w1)).
        { rewrite <- (after_fault_skipn _ _ Fm), <- Hf.
          destruct (faults w1) as [|[] f]; cbn in *; try discriminate; reflexivity. }
        rewrite rollback_eq. cbn [fst snd faults after_statement].
        split; [reflexivity|]. now rewrite E.
      * assert (E : skipn (2 * List.length (with_player_id T rs) + 1) (faults w)
                    = tl (faults w1)).
        { rewrite <- skipn_add, <- Hf. now destruct (faults w1). }
        cbn [fst snd faults]. split; [now eexists|]. now rewrite E.
Qed.

(** One batch on a store with nothing pending: whole or not at all, by
    the fault schedule. *)
Lemma upsert_exact rs w :
  clean w ->
  clean (snd (upsert T merged fresh rs w))
  /\ if fails_in (batch_cost T rs) (faults w)
     then fst (upsert T merged fresh rs w) = Raise (DbError "statement failed")
          /\ committed (snd (upsert T merged fresh rs w)) = committed w
          /\ faults (snd (upsert T merged fresh rs w)) = after_fault (faults w)
     else fst (upsert T merged fresh rs w)
          = Ok (Z.of_nat (List.length (with_player_id T rs)))
          /\ committed (snd (upsert T merged fresh rs w))
             = apply_batch T merged fresh rs (committed w)
          /\ faults (snd (upsert T merged fresh rs w))
             = skipn (batch_cost T rs) (faults w).
Proof.
  intros Hw. pose proof (upsert_post T merged fresh L rs w Hw) as Hp.
  pose proof (upsert_faults rs w) as Hf. unfold batch_post in Hp.
  destruct Hp as [Hc Hp]. split; [exact Hc|].
  destruct (fails_in (batch_cost T rs) (faults w)).
  - destruct Hf as [Hr Hf]. rewrite Hr in Hp. destruct Hp as [Hk _]. auto.
  - destruct Hf as [[n Hr] Hf]. rewrite Hr in Hp. destruct Hp as (Hn & Hk & _).
    subst n. auto.
Qed.

Lemma reraises_generic : reraises T (upsert T merged fresh).
Proof.
  intros rs w Hw Hf. cbv zeta.
  destruct (upsert_exact rs w Hw) as [Hc H]. rewrite Hf in H.
  destruct H as (Hr & Hk & Hfs). unfold clean in Hc.
  repeat split; [exact Hr|exact Hk|congruence|exact Hfs].
Qed.

End UpsertFaults.

(** ** The six batches of one game *)

Ltac batch_step laws w Hw C K S F w' :=
  let H := fresh "H" in
  let r := fresh "r" in
  let Rr := fresh "Rr" in
  match goal with
  | |- context [upsert ?T ?m ?f ?rs w] =>
      destruct (upsert_exact T m f laws rs w Hw) as [C H];
      match type of H with
      | if ?c then _ else _ => destruct c eqn:F
      end;
      destruct H as (Rr & K & S);
      destruct (upsert T m f rs w) as [r w'];
      cbn [fst snd] in C, Rr, K, S; subst r; cbv beta iota
  end.

Ltac batch_failed :=
  rewrite rollback_eq; unfold raise, clean;
  cbn [fst snd committed pending faults Nat.eqb];
  refine (conj eq_refl (conj _ (conj _ eq_refl)));
  [ repeat match goal with
           | K : committed _ = _ |- _ => rewrite K; clear K
           end; reflexivity
  | assumption ].

Lemma insert_all_player_stats_exact ps w :
  clean w ->
  let out := insert_all_player_stats ps w in
  let k := completed (costs ps) (faults w) in
  clean (snd out)
  /\ committed (snd out) = apply_categories k ps (committed w)
  /\ faults (snd out) = remaining (costs ps) (faults w)
  /\ (if (k =? 6)%nat then exists c, fst out = Ok c
      else fst out = Raise (DbError "statement failed")).
Proof.
  intros Hw. cbv zeta. unfold insert_all_player_stats, try_except, bind, costs.
  rewrite insert_passing_stats_upsert, insert_rushing_stats_upsert,
    insert_receiving_stats_upsert, insert_fumbles_stats_upsert,
    insert_defensive_stats_upsert, insert_interceptions_stats_upsert.
  cbn [completed remaining].
  batch_step passing_laws w Hw C1 K1 S1 F1 w1; [batch_failed|].
  rewrite <- S1.
  batch_step rushing_laws w1 C1 C2 K2 S2 F2 w2; [batch_failed|].
  rewrite <- S2.
  batch_step receiving_laws w2 C2 C3 K3 S3 F3 w3; [batch_failed|].
  rewrite <- S3.
  batch_step fumbles_laws w3 C3 C4 K4 S4 F4 w4; [batch_failed|].
  rewrite <- S4.
  batch_step defensive_laws w4 C4 C5 K5 S5 F5 w5; [batch_failed|].
  rewrite <- S5.
  batch_step interceptions_laws w5 C5 C6 K6 S6 F6 w6; [batch_failed|].
  rewrite <- S6. unfold ret. cbn [fst snd Nat.eqb].
  refine (conj C6 (conj _ (conj eq_refl _))); [|now eexists].
  rewrite K6, K5, K4, K3, K2, K1. reflexivity.
Qed.

(** ** One game, the games of a week, the weeks of a run *)

Lemma process_game_exact feed week g w :
  clean w ->
  let out := process_game feed week g w in
  fst out = Ok tt
  /\ clean (snd out)
  /\ match game_stats feed g with
     | Raise e =>
         warnings (trace (snd out)) = warnings (trace w) ++ [(g, week, e)]
         /\ committed (snd out) = committed w
         /\ faults (snd out) = faults w
     | Ok ps =>
         let k := completed (costs ps) (faults w) in
         warnings (trace (snd out))
         = warnings (trace w)
           ++ (if (k =? 6)%nat then [] else [(g, week, DbError "statement failed")])
         /\ committed (snd out) = apply_categories k ps (committed w)
         /\ faults (snd out) = remaining (costs ps) (faults w)
     end.
Proof.
  intros Hw. cbv zeta. unfold process_game. rewrite bind_print.
  set (w0 := snd (print (MsgGame g week) w)).
  assert (H0 : clean w0 /\ committed w0 = committed w /\ faults w0 = faults w
               /\ warnings (trace w0) = warnings (trace w)).
  { subst w0. unfold clean in *. cbn [print emit snd committed pending faults trace].
    repeat split; [exact Hw|]. now apply warnings_snoc_other. }
  destruct H0 as (Hc0 & Hk0 & Hf0 & Hw0).
  assert (Hraise : forall e w1,
             clean w1 -> committed w1 = committed w -> faults w1 = faults w ->
             warnings (trace w1) = warnings (trace w) ->
             attempt_game feed g w0 = (Raise e, w1) ->
             fst (try_except (attempt_game feed g)
                    (fun e => print (MsgWarning g week e)) w0) = Ok tt
             /\ clean (snd (try_except (attempt_game feed g)
                              (fun e => print (MsgWarning g week e)) w0))
             /\ warnings (trace (snd (try_except (attempt_game feed g)
                                        (fun e => print (MsgWarning g week e)) w0)))
                = warnings (trace w) ++ [(g, week, e)]
             /\ committed (snd (try_except (attempt_game feed g)
                                  (fun e => print (MsgWarning g week e)) w0))
                = committed w
             /\ faults (snd (try_except (attempt_game feed g)
                               (fun e => print (MsgWarning g week e)) w0))
                = faults w).
  { intros e w1 Hc1 Hk1 Hf1 Hw1 E. unfold try_except. rewrite E.
    unfold clean in *. cbn [print emit fst snd committed pending faults trace].
    repeat split; try assumption.
    rewrite warnings_app, Hw1. reflexivity. }
  unfold game_stats. destruct (PyStr.int g) as [n|] eqn:Hn.
  - pose proof (attempt_game_eq feed g n w0 Hn) as E. cbv zeta in E.
    set (w1 := snd (emit (Http (GetSummary (PyStr.str n))) w0)) in *.
    assert (H1 : clean w1 /\ committed w1 = committed w /\ faults w1 = faults w
                 /\ warnings (trace w1) = warnings (trace w)).
    { subst w1. unfold clean in *. cbn [emit snd committed pending faults trace].
      repeat split; try assumption.
      rewrite warnings_snoc_other by exact I. exact Hw0. }
    destruct H1 as (Hc1 & Hk1 & Hf1 & Hw1).
    destruct (summary_json feed (PyStr.str n)) as [d|e].
    + destruct (extract_player_stats d) as [ps|e].
      * destruct (insert_all_player_stats_exact ps w1 Hc1) as (Hc2 & Hk2 & Hf2 & Hr2).
        pose proof (silent_insert_all_player_stats ps w1) as Hs2.
        rewrite Hf1, Hk1 in *.
        unfold try_except. rewrite E. unfold bind.
        destruct (insert_all_player_stats ps w1) as [r w2]. cbn [fst snd] in *.
        destruct (completed (costs ps) (faults w) =? 6)%nat.
        -- destruct Hr2 as [c ->]. unfold clean in *.
           cbn [print emit fst snd committed pending faults trace].
           repeat split; try assumption.
           rewrite warnings_snoc_other by exact I.
           rewrite Hs2, Hw1. now rewrite app_nil_r.
        -- subst r. unfold clean in *.
           cbn [print emit fst snd committed pending faults trace].
           repeat split; try assumption.
           rewrite warnings_app, Hs2, Hw1. reflexivity.
      * apply (Hraise e w1); assumption.
    + apply (Hraise e w1); assumption.
  - apply (Hraise _ w0); try assumption.
    unfold attempt_game, int_of_str. rewrite Hn. reflexivity.
Qed.

Lemma run_outcome_cons feed g week rest t fs :
  run_outcome feed ((g, week) :: rest) t fs
  = match game_stats feed g with
    | Raise e =>
        let '(ws, t', fs') := run_outcome feed rest t fs in
        ((g, week, e) :: ws, t', fs')
    | Ok ps =>
        let k := completed (costs ps) fs in
        let '(ws, t', fs') :=
          run_outcome feed rest (apply_categories k ps t) (remaining (costs ps) fs) in
        (if (k =? 6)%nat then ws else (g, week, DbError "statement failed") :: ws,
         t', fs')
    end.
Proof. reflexivity. Qed.

Lemma run_outcome_app feed a : forall b t fs,
  run_outcome feed (a ++ b) t fs
  = let '(ws1, t1, fs1) := run_outcome feed a t fs in
    let '(ws2, t2, fs2) := run_outcome feed b t1 fs1 in
    (ws1 ++ ws2, t2, fs2).
Proof.
  induction a as [|[g week] a IH]; intros b t fs.
  - cbn [app run_outcome]. now destruct (run_outcome feed b t fs) as [[ws2 t2] fs2].
  - cbn [app]. rewrite !run_outcome_cons.
    destruct (game_stats feed g) as [ps|e]; cbv zeta; rewrite IH.
    + destruct (run_outcome feed a _ _) as [[ws1 t1] fs1].
      destruct (run_outcome feed b t1 fs1) as [[ws2 t2] fs2].
      now destruct (completed (costs ps) fs =? 6)%nat.
    + destruct (run_outcome feed a t fs) as [[ws1 t1] fs1].
      now destruct (run_outcome feed b t1 fs1) as [[ws2 t2] fs2].
Qed.

Lemma games_loop_exact feed week gs : forall w ws t fs,
  clean w ->
  run_outcome feed (map (fun g => (g, week)) gs) (committed w) (faults w) = (ws, t, fs) ->
  let out := for_each gs tt (fun _ g => process_game feed week g) w in
  fst out = Ok tt
  /\ clean (snd out)
  /\ warnings (trace (snd out)) = warnings (trace w) ++ ws
  /\ committed (snd out) = t
  /\ faults (snd out) = fs.
Proof.
  induction gs as [|g gs IH]; intros w ws t fs Hw Hrun; cbv zeta.
  - cbn in Hrun. injection Hrun as <- <- <-. cbn.
    rewrite app_nil_r. auto.
  - rewrite games_loop_step.
    destruct (process_game_exact feed week g w Hw) as (_ & Hc1 & H1).
    cbn [map] in Hrun. rewrite run_outcome_cons in Hrun.
    destruct (game_stats feed g) as [ps|e]; cbv zeta in H1, Hrun;
      destruct H1 as (Hw1 & Hk1 & Hf1); rewrite <- Hk1, <- Hf1 in Hrun;
      try set (k := completed (costs ps) (faults w)) in *;
      destruct (run_outcome feed (map (fun g0 => (g0, week)) gs) _ _)
        as [[ws' t'] fs'] eqn:Hrest;
      injection Hrun as <- <- <-;
      destruct (IH _ _ _ _ Hc1 Hrest) as (Hr & Hc & Hws & Hk & Hf);
      (split; [exact Hr|]); (split; [exact Hc|]);
      (split; [|split; assumption]);
      rewrite Hws, Hw1.
    + rewrite <- app_assoc. now destruct (k =? 6)%nat.
    + now rewrite <- app_assoc.
Qed.

Lemma weeks_loop_exact feed season end_week season_type sts weeks :
  forall w ws t fs,
    clean w ->
    (forall week, In week weeks ->
       exists gs, schedule_page feed season week season_type = Ok gs) ->
    run_outcome feed (games_in feed season season_type weeks) (committed w) (faults w)
    = (ws, t, fs) ->
    let out := for_each weeks tt
                 (fun _ week =>
                    process_week feed season end_week season_type sts week) w in
    fst out = Ok tt
    /\ clean (snd out)
    /\ warnings (trace (snd out)) = warnings (trace w) ++ ws
    /\ committed (snd out) = t
    /\ faults (snd out) = fs.
Proof.
  induction weeks as [|week weeks IH]; intros w ws t fs Hw Hsched Hrun; cbv zeta.
  - cbn in Hrun. injection Hrun as <- <- <-. cbn. rewrite app_nil_r. auto.
  - destruct (Hsched week (or_introl eq_refl)) as (gs & Hgs).
    cbn [games_in flat_map] in Hrun. rewrite Hgs in Hrun.
    fold (games_in feed season season_type weeks) in Hrun.
    rewrite run_outcome_app in Hrun.
    cbn [for_each]. unfold bind.
    rewrite (process_week_eq _ _ _ _ _ _ _ _ Hgs).
    set (w0 := snd (print (MsgFound (List.length gs) season week sts)
                 (snd (emit (Http (GetSchedule season week season_type))
                    (snd (print (MsgWeek week end_week) w)))))).
    assert (H0 : clean w0 /\ committed w0 = committed w /\ faults w0 = faults w
                 /\ warnings (trace w0) = warnings (trace w)).
    { subst w0. unfold clean in *. cbn [print emit snd committed pending faults trace].
      repeat split; [exact Hw|]. now rewrite !warnings_snoc_other by exact I. }
    destruct H0 as (Hc0 & Hk0 & Hf0 & Hw0).
    rewrite <- Hk0, <- Hf0 in Hrun.
    destruct (run_outcome feed (map (fun g => (g, week)) gs) (committed w0) (faults w0))
      as [[ws1 t1] fs1] eqn:Hweek.
    destruct (games_loop_exact feed week gs w0 ws1 t1 fs1 Hc0 Hweek)
      as (Hr1 & Hc1 & Hws1 & Hk1 & Hf1).
    destruct (for_each gs tt (fun _ g => process_game feed week g) w0) as [r w1].
    cbn [fst snd] in *. subst r.
    rewrite <- Hk1, <- Hf1 in Hrun.
    destruct (run_outcome feed (games_in feed season season_type weeks)
                (committed w1) (faults w1)) as [[ws2 t2] fs2] eqn:Hrest.
    injection Hrun as <- <- <-.
    destruct (IH w1 ws2 t2 fs2 Hc1) as (Hr & Hc & Hws & Hk & Hf);
      [intros wk Hwk; apply Hsched; now right|exact Hrest|].
    split; [exact Hr|]. split; [exact Hc|]. split; [|split; assumption].
    rewrite Hws, Hws1, Hw0. now rewrite app_assoc.
Qed.

(** A run with accepted parameters, a reset that passes and every schedule
    page delivered, whatever else fails. *)
Lemma compile_season_stats_outcome feed season end_week season_type w ws t fs :
  invalid_parameters season_type end_week = false ->
  fails_within 7 w = false ->
  (forall week, 1 <= week <= end_week ->
     exists gs, schedule_page feed season week season_type = Ok gs) ->
  run_outcome feed (games_in feed season season_type (py_range 1 (end_week + 1)))
    empty_tables (skipn 7 (faults w)) = (ws, t, fs) ->
  let out := compile_season_stats feed season end_week season_type w in
  fst out = Ok tt
  /\ warnings (trace (snd out)) = warnings (trace w) ++ ws
  /\ committed (snd out) = t
  /\ pending (snd out) = t
  /\ faults (snd out) = fs.
Proof.
  intros Hvalid Hreset Hsched Hrun. cbv zeta.
  remember (compile_season_stats feed season end_week season_type w) as out eqn:Hout.
  rewrite (compile_season_stats_valid _ _ _ _ Hvalid) in Hout.
  unfold run_season in Hout. cbv zeta in Hout.
  set (sts := if season_type =? 1 then _ else _) in Hout.
  rewrite bind_print in Hout. unfold bind at 1 in Hout.
  set (w0 := snd (print (MsgCompiling season end_week sts) w)) in Hout.
  assert (Hfw : fails_within 7 w0 = fails_within 7 w) by reflexivity.
  assert (Hf0 : faults w0 = faults w) by reflexivity.
  assert (Hw0 : warnings (trace w0) = warnings (trace w)).
  { subst w0. cbn [print emit snd trace]. now apply warnings_snoc_other. }
  destruct (wipe_all_stats_tables_cases w0) as (_ & Hcases).
  pose proof (silent_wipe_all_stats_tables w0) as Hsil.
  destruct Hcases as [(_ & Hr & Hc & Hp & Hf)|(Hbad & _)]; [|congruence].
  destruct (wipe_all_stats_tables w0) as [r w1]. cbn [fst snd] in *. subst r.
  assert (Hc1 : clean w1) by (unfold clean; congruence).
  rewrite <- Hf0, <- Hf, <- Hc in Hrun.
  destruct (weeks_loop_exact feed season end_week season_type sts
              (py_range 1 (end_week + 1)) w1 ws t fs Hc1) as (Hr & Hcl & Hws & Hk & Hfs);
    [intros week Hin; apply Hsched; apply in_py_range in Hin; lia|exact Hrun|].
  unfold bind at 1 in Hout.
  destruct (for_each (py_range 1 (end_week + 1)) tt _ w1) as [r w2].
  cbn [fst snd] in *. subst r. subst out.
  unfold clean in Hcl. cbn [print emit fst snd committed pending faults trace].
  repeat split; try congruence.
  rewrite warnings_snoc_other by exact I. rewrite Hws, Hsil, Hw0. reflexivity.
Qed.

(** *** What the outcome of a run says of its games *)

Lemma run_outcome_failed feed games : forall t fs g week e,
  In (g, week) games -> game_stats feed g = Raise e ->
  In (g, week, e) (fst (fst (run_outcome feed games t fs))).
Proof.
  induction games as [|[g0 week0] games IH]; intros t fs g week e Hin He;
    [destruct Hin|].
  rewrite run_outcome_cons. destruct Hin as [[= -> ->]|Hin].
  - rewrite He. destruct (run_outcome feed games t fs) as [[ws t'] fs'].
    left. reflexivity.
  - destruct (game_stats feed g0) as [ps|e0]; cbv zeta.
    + specialize (IH (apply_categories (completed (costs ps) fs) ps t)
                     (remaining (costs ps) fs) g week e Hin He).
      destruct (run_outcome feed games _ _) as [[ws t'] fs']. cbn [fst] in *.
      destruct (completed (costs ps) fs =? 6)%nat; [exact IH|now right].
    + specialize (IH t fs g week e Hin He).
      destruct (run_outcome feed games t fs) as [[ws t'] fs']. cbn [fst] in *.
      now right.
Qed.

Lemma completed_no_faults cs : completed cs [] = List.length cs /\ remaining cs [] = [].
Proof.
  induction cs as [|c cs [IH1 IH2]]; [split; reflexivity|].
  cbn [completed remaining List.length]. rewrite fails_in_nil, skipn_nil.
  now rewrite IH1, IH2.
Qed.

Lemma run_outcome_no_faults feed games : forall t,
  run_outcome feed games t [] = (failed_games feed games, merged_games feed games t, []).
Proof.
  induction games as [|[g week] games IH]; intros t; [reflexivity|].
  rewrite run_outcome_cons.
  cbn [failed_games merged_games flat_map fold_left fst snd].
  destruct (game_stats feed g) as [ps|e]; cbv zeta.
  - destruct (completed_no_faults (costs ps)) as [-> ->].
    change (List.length (costs ps)) with 6%nat. rewrite IH. reflexivity.
  - rewrite IH. reflexivity.
Qed.

Lemma completed_failing cs : forall fs,
  fails_in (list_sum cs) fs = true ->
  (completed cs fs < List.length cs)%nat /\ remaining cs fs = after_fault fs.
Proof.
  induction cs as [|c cs IH]; intros fs H.
  - cbn in H. discriminate.
  - cbn [list_sum fold_right] in H. change (fold_right Nat.add 0%nat cs) with (list_sum cs) in H.
    rewrite fails_in_add in H. cbn [completed remaining List.length].
    destruct (fails_in c fs) eqn:F; [split; [lia|reflexivity]|].
    cbn [orb] in H. destruct (IH _ H) as [H1 H2].
    split; [lia|]. rewrite H2. now apply after_fault_skipn.
Qed.

(** ** Failures of single games *)

(** C7.  In a run with accepted parameters, a reset that passes and every
    schedule page delivered, whatever fails while a game is handled - its
    id is no number, its summary cannot be fetched, its records cannot be
    extracted, a statement of one of its batches fails - is caught: the
    run returns normally, and its warnings and committed tables are those
    of [run_outcome], which gives every failed game one warning with its
    id, its week and the error, and goes on with the next game.  A game
    that fails before storage is warned whatever the fault schedule; with
    no storage failure the warnings are exactly those games, and the
    committed tables are the other games merged, in order, into empty
    tables.  In particular, for three games in the only week with the
    summary of the second failing to load and no storage failure: the run
    returns normally, exactly one warning is printed, for the second game,
    and the tables are the empty tables with the first and then the third
    game merged. *)
Theorem game_failure_is_a_warning :
  (forall feed season end_week season_type w ws t fs,
      invalid_parameters season_type end_week = false ->
      fails_within 7 w = false ->
      (forall week, 1 <= week <= end_week ->
         exists gs, schedule_page feed season week season_type = Ok gs) ->
      let games := games_in feed season season_type (py_range 1 (end_week + 1)) in
      run_outcome feed games empty_tables (skipn 7 (faults w)) = (ws, t, fs) ->
      let out := compile_season_stats feed season end_week season_type w in
      fst out = Ok tt
      /\ warnings (trace (snd out)) = warnings (trace w) ++ ws
      /\ committed (snd out) = t
      /\ (forall g week e,
            In (g, week) games -> game_stats feed g = Raise e ->
            In (g, week, e) (warnings (trace (snd out))))
      /\ (faults w = [] ->
          warnings (trace (snd out)) = warnings (trace w) ++ failed_games feed games
          /\ committed (snd out) = merged_games feed games empty_tables))
  /\ (forall feed season season_type g1 g2 g3 n1 n2 n3 d1 d3 s1 s3 e w,
        invalid_parameters season_type 1 = false ->
        schedule_page feed season 1 season_type = Ok [g1; g2; g3] ->
        PyStr.int g1 = Some n1 -> PyStr.int g2 = Some n2 -> PyStr.int g3 = Some n3 ->
        summary_json feed (PyStr.str n1) = Ok d1 -> extract_player_stats d1 = Ok s1 ->
        summary_json feed (PyStr.str n2) = Raise e ->
        summary_json feed (PyStr.str n3) = Ok d3 -> extract_player_stats d3 = Ok s3 ->
        faults w = [] ->
        let out := compile_season_stats feed season 1 season_type w in
        fst out = Ok tt
        /\ committed (snd out)
           = apply_categories 6 s3 (apply_categories 6 s1 empty_tables)
        /\ warnings (trace (snd out)) = warnings (trace w) ++ [(g2, 1, e)]).
Proof.
  split.
  - intros feed season end_week season_type w ws t fs Hvalid Hreset Hsched games Hrun.
    cbv zeta.
    destruct (compile_season_stats_outcome feed season end_week season_type w ws t fs
                Hvalid Hreset Hsched Hrun) as (Hr & Hws & Hk & _ & _).
    split; [exact Hr|]. split; [exact Hws|]. split; [exact Hk|]. split.
    + intros g week e Hin He. rewrite Hws. apply in_or_app. right.
      pose proof (run_outcome_failed feed games empty_tables (skipn 7 (faults w))
                    g week e Hin He) as H.
      rewrite Hrun in H. exact H.
    + intros Hf. rewrite Hf in Hrun. change (skipn 7 []) with (@nil bool) in Hrun.
      rewrite run_outcome_no_faults in Hrun. injection Hrun as <- <- _.
      split; [exact Hws|exact Hk].
  - intros feed season season_type g1 g2 g3 n1 n2 n3 d1 d3 s1 s3 e w
      Hvalid Hsched Hn1 Hn2 Hn3 Hd1 Hs1 He Hd3 Hs3 Hf.
    rewrite <- two_games_reference.
    now apply (three_games_second_fetch_fails feed season season_type g1 g2 g3
                 n1 n2 n3 d1 d3 s1 s3 e w).
Qed.

(** The sample schedule with a second game whose summary is delivered but
    holds an empty passing line, against a store whose ninth statement
    fails: the first game fails in storage, the second in extraction, the
    third is merged.  And the sample feed, whose second summary answers
    503, against a reset store: the first and the third game are merged. *)
Lemma game_failure_is_a_warning_witness :
  (let out := compile_season_stats Sample.feed_bad_line 2025 1 2
                Sample.store_failing_ninth in
   fst out = Ok tt
   /\ warnings (trace (snd out))
      = [("401"%string, 1, DbError "statement failed"); ("402"%string, 1, IndexError)]
   /\ map Rushing.rushing_attempts (rushing_stats (committed (snd out))) = [Some 4])
  /\ (let out := compile_season_stats Sample.feed 2025 1 2 (reset_world []) in
      fst out = Ok tt
      /\ warnings (trace (snd out)) = [("402"%string, 1, HTTPError "503 Server Error")]
      /\ map Passing.completions_attempts (passing_stats (committed (snd out)))
         = [Some "35/55"%string]
      /\ map Rushing.rushing_attempts (rushing_stats (committed (snd out)))
         = [Some 14]).
Proof.
  split; cbv zeta.
  - assert (Hv : invalid_parameters 2 1 = false) by reflexivity.
    assert (Hr : fails_within 7 Sample.store_failing_ninth = false) by reflexivity.
    assert (Hs : forall week, 1 <= week <= 1 ->
                   exists gs, schedule_page Sample.feed_bad_line 2025 week 2 = Ok gs).
    { intros week Hweek. assert (week = 1) as -> by lia. eexists. reflexivity. }
    assert (Hrun :
      run_outcome Sample.feed_bad_line
        (games_in Sample.feed_bad_line 2025 2 (py_range 1 (1 + 1)))
        empty_tables (skipn 7 (faults Sample.store_failing_ninth))
      = ([("401"%string, 1, DbError "statement failed"); ("402"%string, 1, IndexError)],
         apply_categories 6 Sample.stats_403 empty_tables, []))
      by (vm_compute; reflexivity).
    destruct (proj1 game_failure_is_a_warning Sample.feed_bad_line 2025 1 2
                Sample.store_failing_ninth _ _ _ Hv Hr Hs Hrun)
      as (H1 & H2 & H3 & _).
    split; [exact H1|]. split; [exact H2|]. rewrite H3. vm_compute. reflexivity.
  - assert (E1 : extract_player_stats Sample.game_401 = Ok Sample.stats_401)
      by (vm_compute; reflexivity).
    assert (E3 : extract_player_stats Sample.game_403 = Ok Sample.stats_403)
      by (vm_compute; reflexivity).
    assert (Hv : invalid_parameters 2 1 = false) by reflexivity.
    assert (Hg : schedule_page Sample.feed 2025 1 2
                 = Ok ["401"; "402"; "403"]%string) by reflexivity.
    assert (Hn1 : PyStr.int "401" = Some 401) by (vm_compute; reflexivity).
    assert (Hn2 : PyStr.int "402" = Some 402) by (vm_compute; reflexivity).
    assert (Hn3 : PyStr.int "403" = Some 403) by (vm_compute; reflexivity).
    assert (Hd1 : summary_json Sample.feed (PyStr.str 401) = Ok Sample.game_401)
      by (vm_compute; reflexivity).
    assert (Hd2 : summary_json Sample.feed (PyStr.str 402)
                  = Raise (HTTPError "503 Server Error"))
      by (vm_compute; reflexivity).
    assert (Hd3 : summary_json Sample.feed (PyStr.str 403) = Ok Sample.game_403)
      by (vm_compute; reflexivity).
    destruct (proj2 game_failure_is_a_warning
                Sample.feed 2025 2 "401"%string "402"%string "403"%string 401 402 403
                Sample.game_401 Sample.game_403 Sample.stats_401 Sample.stats_403
                (HTTPError "503 Server Error") (reset_world [])
                Hv Hg Hn1 Hn2 Hn3 Hd1 E1 Hd2 Hd3 E3 eq_refl)
      as (H1 & H2 & H3).
    split; [exact H1|]. split; [exact H3|]. rewrite H2.
    split; vm_compute; reflexivity.
Defined.

(** ** A storage failure while a game is merged *)

(** C4, amended.  A fault among the statements of a batch makes the insert
    function raise the error of the failing statement, with what was
    committed still committed and nothing pending; a fault among the
    statements of the six batches of a game makes
    [insert_all_player_stats] raise it too, with the batches of the [k < 6]
    categories before the failing one committed.  The caller of the
    compiler does not see it: in a run with accepted parameters, a reset
    that passes and every schedule page delivered, when a fault falls
    among the statements of the batches of a listed game whose records
    were extracted, the run returns normally; after the warnings of the
    games before comes a warning with the id and the week of that game and
    the error, and then the warnings of the games after it, which are
    processed from the tables the earlier games and the first [k]
    categories of that game committed. *)
Theorem storage_failure_becomes_a_warning :
  (reraises passing_stats_T insert_passing_stats
   /\ reraises rushing_stats_T insert_rushing_stats
   /\ reraises receiving_stats_T insert_receiving_stats
   /\ reraises fumbles_stats_T insert_fumbles_stats
   /\ reraises defensive_stats_T insert_defensive_stats
   /\ reraises interceptions_stats_T insert_interceptions_stats)
  /\ (forall ps w,
        clean w ->
        fails_in (list_sum (costs ps)) (faults w) = true ->
        let out := insert_all_player_stats ps w in
        let k := completed (costs ps) (faults w) in
        fst out = Raise (DbError "statement failed")
        /\ (k < 6)%nat
        /\ committed (snd out) = apply_categories k ps (committed w)
        /\ pending (snd out) = committed (snd out)
        /\ faults (snd out) = after_fault (faults w))
  /\ (forall feed season end_week season_type w before g week after ps
             ws0 t0 fs0 ws1 t1 fs1,
        invalid_parameters season_type end_week = false ->
        fails_within 7 w = false ->
        (forall week, 1 <= week <= end_week ->
           exists gs, schedule_page feed season week season_type = Ok gs) ->
        games_in feed season season_type (py_range 1 (end_week + 1))
        = before ++ (g, week) :: after ->
        run_outcome feed before empty_tables (skipn 7 (faults w)) = (ws0, t0, fs0) ->
        game_stats feed g = Ok ps ->
        fails_in (list_sum (costs ps)) fs0 = true ->
        let k := completed (costs ps) fs0 in
        run_outcome feed after (apply_categories k ps t0) (after_fault fs0)
        = (ws1, t1, fs1) ->
        let out := compile_season_stats feed season end_week season_type w in
        fst out = Ok tt
        /\ warnings (trace (snd out))
           = warnings (trace w) ++ ws0 ++ (g, week, DbError "statement failed") :: ws1
        /\ (k < 6)%nat
        /\ committed (snd out) = t1
        /\ pending (snd out) = t1).
Proof.
  split; [|split].
  - refine (conj _ (conj _ (conj _ (conj _ (conj _ _))))).
    + rewrite insert_passing_stats_upsert. apply reraises_generic, passing_laws.
    + rewrite insert_rushing_stats_upsert. apply reraises_generic, rushing_laws.
    + rewrite insert_receiving_stats_upsert. apply reraises_generic, receiving_laws.
    + rewrite insert_fumbles_stats_upsert. apply reraises_generic, fumbles_laws.
    + rewrite insert_defensive_stats_upsert. apply reraises_generic, defensive_laws.
    + rewrite insert_interceptions_stats_upsert.
      apply reraises_generic, interceptions_laws.
  - intros ps w Hw Hf. cbv zeta.
    destruct (completed_failing (costs ps) (faults w) Hf) as [Hlt Hrem].
    change (List.length (costs ps)) with 6%nat in Hlt.
    destruct (insert_all_player_stats_exact ps w Hw) as (Hc & Hk & Hfs & Hr).
    assert (E : (completed (costs ps) (faults w) =? 6)%nat = false)
      by (apply Nat.eqb_neq; lia).
    rewrite E in Hr. unfold clean in Hc.
    refine (conj Hr (conj Hlt (conj Hk (conj Hc _)))). now rewrite Hfs.
  - intros feed season end_week season_type w before g week after ps
      ws0 t0 fs0 ws1 t1 fs1 Hvalid Hreset Hsched Hgames H0 Hg Hf k H1.
    cbv zeta.
    destruct (completed_failing (costs ps) fs0 Hf) as [Hlt Hrem].
    change (List.length (costs ps)) with 6%nat in Hlt.
    assert (E : (completed (costs ps) fs0 =? 6)%nat = false)
      by (apply Nat.eqb_neq; lia).
    assert (Hrun :
      run_outcome feed (games_in feed season season_type (py_range 1 (end_week + 1)))
        empty_tables (skipn 7 (faults w))
      = (ws0 ++ (g, week, DbError "statement failed") :: ws1, t1, fs1)).
    { rewrite Hgames, run_outcome_app, H0, run_outcome_cons, Hg. cbv zeta.
      rewrite Hrem. fold k. rewrite H1. subst k. rewrite E. reflexivity. }
    destruct (compile_season_stats_outcome feed season end_week season_type w _ _ _
                Hvalid Hreset Hsched Hrun) as (Hr & Hws & Hk & Hp & _).
    refine (conj Hr (conj Hws (conj Hlt (conj Hk Hp)))).
Qed.

(** The sample feed against a store whose ninth statement fails: after the
    reset the SELECT for the passer of game 401 passes and the INSERT
    fails.  The run returns normally with a warning for game 401, goes on
    to games 402 and 403, and commits the lines of game 403 alone. *)
Lemma storage_failure_becomes_a_warning_witness :
  let out := compile_season_stats Sample.feed 2025 1 2 Sample.store_failing_ninth in
  fst out = Ok tt
  /\ warnings (trace (snd out))
     = [("401"%string, 1, DbError "statement failed");
        ("402"%string, 1, HTTPError "503 Server Error")]
  /\ committed (snd out) = apply_categories 6 Sample.stats_403 empty_tables
  /\ map Rushing.rushing_attempts (rushing_stats (committed (snd out))) = [Some 4].
Proof.
  cbv zeta.
  assert (Hv : invalid_parameters 2 1 = false) by reflexivity.
  assert (Hr : fails_within 7 Sample.store_failing_ninth = false) by reflexivity.
  assert (Hs : forall week, 1 <= week <= 1 ->
                 exists gs, schedule_page Sample.feed 2025 week 2 = Ok gs).
  { intros week Hweek. assert (week = 1) as -> by lia. eexists. reflexivity. }
  assert (Hg : games_in Sample.feed 2025 2 (py_range 1 (1 + 1))
               = [] ++ ("401"%string, 1) :: [("402"%string, 1); ("403"%string, 1)])
    by reflexivity.
  assert (H0 : run_outcome Sample.feed [] empty_tables
                 (skipn 7 (faults Sample.store_failing_ninth))
               = ([], empty_tables, [false; true])) by reflexivity.
  assert (Hps : game_stats Sample.feed "401" = Ok Sample.stats_401)
    by (vm_compute; reflexivity).
  assert (Hf : fails_in (list_sum (costs Sample.stats_401)) [false; true] = true)
    by (vm_compute; reflexivity).
  assert (H1 :
    run_outcome Sample.feed [("402"%string, 1); ("403"%string, 1)]
      (apply_categories (completed (costs Sample.stats_401) [false; true])
         Sample.stats_401 empty_tables)
      (after_fault [false; true])
    = ([("402"%string, 1, HTTPError "503 Server Error")],
       apply_categories 6 Sample.stats_403 empty_tables, []))
    by (vm_compute; reflexivity).
  destruct (proj2 (proj2 storage_failure_becomes_a_warning)
              Sample.feed 2025 1 2 Sample.store_failing_ninth
              [] "401"%string 1 [("402"%string, 1); ("403"%string, 1)]
              Sample.stats_401 _ _ _ _ _ _ Hv Hr Hs Hg H0 Hps Hf H1)
    as (R1 & R2 & _ & R4 & _).
  split; [exact R1|]. split; [exact R2|]. split; [exact R4|].
  rewrite R4. vm_compute. reflexivity.
Defined.
